(** * Topology manager of the network monitor: model and verification

    Shallow embedding of
    [AutomatedMonitoring/NetworkMonitor/modules/topology_manager.py].

    - [Py]   : the Python values, dictionaries and exceptions the module
               manipulates, and a small state-and-exception monad.
    - [NX]   : the part of the [networkx] [Graph] class the module calls.
               [networkx] is a third-party library; its operations are
               modelled after their documented behaviour.
    - the [TopologyManager] class itself, method by method.

    Time ([time.time()]) is an integer number of clock ticks; the module
    only subtracts and compares time stamps. *)

From Stdlib Require Import ZArith.
From stdpp Require Import base list strings gmap.

Set Warnings "-register-all".

Local Open Scope Z_scope.

(* ===================================================================== *)
(** * Python values, dictionaries, exceptions                             *)
(* ===================================================================== *)

Inductive LinkType := PHYSICAL | LOGICAL | VLAN | LAG.
Inductive LayerType := L2 | L3 | L4.

#[global] Instance LinkType_eq_dec : EqDecision LinkType.
Proof. solve_decision. Defined.
#[global] Instance LayerType_eq_dec : EqDecision LayerType.
Proof. solve_decision. Defined.

Module Py.

(** The values stored in edge attribute dictionaries. A [VDict] is an
    insertion-ordered dictionary with string keys, a [VSet] a set given
    by the list of its members. *)
Inductive value :=
| VLinkType (t : LinkType)
| VLayerType (l : LayerType)
| VStr (s : string)
| VFloat (z : Z)
| VTuple (a b : value)
| VSet (xs : list value)
| VDict (d : list (string * value)).

Definition dict := list (string * value).

(** [d.get(k)] *)
Fixpoint dict_get (d : dict) (k : string) : option value :=
  match d with
  | [] => None
  | (k', v) :: d' => if decide (k' = k) then Some v else dict_get d' k
  end.

(** [d[k] = v]: an existing key keeps its position. *)
Fixpoint dict_set (d : dict) (k : string) (v : value) : dict :=
  match d with
  | [] => [(k, v)]
  | (k', v') :: d' =>
      if decide (k' = k) then (k, v) :: d' else (k', v') :: dict_set d' k v
  end.

(** [d.update(a)] *)
Definition dict_update (d a : dict) : dict :=
  fold_left (fun acc kv => dict_set acc kv.1 kv.2) a d.

Definition dict_values (d : dict) : list value := map snd d.
Definition dict_has (d : dict) (k : string) : bool :=
  bool_decide (is_Some (dict_get d k)).

(** Python's [==]: dictionaries and sets compare regardless of order. *)
Fixpoint py_eqb (a b : value) {struct a} : bool :=
  match a, b with
  | VLinkType x, VLinkType y => bool_decide (x = y)
  | VLayerType x, VLayerType y => bool_decide (x = y)
  | VStr x, VStr y => bool_decide (x = y)
  | VFloat x, VFloat y => bool_decide (x = y)
  | VTuple a1 a2, VTuple b1 b2 => py_eqb a1 b1 && py_eqb a2 b2
  | VSet xs, VSet ys =>
      forallb (fun x => existsb (fun y => py_eqb x y) ys) xs
      && (length ys <=? length xs)%nat
  | VDict d, VDict e =>
      forallb (fun kv => match dict_get e kv.1 with
                         | Some w => py_eqb kv.2 w
                         | None => false
                         end) d
      && (length e =? length d)%nat
  | _, _ => false
  end.

Definition dict_eqb (d e : dict) : bool := py_eqb (VDict d) (VDict e).

(** Truth value of a Python object ([bool(x)]). *)
Definition truthy_list {A} (l : list A) : bool :=
  match l with [] => false | _ => true end.
Definition truthy_float (z : Z) : bool := negb (z =? 0).

(** Only immutable values can be members of a set. *)
Fixpoint hashable (v : value) : bool :=
  match v with
  | VSet _ | VDict _ => false
  | VTuple a b => hashable a && hashable b
  | _ => true
  end.

(** The exceptions that occur; all of them derive from [Exception]. *)
Inductive exn :=
| AttributeError (name : string)
| TypeError (msg : string)
| KeyError (key : string)
| ValueError (msg : string)
| NetworkXError (msg : string)
| NodeNotFound (msg : string)
| NetworkXNoPath (msg : string)
| ProbeError (msg : string).

Inductive result (A : Type) :=
| Ok (a : A)
| Err (e : exn).
Arguments Ok {A} a.
Arguments Err {A} e.

(** [v[k]] for a string key [k] *)
Definition getitem (v : value) (k : string) : result value :=
  match v with
  | VDict d =>
      match dict_get d k with
      | Some x => Ok x
      | None => Err (KeyError k)
      end
  | VStr _ => Err (TypeError "string indices must be integers")
  | VTuple _ _ => Err (TypeError "tuple indices must be integers or slices")
  | _ => Err (TypeError "object is not subscriptable")
  end.

(** [s.add(x)] on the member list of a set *)
Definition set_add (s : list value) (x : value) : result (list value) :=
  if hashable x then
    Ok (if existsb (py_eqb x) s then s else s ++ [x])
  else Err (TypeError "unhashable type").

(** ** State and exception monad

    A computation runs in a state [S]; it returns a value or raises,
    and in both cases leaves the state it reached: what was mutated
    before a [raise] stays mutated. *)
Inductive outcome (S A : Type) :=
| Ret (a : A) (s : S)
| Raise (e : exn) (s : S).
Arguments Ret {S A} a s.
Arguments Raise {S A} e s.

Definition M (S A : Type) := S -> outcome S A.

Definition ret {S A} (a : A) : M S A := fun s => Ret a s.
Definition raise {S A} (e : exn) : M S A := fun s => Raise e s.
Definition bind {S A B} (m : M S A) (k : A -> M S B) : M S B :=
  fun s => match m s with
           | Ret a s' => k a s'
           | Raise e s' => Raise e s'
           end.
Definition get {S} : M S S := fun s => Ret s s.
Definition modify {S} (f : S -> S) : M S unit := fun s => Ret tt (f s).
Definition lift {S A} (r : result A) : M S A :=
  match r with Ok a => ret a | Err e => raise e end.

(** [try: m  except Exception as e: h e] *)
Definition try_except {S A} (m : M S A) (h : exn -> M S A) : M S A :=
  fun s => match m s with
           | Ret a s' => Ret a s'
           | Raise e s' => h e s'
           end.

(** [for x in l: body x] *)
Fixpoint for_each {S A} (l : list A) (body : A -> M S unit) : M S unit :=
  match l with
  | [] => ret tt
  | x :: l' => bind (body x) (fun _ => for_each l' body)
  end.

Definition final_state {S A} (o : outcome S A) : S :=
  match o with Ret _ s => s | Raise _ s => s end.

End Py.
Export Py.

Declare Scope py_scope.
Delimit Scope py_scope with py.
Notation "x <~ m ;; k" := (bind m (fun x => k))
  (at level 100, m at next level, k at level 200, right associativity)
  : py_scope.
Notation "'run' m ;; k" := (bind m (fun _ => k))
  (at level 100, m at next level, k at level 200, right associativity)
  : py_scope.
Open Scope py_scope.

(* ===================================================================== *)
(** * The networkx [Graph] class                                          *)
(* ===================================================================== *)

(** An undirected graph without parallel edges. [networkx] keeps a node
    dictionary and, per node, an adjacency dictionary, all in insertion
    order; the two adjacency entries of an edge share one attribute
    dictionary. The model keeps the node dictionary and the edges in the
    order of their creation, one attribute dictionary per unordered node
    pair; the adjacency dictionary of a node is then the sub-list of the
    edges that touch it. *)
Module NX.

Definition Node := string.

Record Graph := mkGraph {
  g_node : list (Node * dict);
  g_edge : list (Node * Node * dict)
}.

Definition empty : Graph := mkGraph [] [].

(** [G.clear()] *)
Definition clear (G : Graph) : Graph := empty.

(** [G.nodes()], [n in G] *)
Definition nodes (G : Graph) : list Node := map fst (g_node G).
Definition has_node (G : Graph) (n : Node) : bool := bool_decide (n ∈ nodes G).

(** Does the stored edge [e] join [u] and [v], in either direction? *)
Definition joins (u v : Node) (e : Node * Node * dict) : bool :=
  bool_decide (e.1.1 = u ∧ e.1.2 = v) || bool_decide (e.1.1 = v ∧ e.1.2 = u).

(** [G.get_edge_data(u, v)], [None] when there is no such edge *)
Definition get_edge_data (G : Graph) (u v : Node) : option dict :=
  snd <$> find (joins u v) (g_edge G).

Definition has_edge (G : Graph) (u v : Node) : bool :=
  bool_decide (is_Some (get_edge_data G u v)).

(** [G.add_node(n, **attr)]: a new node is appended, an existing node
    has its attributes updated. *)
Fixpoint update_node (l : list (Node * dict)) (n : Node) (attr : dict)
  : list (Node * dict) :=
  match l with
  | [] => [(n, dict_update [] attr)]
  | (m, d) :: l' =>
      if decide (m = n) then (m, dict_update d attr) :: l'
      else (m, d) :: update_node l' n attr
  end.

Definition add_node (G : Graph) (n : Node) (attr : dict) : Graph :=
  mkGraph (update_node (g_node G) n attr) (g_edge G).

(** The edge part of [G.add_edge(u, v, **attr)]: the attribute dictionary
    of an existing edge is updated in place, a new edge is appended. *)
Fixpoint update_edge (l : list (Node * Node * dict)) (u v : Node) (attr : dict)
  : list (Node * Node * dict) :=
  match l with
  | [] => [(u, v, dict_update [] attr)]
  | e :: l' =>
      if joins u v e then (e.1, dict_update e.2 attr) :: l'
      else e :: update_edge l' u v attr
  end.

(** [G.add_edge(u, v, **attr)]: missing end points are created first. *)
Definition add_edge (G : Graph) (u v : Node) (attr : dict) : Graph :=
  let G1 := add_node G u [] in
  let G2 := add_node G1 v [] in
  mkGraph (g_node G2) (update_edge (g_edge G2) u v attr).

(** [G.remove_edge(u, v)] raises when the edge is absent. *)
Definition remove_edge (G : Graph) (u v : Node) : result Graph :=
  if has_edge G u v then
    Ok (mkGraph (g_node G) (filter (fun e => joins u v e = false) (g_edge G)))
  else Err (NetworkXError "The edge is not in the graph").

(** [G.add_nodes_from(l)], [G.add_edges_from(l)] for lists with data *)
Definition add_nodes_from (G : Graph) (l : list (Node * dict)) : Graph :=
  fold_left (fun g nd => add_node g nd.1 nd.2) l G.
Definition add_edges_from (G : Graph) (l : list (Node * Node * dict)) : Graph :=
  fold_left (fun g e => add_edge g e.1.1 e.1.2 e.2) l G.

(** [G[n].items()]: the neighbours of [n] with the edge attributes, in
    the order in which the edges at [n] were created. *)
Definition adj (G : Graph) (n : Node) : list (Node * dict) :=
  omap (fun e : Node * Node * dict =>
          if decide (e.1.1 = n) then Some (e.1.2, e.2)
          else if decide (e.1.2 = n) then Some (e.1.1, e.2)
          else None) (g_edge G).

Definition neighbors (G : Graph) (n : Node) : list Node := map fst (adj G n).

(** [G.edges(data=True)]: nodes in order, each with its neighbours that
    have not been completed yet, so every edge is reported once, its first
    component being the end point that comes first in the node order. *)
Fixpoint edges_from (G : Graph) (ns seen : list Node)
  : list (Node * Node * dict) :=
  match ns with
  | [] => []
  | n :: ns' =>
      map (fun nd : Node * dict => (n, nd.1, nd.2))
          (filter (fun nd : Node * dict => nd.1 ∉ seen) (adj G n))
      ++ edges_from G ns' (n :: seen)
  end.

Definition edges_data (G : Graph) : list (Node * Node * dict) :=
  edges_from G (nodes G) [].

(** [G.edges()] *)
Definition edges (G : Graph) : list (Node * Node) := map fst (edges_data G).

(** [G.copy()]: a new graph that receives the nodes, then every
    adjacency entry as an edge, with copies of the dictionaries. *)
Definition adjacency_triples (G : Graph) : list (Node * Node * dict) :=
  flat_map (fun n => map (fun nd : Node * dict => (n, nd.1, nd.2)) (adj G n))
           (nodes G).

Definition copy (G : Graph) : Graph :=
  add_edges_from (add_nodes_from empty (g_node G)) (adjacency_triples G).

(** ** Path algorithms *)

(** The depth-first enumeration behind [nx.all_simple_paths]: [visited]
    is the path so far (ending in [cur]), [cutoff] the number of edges
    that may still be added, [targets] the set of targets. A child that
    is a target ends a path; the search goes on through a child as long as
    some target is not on the path yet. *)
Fixpoint simple_paths_dfs (G : Graph) (cutoff : nat) (visited : list Node)
    (cur : Node) (targets : list Node) : list (list Node) :=
  match cutoff with
  | O => []
  | S c =>
      flat_map (fun child =>
                  if decide (child ∈ visited) then []
                  else
                    (if decide (child ∈ targets) then [visited ++ [child]]
                     else [])
                    ++ (if decide (Forall (fun t => t ∈ visited ++ [child])
                                          targets)
                        then []
                        else simple_paths_dfs G c (visited ++ [child]) child
                                              targets))
               (neighbors G cur)
  end.

(** [set(s)] for a string [s]: its characters, as strings *)
Definition string_chars (s : string) : list Node :=
  remove_dups (map (fun c => String c EmptyString) (String.list_ascii_of_string s)).

(** [nx.all_simple_paths(G, source, target)] with the default cutoff
    [len(G) - 1], as in networkx 3.2 and later. An absent source raises
    [NodeNotFound]; a target that is not a node is taken as a collection of
    targets, which for a string are its characters; a source that is a
    target gives the path of that node alone. *)
Definition all_simple_paths (G : Graph) (source target : Node)
  : result (list (list Node)) :=
  if negb (has_node G source) then Err (NodeNotFound "source node not in graph")
  else
    let targets := if has_node G target then [target]
                   else string_chars target in
    Ok ((if decide (source ∈ targets) then [[source]] else [])
        ++ (if decide (Forall (fun t => t ∈ [source]) targets) then []
            else simple_paths_dfs G (length (nodes G) - 1)%nat
                                  [source] source targets)).

(** The first of the shortest lists of [l] *)
Fixpoint shortest (l : list (list Node)) : option (list Node) :=
  match l with
  | [] => None
  | p :: l' =>
      match shortest l' with
      | Some q => if (length q <? length p)%nat then Some q else Some p
      | None => Some p
      end
  end.

(** [nx.shortest_path(G, source, target)] (unweighted): a path with the
    fewest edges. [NodeNotFound] when an end point is absent from the
    graph, [NetworkXNoPath] when they are not connected. Which of several
    shortest paths the library returns is not modelled. *)
Definition shortest_path (G : Graph) (source target : Node)
  : result (list Node) :=
  if negb (has_node G source) || negb (has_node G target) then
    Err (NodeNotFound "Either source or target is not in G")
  else if decide (source = target) then Ok [source]
  else match shortest (simple_paths_dfs G (length (nodes G) - 1)%nat
                                        [source] source [target]) with
       | Some p => Ok p
       | None => Err (NetworkXNoPath "No path between source and target")
       end.

(** [nx.has_path(G, u, v)] for nodes of [G] *)
Definition has_path (G : Graph) (u v : Node) : bool :=
  bool_decide (u = v)
  || negb (bool_decide
             (simple_paths_dfs G (length (nodes G) - 1)%nat [u] u [v] = [])).

(** The graph without the edge between [u] and [v] *)
Definition without_edge (G : Graph) (u v : Node) : Graph :=
  mkGraph (g_node G) (filter (fun e => joins u v e = false) (g_edge G)).

(** [nx.bridges(G)]: the edges whose removal separates their end points
    (equivalently, the edges on no cycle), in the order of [G.edges()].
    The library computes them by a chain decomposition; the model states
    the documented result. *)
Definition bridges (G : Graph) : list (Node * Node) :=
  filter (fun e : Node * Node => has_path (without_edge G e.1 e.2) e.1 e.2 = false)
         (edges G).

End NX.

(* ===================================================================== *)
(** * The topology manager                                                *)
(* ===================================================================== *)

Abbreviation Node := NX.Node.
Abbreviation Graph := NX.Graph.

(** The two data classes. The manager reads [device_ip] of a node and
    nothing else of either. *)
Record NetworkLink := mkNetworkLink {
  source_device : string;
  target_device : string;
  source_interface : string;
  target_interface : string;
  link_type : LinkType;
  layer : LayerType;
  speed : Z;
  status : string;
  vlan : option Z;
  lag_id : option string;
  metrics : option dict
}.

Record TopologyNode := mkTopologyNode {
  device_ip : string;
  device_name : string;
  device_type : string;
  location : string;
  interfaces : list (string * dict);
  neighbors : list (string * NetworkLink);
  vlans : option (list Z);
  routes : option (list dict)
}.

(** One entry of ['modified_links'] *)
Record ModifiedLink := mkModifiedLink {
  ml_edge : Node * Node;
  ml_previous : option dict;
  ml_current : option dict
}.

(** The [changes] dictionary of [_detect_topology_changes] *)
Record Changes := mkChanges {
  timestamp : Z;
  added_nodes : list Node;
  removed_nodes : list Node;
  added_links : list (Node * Node);
  removed_links : list (Node * Node);
  modified_links : list ModifiedLink
}.

(** The attributes of a [TopologyManager] object *)
Record TopologyManager := mkTopologyManager {
  config : list (string * Z);
  topology : Graph;
  layer2_topology : Graph;
  layer3_topology : Graph;
  nodes : list (string * TopologyNode);
  history : list Changes;
  last_update : Z;
  update_interval : Z
}.

Inductive LogRecord :=
| LogError (msg : string) (e : option exn)
| LogInfo (msg : string) (c : Changes).

(** What a method call can observe and change: the manager object, the
    number of clock readings taken so far, and the log. *)
Record World := mkWorld {
  self : TopologyManager;
  ticks : nat;
  log : list LogRecord
}.

(** A record returned by a probe: a dictionary from strings to strings. *)
Definition pdict := list (string * string).

Fixpoint pget (d : pdict) (k : string) : result string :=
  match d with
  | [] => Err (KeyError k)
  | (k', v) :: d' => if decide (k' = k) then Ok v else pget d' k
  end.

(** What the manager takes from outside: the clock ([clock i] is the
    value of the [i]-th call of [time.time()]) and the four probes, each
    of which returns a list of records for a device, or raises. *)
Record Environment := mkEnvironment {
  clock : nat -> Z;
  _get_lldp_neighbors : TopologyNode -> result (list pdict);
  _get_cdp_neighbors : TopologyNode -> result (list pdict);
  _get_stp_info : TopologyNode -> result (list pdict);
  _get_routing_table : TopologyNode -> result (list pdict)
}.

(** The probes as the class defines them: they return the empty list. *)
Definition stub_environment (clk : nat -> Z) : Environment :=
  mkEnvironment clk (fun _ => Ok []) (fun _ => Ok []) (fun _ => Ok [])
                (fun _ => Ok []).

(** [config.get(key, default)] *)
Fixpoint config_get (c : list (string * Z)) (key : string) (default : Z) : Z :=
  match c with
  | [] => default
  | (k, v) :: c' => if decide (k = key) then v else config_get c' key default
  end.

(** [TopologyManager.__init__] *)
Definition __init__ (cfg : list (string * Z)) : TopologyManager :=
  mkTopologyManager cfg NX.empty NX.empty NX.empty [] [] 0
                    (config_get cfg "update_interval" 3600).

Definition set_topology (g : Graph) (s : TopologyManager) :=
  mkTopologyManager (config s) g (layer2_topology s) (layer3_topology s)
    (nodes s) (history s) (last_update s) (update_interval s).
Definition set_layer2_topology (g : Graph) (s : TopologyManager) :=
  mkTopologyManager (config s) (topology s) g (layer3_topology s)
    (nodes s) (history s) (last_update s) (update_interval s).
Definition set_layer3_topology (g : Graph) (s : TopologyManager) :=
  mkTopologyManager (config s) (topology s) (layer2_topology s) g
    (nodes s) (history s) (last_update s) (update_interval s).
Definition set_history (h : list Changes) (s : TopologyManager) :=
  mkTopologyManager (config s) (topology s) (layer2_topology s)
    (layer3_topology s) (nodes s) h (last_update s) (update_interval s).
Definition set_last_update (t : Z) (s : TopologyManager) :=
  mkTopologyManager (config s) (topology s) (layer2_topology s)
    (layer3_topology s) (nodes s) (history s) t (update_interval s).

Definition on_self (f : TopologyManager -> TopologyManager) : M World unit :=
  modify (fun w => mkWorld (f (self w)) (ticks w) (log w)).
Definition get_self : M World TopologyManager :=
  fun w => Ret (self w) w.

(** [logger.error(...)], [logger.info(...)] *)
Definition logger_error (msg : string) (e : option exn) : M World unit :=
  modify (fun w => mkWorld (self w) (ticks w) (log w ++ [LogError msg e])).
Definition logger_info (msg : string) (c : Changes) : M World unit :=
  modify (fun w => mkWorld (self w) (ticks w) (log w ++ [LogInfo msg c])).

(** [except nx.NetworkXNoPath] *)
Definition is_NetworkXNoPath (e : exn) : bool :=
  match e with NetworkXNoPath _ => true | _ => false end.

(** [try: m  except C as e: h e] for one exception class [C] *)
Definition try_except_class {A} (m : M World A) (is_C : exn -> bool)
    (h : exn -> M World A) : M World A :=
  fun w => match m w with
           | Ret a w' => Ret a w'
           | Raise e w' => if is_C e then h e w' else Raise e w'
           end.

Section Manager.

Context (env : Environment).

(** [time.time()] *)
Definition time_time : M World Z :=
  fun w => Ret (clock env (ticks w)) (mkWorld (self w) (S (ticks w)) (log w)).

(** The dictionary [link_data] of [_add_link] *)
Definition make_link_data (link_type : LinkType) (layer : LayerType)
    (source_interface target_interface : string) (now : Z) (kwargs : dict)
  : dict :=
  dict_update [("link_type", VLinkType link_type);
               ("layer", VLayerType layer);
               ("source_interface", VStr source_interface);
               ("target_interface", VStr target_interface);
               ("timestamp", VFloat now)] kwargs.

Definition _add_link (source target : Node) (link_type : LinkType)
    (layer : LayerType) (source_interface target_interface : string)
    (kwargs : dict) : M World unit :=
  now <~ time_time ;;
  let link_data :=
    make_link_data link_type layer source_interface target_interface now kwargs in
  match layer with
  | L2 => on_self (fun s => set_layer2_topology
                     (NX.add_edge (layer2_topology s) source target link_data) s)
  | L3 => on_self (fun s => set_layer3_topology
                     (NX.add_edge (layer3_topology s) source target link_data) s)
  | L4 => ret tt
  end.

(** A discovery loop over the devices: the records of a device are read
    by [probe] and handed to [body] one by one; an exception for a device
    is logged and the loop goes on with the next device. *)
Definition per_device (probe : TopologyNode -> result (list pdict))
    (body : TopologyNode -> pdict -> M World unit) (msg : string)
  : M World unit :=
  s <~ get_self ;;
  for_each (map snd (nodes s)) (fun device =>
    try_except
      (records <~ lift (probe device) ;;
       for_each records (body device))
      (fun e => logger_error (String.append msg (device_ip device)) (Some e))).

Definition add_neighbor (device : TopologyNode) (neighbor : pdict)
  : M World unit :=
  target <~ lift (pget neighbor "remote_ip") ;;
  source_interface <~ lift (pget neighbor "local_interface") ;;
  target_interface <~ lift (pget neighbor "remote_interface") ;;
  _add_link (device_ip device) target PHYSICAL L2
            source_interface target_interface [].

Definition _discover_lldp_topology : M World unit :=
  per_device (_get_lldp_neighbors env) add_neighbor
             "Error discovering LLDP topology for ".

Definition _discover_cdp_topology : M World unit :=
  per_device (_get_cdp_neighbors env) add_neighbor
             "Error discovering CDP topology for ".

Definition _discover_stp_topology : M World unit :=
  per_device (_get_stp_info env)
    (fun device port_info =>
       state <~ lift (pget port_info "state") ;;
       if decide (state = "forwarding") then
         target <~ lift (pget port_info "neighbor_bridge") ;;
         source_interface <~ lift (pget port_info "local_port") ;;
         target_interface <~ lift (pget port_info "remote_port") ;;
         _add_link (device_ip device) target PHYSICAL L2
                   source_interface target_interface []
       else ret tt)
    "Error discovering STP topology for ".

Definition _discover_routing_topology : M World unit :=
  per_device (_get_routing_table env)
    (fun device route =>
       type <~ lift (pget route "type") ;;
       if decide (type = "connected") then
         target <~ lift (pget route "network") ;;
         source_interface <~ lift (pget route "interface") ;;
         _add_link (device_ip device) target LOGICAL L3
                   source_interface "N/A" []
       else ret tt)
    "Error discovering routing topology for ".

(** The class has no method [_discover_mac_topology]; looking it up
    raises [AttributeError]. *)
Definition _discover_layer2_topology : M World unit :=
  try_except
    (run _discover_lldp_topology ;;
     run _discover_cdp_topology ;;
     run _discover_stp_topology ;;
     raise (AttributeError "_discover_mac_topology"))
    (fun e => logger_error "Error discovering Layer 2 topology" (Some e)).

(** Nor has it [_discover_arp_topology]; the OSPF and BGP calls after it
    are never reached. *)
Definition _discover_layer3_topology : M World unit :=
  try_except
    (run _discover_routing_topology ;;
     raise (AttributeError "_discover_arp_topology"))
    (fun e => logger_error "Error discovering Layer 3 topology" (Some e)).

(** The accumulator of [_merge_edge_data]: the dictionary [merged] *)
Record Merged := mkMerged {
  m_link_types : list value;
  m_layers : list value;
  m_interfaces : list value;
  m_metrics : dict
}.

Definition merged_dict (m : Merged) : dict :=
  [("link_types", VSet (m_link_types m)); ("layers", VSet (m_layers m));
   ("interfaces", VSet (m_interfaces m)); ("metrics", VDict (m_metrics m))].

Definition rbind {A B} (r : result A) (k : A -> result B) : result B :=
  match r with Ok a => k a | Err e => Err e end.

(** The body of the loop of [_merge_edge_data] for one value [edge] of
    the dictionary it is given *)
Definition merge_one (m : Merged) (edge : value) : result Merged :=
  rbind (getitem edge "link_type") (fun lt =>
  rbind (set_add (m_link_types m) lt) (fun lts =>
  rbind (getitem edge "layer") (fun ly =>
  rbind (set_add (m_layers m) ly) (fun lys =>
  rbind (getitem edge "source_interface") (fun si =>
  rbind (getitem edge "target_interface") (fun ti =>
  rbind (set_add (m_interfaces m) (VTuple si ti)) (fun ifs =>
  match edge with
  | VDict d =>
      match dict_get d "metrics" with
      | Some (VDict em) =>
          Ok (mkMerged lts lys ifs (dict_update (m_metrics m) em))
      | Some _ => Err (TypeError "object is not iterable")
      | None => Ok (mkMerged lts lys ifs (m_metrics m))
      end
  | _ => Err (TypeError "argument is not iterable")
  end))))))).

Fixpoint merge_all (m : Merged) (vs : list value) : result Merged :=
  match vs with
  | [] => Ok m
  | edge :: vs' => rbind (merge_one m edge) (fun m' => merge_all m' vs')
  end.

Definition _merge_edge_data (edges : dict) : result dict :=
  rbind (merge_all (mkMerged [] [] [] []) (dict_values edges))
        (fun m => Ok (merged_dict m)).

(** The first loop of [_merge_duplicate_links]: the edges whose
    [get_edge_data] has more than one entry. *)
Fixpoint duplicate_edges (G : Graph) (es : list (Node * Node * dict))
  : result (list (Node * Node)) :=
  match es with
  | [] => Ok []
  | e :: es' =>
      match NX.get_edge_data G e.1.1 e.1.2 with
      | None => Err (TypeError "object of type 'NoneType' has no len()")
      | Some edges =>
          rbind (duplicate_edges G es') (fun r =>
            Ok (if (1 <? length edges)%nat then (e.1.1, e.1.2) :: r else r))
      end
  end.

(** The body of its second loop *)
Definition merge_duplicate (st : Node * Node) : M World unit :=
  s <~ get_self ;;
  match NX.get_edge_data (topology s) st.1 st.2 with
  | None => raise (AttributeError "values")
  | Some edges =>
      merged_data <~ lift (_merge_edge_data edges) ;;
      g <~ lift (NX.remove_edge (topology s) st.1 st.2) ;;
      on_self (set_topology (NX.add_edge g st.1 st.2 merged_data))
  end.

Definition _merge_duplicate_links : M World unit :=
  s <~ get_self ;;
  dups <~ lift (duplicate_edges (topology s) (NX.edges_data (topology s))) ;;
  for_each dups merge_duplicate.

Definition _merge_topologies : M World unit :=
  try_except
    (run on_self (fun s => set_topology
       (NX.add_nodes_from (topology s) (NX.g_node (layer2_topology s))) s) ;;
     run on_self (fun s => set_topology
       (NX.add_edges_from (topology s) (NX.edges_data (layer2_topology s))) s) ;;
     run on_self (fun s => set_topology
       (NX.add_nodes_from (topology s) (NX.g_node (layer3_topology s))) s) ;;
     run on_self (fun s => set_topology
       (NX.add_edges_from (topology s) (NX.edges_data (layer3_topology s))) s) ;;
     _merge_duplicate_links)
    (fun e => logger_error "Error merging topologies" (Some e)).

(** [current_data != previous_data] on results of [get_edge_data] *)
Definition data_neqb (a b : option dict) : bool :=
  match a, b with
  | Some d, Some e => negb (dict_eqb d e)
  | None, None => false
  | _, _ => true
  end.

(** [any(changes.values())]: the time stamp is one of the values. *)
Definition any_changes (c : Changes) : bool :=
  truthy_float (timestamp c)
  || truthy_list (added_nodes c) || truthy_list (removed_nodes c)
  || truthy_list (added_links c) || truthy_list (removed_links c)
  || truthy_list (modified_links c).

(** The record [_detect_topology_changes] builds. Python sets are finite
    sets; [list(s)] enumerates a set in the order of [elements]. *)
Definition compute_changes (now : Z) (current previous : Graph) : Changes :=
  let current_nodes : gset Node := list_to_set (NX.nodes current) in
  let previous_nodes : gset Node := list_to_set (NX.nodes previous) in
  let current_edges : gset (Node * Node) := list_to_set (NX.edges current) in
  let previous_edges : gset (Node * Node) := list_to_set (NX.edges previous) in
  let common_edges := current_edges ∩ previous_edges in
  mkChanges now
    (elements (current_nodes ∖ previous_nodes))
    (elements (previous_nodes ∖ current_nodes))
    (elements (current_edges ∖ previous_edges))
    (elements (previous_edges ∖ current_edges))
    (omap (fun edge : Node * Node =>
             let current_data := NX.get_edge_data current edge.1 edge.2 in
             let previous_data := NX.get_edge_data previous edge.1 edge.2 in
             if data_neqb current_data previous_data
             then Some (mkModifiedLink edge previous_data current_data)
             else None)
          (elements common_edges)).

Definition _detect_topology_changes (previous_topology : Graph)
  : M World unit :=
  try_except
    (now <~ time_time ;;
     s <~ get_self ;;
     let changes := compute_changes now (topology s) previous_topology in
     if any_changes changes then
       run on_self (fun s => set_history (history s ++ [changes]) s) ;;
       logger_info "Topology changes detected" changes
     else ret tt)
    (fun e => logger_error "Error detecting topology changes" (Some e)).

(** The body of [update_topology], with the four build steps it calls on
    [self] as parameters. *)
Definition update_topology_with
    (discover_layer2 discover_layer3 merge : M World unit)
    (detect_changes : Graph -> M World unit) : M World Graph :=
  current_time <~ time_time ;;
  s <~ get_self ;;
  if decide (current_time - last_update s < update_interval s) then
    ret (topology s)
  else
    try_except
      (let previous_topology := NX.copy (topology s) in
       run on_self (fun s => set_topology (NX.clear (topology s)) s) ;;
       run on_self (fun s => set_layer2_topology (NX.clear (layer2_topology s)) s) ;;
       run on_self (fun s => set_layer3_topology (NX.clear (layer3_topology s)) s) ;;
       run discover_layer2 ;;
       run discover_layer3 ;;
       run merge ;;
       run detect_changes previous_topology ;;
       run on_self (set_last_update current_time) ;;
       s' <~ get_self ;;
       ret (topology s'))
      (fun e =>
         run logger_error "Error updating topology" (Some e) ;;
         s' <~ get_self ;;
         ret (topology s')).

Definition update_topology : M World Graph :=
  update_topology_with _discover_layer2_topology _discover_layer3_topology
                       _merge_topologies _detect_topology_changes.

Definition get_path (source target : Node) : M World (list Node) :=
  try_except_class
    (s <~ get_self ;; lift (NX.shortest_path (topology s) source target))
    is_NetworkXNoPath
    (fun _ => run logger_error "No path found" None ;; ret []).

Definition get_redundant_paths (source target : Node)
  : M World (list (list Node)) :=
  try_except
    (s <~ get_self ;; lift (NX.all_simple_paths (topology s) source target))
    (fun e => run logger_error "Error finding redundant paths" (Some e) ;;
              ret []).

Definition get_critical_links : M World (list (Node * Node)) :=
  try_except
    (s <~ get_self ;; ret (NX.bridges (topology s)))
    (fun e => run logger_error "Error finding critical links" (Some e) ;;
              ret []).

Definition get_topology_changes (start_time end_time : Z)
  : M World (list Changes) :=
  s <~ get_self ;;
  ret (filter (fun change => start_time <= timestamp change <= end_time)
              (history s)).

(** What [export_topology] returns: the node-link data of
    [nx.node_link_data], the generator of [nx.generate_graphml] over the
    graph, or [None]. *)
Inductive Exported :=
| NodeLinkData (nodes : list (Node * dict)) (links : list (Node * Node * dict))
| GraphML (G : Graph)
| PyNone.

Definition export_topology (format : string) : M World Exported :=
  try_except
    (s <~ get_self ;;
     if decide (format = "json") then
       ret (NodeLinkData (NX.g_node (topology s)) (NX.edges_data (topology s)))
     else if decide (format = "graphml") then
       ret (GraphML (topology s))
     else raise (ValueError (String.append "Unsupported export format: " format)))
    (fun e => run logger_error "Error exporting topology" (Some e) ;;
              ret PyNone).

End Manager.

(* ===================================================================== *)
(** * Auxiliary definitions for the verification                          *)
(* ===================================================================== *)

(** The world after one reading of the clock *)
Definition tick (w : World) : World := mkWorld (self w) (S (ticks w)) (log w).

Definition with_topology (g : Graph) (w : World) : World :=
  mkWorld (set_topology g (self w)) (ticks w) (log w).

(** The world once [update_topology] has emptied the three graphs *)
Definition cleared (w : World) : World :=
  mkWorld (set_layer3_topology NX.empty
             (set_layer2_topology NX.empty (set_topology NX.empty (self w))))
          (ticks w) (log w).

(** Discovery and merge, the part of a cycle that builds the graph *)
Definition rebuild (env : Environment) : M World unit :=
  run _discover_layer2_topology env ;;
  run _discover_layer3_topology env ;;
  _merge_topologies.

(** A value is well formed when the keys of its dictionaries are
    pairwise distinct, as they are in every Python dictionary. *)
Fixpoint well_formed (v : value) : bool :=
  match v with
  | VTuple a b => well_formed a && well_formed b
  | VSet xs => forallb well_formed xs
  | VDict d => bool_decide (NoDup (map fst d))
               && forallb (fun kv => well_formed kv.2) d
  | _ => true
  end.

Definition well_formed_data (G : Graph) : Prop :=
  Forall (fun e : Node * Node * dict => well_formed (VDict e.2) = true)
         (NX.g_edge G).

(** A raw link record, and its insertion: [_add_link] with the six
    arguments the discovery loops pass (they pass no further keyword
    arguments). *)
Definition observed_link (source target : Node) (lt : LinkType)
    (ly : LayerType) (source_if target_if : string) : NetworkLink :=
  mkNetworkLink source target source_if target_if lt ly 0 "up" None None None.

Definition add_link_record (env : Environment) (r : NetworkLink)
  : M World unit :=
  _add_link env (source_device r) (target_device r) (link_type r) (layer r)
            (source_interface r) (target_interface r) [].

(** The unified graph built from a list of raw records: the records are
    inserted one after the other into emptied graphs, then merged. *)
Definition build_unified (env : Environment) (records : list NetworkLink)
  : M World unit :=
  run for_each records (add_link_record env) ;;
  _merge_topologies.

Definition unified (env : Environment) (records : list NetworkLink)
    (w : World) : Graph :=
  topology (self (final_state (build_unified env records (cleared w)))).

(** An attribute dictionary without its insertion time stamp *)
Definition without_timestamp (d : dict) : dict :=
  filter (fun kv : string * value => kv.1 <> "timestamp") d.

(** Do two records target the same layer and the same unordered node
    pair? *)
Definition same_link (r1 r2 : NetworkLink) : Prop :=
  layer r1 = layer r2
  /\ ((source_device r1 = source_device r2 /\ target_device r1 = target_device r2)
      \/ (source_device r1 = target_device r2 /\ target_device r1 = source_device r2)).

(** ** Keys, well-formed graphs *)

(** The unordered pair of [a] and [b], as an ordered one *)
Definition ukey (a b : Node) : Node * Node :=
  if String.leb a b then (a, b) else (b, a).

Definition ekey (e : Node * Node * dict) : Node * Node := ukey e.1.1 e.1.2.

(** The graphs that [add_node] and [add_edge] build: no node and no
    unordered pair twice, and the end points of every edge are nodes. *)
Definition wf_graph (G : Graph) : Prop :=
  NoDup (NX.nodes G)
  /\ NoDup (map ekey (NX.g_edge G))
  /\ Forall (fun e : Node * Node * dict =>
               e.1.1 ∈ NX.nodes G /\ e.1.2 ∈ NX.nodes G) (NX.g_edge G).

(** Layer and unordered node pair of a record *)
Definition link_key (r : NetworkLink) : LayerType * (Node * Node) :=
  (layer r, ukey (source_device r) (target_device r)).

Definition link_data (r : NetworkLink) (now : Z) : dict :=
  make_link_data (link_type r) (layer r) (source_interface r)
                 (target_interface r) now [].

Definition is_link_data (d : dict) : Prop :=
  exists r now, d = link_data r now.

(** A graph all of whose edges carry the dictionary of one record *)
Definition link_graph (G : Graph) : Prop :=
  forall x y d, NX.get_edge_data G x y = Some d -> is_link_data d.

(** The layer graph after the records [rs] have been inserted, the
    first of them at clock reading number [i] *)
Fixpoint insert_links (clk : nat -> Z) (i : nat) (rs : list NetworkLink)
    (ly : LayerType) (G : Graph) : Graph :=
  match rs with
  | [] => G
  | r :: rs' =>
      insert_links clk (S i) rs' ly
        (if decide (layer r = ly)
         then NX.add_edge G (source_device r) (target_device r)
                          (link_data r (clk i))
         else G)
  end.

(** The attributes the edge between [u] and [v] ends up with: those of
    the last record for it. *)
Fixpoint lookup_link (clk : nat -> Z) (i : nat) (rs : list NetworkLink)
    (ly : LayerType) (u v : Node) (acc : option dict) : option dict :=
  match rs with
  | [] => acc
  | r :: rs' =>
      lookup_link clk (S i) rs' ly u v
        (if decide (link_key r = (ly, ukey u v))
         then Some (link_data r (clk i)) else acc)
  end.

(** The graph [_merge_topologies] builds before it looks for duplicates *)
Definition union_graph (T A B : Graph) : Graph :=
  NX.add_edges_from
    (NX.add_nodes_from
       (NX.add_edges_from (NX.add_nodes_from T (NX.g_node A)) (NX.edges_data A))
       (NX.g_node B))
    (NX.edges_data B).

(** ** Paths *)

(** Consecutive nodes of [p] are neighbours in [G]. *)
Fixpoint walk (G : Graph) (p : list Node) : Prop :=
  match p with
  | a :: (b :: _) as q => b ∈ NX.neighbors G a /\ walk G q
  | _ => True
  end.

(** [p] is a simple path from [s] to [t]: a walk without repeated node *)
Definition simple_path (G : Graph) (s t : Node) (p : list Node) : Prop :=
  walk G p /\ NoDup p /\ head p = Some s /\ last p = Some t.

(** [v] can be reached from [u] along edges of [G]. *)
Definition connected (G : Graph) (u v : Node) : Prop :=
  rtc (fun a b => b ∈ NX.neighbors G a) u v.

(** ... along edges other than the one with key [k]. *)
Definition connected_avoiding (G : Graph) (k : Node * Node) (u v : Node)
  : Prop :=
  rtc (fun a b => b ∈ NX.neighbors G a /\ ukey a b <> k) u v.

(** The consecutive pairs of a list of nodes *)
Fixpoint pairwise (l : list Node) : list (Node * Node) :=
  match l with
  | a :: (b :: _) as q => (a, b) :: pairwise q
  | _ => []
  end.

Definition no_data (ab : Node * Node) : Node * Node * dict := (ab, []).

(** The graph with the nodes [l], then the edges [es], without
    attributes: [G.add_nodes_from(l); G.add_edges_from(es)] *)
Definition graph_of (l : list Node) (es : list (Node * Node)) : Graph :=
  NX.add_edges_from (NX.add_nodes_from NX.empty (map (fun n => (n, [])) l))
                    (map no_data es).

(** [nx.path_graph(l)] and [nx.cycle_graph(l)]: the nodes of [l], joined
    in a row, and for the cycle the last node joined to the first. *)
Definition path_graph (l : list Node) : Graph := graph_of l (pairwise l).

Definition closing_pair (l : list Node) : list (Node * Node) :=
  match last l, head l with
  | Some z, Some a => [(z, a)]
  | _, _ => []
  end.

Definition cycle_graph (l : list Node) : Graph :=
  graph_of l (pairwise l ++ closing_pair l).

(** The complete graph on the nodes of [l] *)
Fixpoint all_pairs (l : list Node) : list (Node * Node) :=
  match l with
  | [] => []
  | a :: q => map (fun b => (a, b)) q ++ all_pairs q
  end.

Definition complete_graph (l : list Node) : Graph := graph_of l (all_pairs l).

(** ** Concrete inputs *)

Definition gating_world : World :=
  mkWorld (mkTopologyManager [] (NX.add_edge NX.empty "A" "B" []) NX.empty
             NX.empty [] [] 1000 3600) 0 [].

Definition device_A : TopologyNode :=
  mkTopologyNode "A" "core-a" "switch" "lab" [] [] None None.

(** A first cycle in which LLDP reports the neighbour B of device A, and
    a second cycle in which every probe fails. *)
Definition lldp_environment : Environment :=
  mkEnvironment (fun n => 4000 + Z.of_nat n)
    (fun _ => Ok [[("remote_ip", "B"); ("local_interface", "eth0");
                   ("remote_interface", "eth1")]])
    (fun _ => Ok []) (fun _ => Ok []) (fun _ => Ok []).

Definition failing_environment : Environment :=
  mkEnvironment (fun n => 8000 + Z.of_nat n)
    (fun _ => Err (ProbeError "timeout")) (fun _ => Err (ProbeError "timeout"))
    (fun _ => Err (ProbeError "timeout")) (fun _ => Err (ProbeError "timeout")).

Definition link_AB_eth0 : NetworkLink :=
  observed_link "A" "B" PHYSICAL L2 "eth0" "eth1".
Definition link_AB_eth2 : NetworkLink :=
  observed_link "A" "B" PHYSICAL L2 "eth2" "eth3".
Definition link_BC_route : NetworkLink :=
  observed_link "B" "C" LOGICAL L3 "eth9" "N/A".

(** A clock that does not advance during a build *)
Definition frozen_environment : Environment :=
  stub_environment (fun _ => 4000).

(** A manager whose configuration asks for bounds, on a complete graph *)
Definition dense_world : World :=
  mkWorld (mkTopologyManager
             [("max_redundant_paths", 2); ("max_path_length", 2)]
             (complete_graph ["A"; "B"; "C"; "D"]) NX.empty NX.empty
             [] [] 0 3600) 0 [].

(** Managers that have published a path and a cycle on four nodes *)
Definition path_world : World :=
  mkWorld (mkTopologyManager [] (path_graph ["a"; "b"; "c"; "d"]) NX.empty
             NX.empty [] [] 0 3600) 0 [].

Definition cycle_world : World :=
  mkWorld (mkTopologyManager [] (cycle_graph ["a"; "b"; "c"; "d"]) NX.empty
             NX.empty [] [] 0 3600) 0 [].

Definition fresh_world : World :=
  mkWorld (mkTopologyManager [] NX.empty NX.empty NX.empty
             [("A", device_A)] [] 0 3600) 0 [].

Definition published_world : World :=
  final_state (update_topology lldp_environment fresh_world).

(* ===================================================================== *)
(** * Further definitions: frames, layer graphs                           *)
(* ===================================================================== *)

(** The computation [m] leaves the component [f] of the manager as it
    is, whether it returns or raises. *)
Definition keeps {A X : Type} (f : TopologyManager -> X) (m : M World A)
  : Prop :=
  forall w, f (self (final_state (m w))) = f (self w).

(** The layer graph [_add_link] files a link of layer [ly] in *)
Definition layer_graph (ly : LayerType) (s : TopologyManager) : Graph :=
  match ly with
  | L2 => layer2_topology s
  | L3 => layer3_topology s
  | L4 => NX.empty
  end.

(** The five keys [_add_link] always sets *)
Definition link_keys : list string :=
  ["link_type"; "layer"; "source_interface"; "target_interface"; "timestamp"].

(** Is the update gate closed in [w]? *)
Definition gated (env : Environment) (w : World) : Prop :=
  clock env (ticks w) - last_update (self w) < update_interval (self w).

(** Two graphs on the same two nodes and the same link, built in
    opposite node order *)
Definition graph_ab : Graph := graph_of ["a"; "b"] [("a", "b")].
Definition graph_ba : Graph := graph_of ["b"; "a"] [("a", "b")].


(** The link of [link_AB_eth0], inserted at clock reading [t] *)
Definition stamped_graph (t : Z) : Graph :=
  NX.add_edge NX.empty "A" "B" (link_data link_AB_eth0 t).

(** The shape [_merge_edge_data] is written for: a dictionary with the
    four link attributes, hashable, and with a dictionary under
    ['metrics'] if that key is present *)
Definition is_edge_record (v : value) : bool :=
  match v with
  | VDict d =>
      match dict_get d "link_type", dict_get d "layer",
            dict_get d "source_interface", dict_get d "target_interface" with
      | Some lt, Some ly, Some si, Some ti =>
          hashable lt && hashable ly && hashable si && hashable ti
          && match dict_get d "metrics" with
             | None | Some (VDict _) => true
             | Some _ => false
             end
      | _, _, _, _ => false
      end
  | _ => false
  end.

(** [x in s] for the member list of a set *)
Definition set_mem (x : value) (s : list value) : bool := existsb (py_eqb x) s.

(** The edge dictionary of a multigraph with two parallel links between
    the same devices *)
Definition parallel_links : dict :=
  [("0", VDict (link_data link_AB_eth0 4000));
   ("1", VDict (link_data link_AB_eth2 4001))].

(** A manager whose three graphs hold links *)
Definition merging_world : World :=
  mkWorld (mkTopologyManager []
             (graph_of ["X"] [])
             (NX.add_edge NX.empty "A" "B" (link_data link_AB_eth0 4000))
             (NX.add_edge NX.empty "B" "C" (link_data link_BC_route 4001))
             [] [] 0 3600) 0 [].


(** ** The discovery loops, read as functions from records to links *)

(** What the body of a loop does with one record of a device: it adds
    a link, skips the record, or raises. *)
Definition parse_neighbor (device : TopologyNode) (neighbor : pdict)
  : result (option NetworkLink) :=
  rbind (pget neighbor "remote_ip") (fun target =>
  rbind (pget neighbor "local_interface") (fun source_if =>
  rbind (pget neighbor "remote_interface") (fun target_if =>
  Ok (Some (observed_link (device_ip device) target PHYSICAL L2
                          source_if target_if))))).

Definition parse_port (device : TopologyNode) (port_info : pdict)
  : result (option NetworkLink) :=
  rbind (pget port_info "state") (fun state =>
  if decide (state = "forwarding") then
    rbind (pget port_info "neighbor_bridge") (fun target =>
    rbind (pget port_info "local_port") (fun source_if =>
    rbind (pget port_info "remote_port") (fun target_if =>
    Ok (Some (observed_link (device_ip device) target PHYSICAL L2
                            source_if target_if)))))
  else Ok None).

Definition parse_route (device : TopologyNode) (route : pdict)
  : result (option NetworkLink) :=
  rbind (pget route "type") (fun type =>
  if decide (type = "connected") then
    rbind (pget route "network") (fun target =>
    rbind (pget route "interface") (fun source_if =>
    Ok (Some (observed_link (device_ip device) target LOGICAL L3
                            source_if "N/A"))))
  else Ok None).

(** The links of the records that come before the first record that
    raises *)
Fixpoint links_until_error (parse : pdict -> result (option NetworkLink))
    (records : list pdict) : list NetworkLink :=
  match records with
  | [] => []
  | r :: rs =>
      match parse r with
      | Ok (Some l) => l :: links_until_error parse rs
      | Ok None => links_until_error parse rs
      | Err _ => []
      end
  end.

(** The links one protocol yields for a device, and for all devices *)
Definition device_links (probe : TopologyNode -> result (list pdict))
    (parse : TopologyNode -> pdict -> result (option NetworkLink))
    (device : TopologyNode) : list NetworkLink :=
  match probe device with
  | Ok records => links_until_error (parse device) records
  | Err _ => []
  end.

Definition protocol_links (probe : TopologyNode -> result (list pdict))
    (parse : TopologyNode -> pdict -> result (option NetworkLink))
    (devices : list TopologyNode) : list NetworkLink :=
  flat_map (device_links probe parse) devices.

Definition layer2_links (env : Environment) (devices : list TopologyNode)
  : list NetworkLink :=
  protocol_links (_get_lldp_neighbors env) parse_neighbor devices
  ++ protocol_links (_get_cdp_neighbors env) parse_neighbor devices
  ++ protocol_links (_get_stp_info env) parse_port devices.

Definition layer3_links (env : Environment) (devices : list TopologyNode)
  : list NetworkLink :=
  protocol_links (_get_routing_table env) parse_route devices.

(** All links of a cycle, in the order of their insertion *)
Definition discovered (env : Environment) (s : TopologyManager)
  : list NetworkLink :=
  layer2_links env (map snd (nodes s)) ++ layer3_links env (map snd (nodes s)).

(** The world once the links [ls] have been inserted, one clock reading
    each, and the records [lg] logged *)
Definition after_links (env : Environment) (ls : list NetworkLink)
    (lg : list LogRecord) (w : World) : World :=
  mkWorld
    (set_layer3_topology
       (insert_links (clock env) (ticks w) ls L3 (layer3_topology (self w)))
       (set_layer2_topology
          (insert_links (clock env) (ticks w) ls L2 (layer2_topology (self w)))
          (self w)))
    (ticks w + length ls) (log w ++ lg).

(** A device table with two devices, and probes of which the LLDP one
    answers for the first device only *)
Definition device_B : TopologyNode :=
  mkTopologyNode "B" "core-b" "switch" "lab" [] [] None None.

Definition two_device_world : World :=
  mkWorld (mkTopologyManager [] NX.empty NX.empty NX.empty
             [("A", device_A); ("B", device_B)] [] 0 3600) 0 [].

Definition partial_environment : Environment :=
  mkEnvironment (fun n => 4000 + Z.of_nat n)
    (fun d => if decide (device_ip d = "A")
              then Ok [[("remote_ip", "C"); ("local_interface", "eth0");
                        ("remote_interface", "eth1")]]
              else Err (ProbeError "timeout"))
    (fun d => if decide (device_ip d = "A") then Ok []
              else Err (ProbeError "timeout"))
    (fun d => if decide (device_ip d = "A") then Ok []
              else Err (ProbeError "timeout"))
    (fun d => if decide (device_ip d = "A")
              then Ok [[("type", "connected"); ("network", "10.0.0.0/24");
                        ("interface", "vlan10")];
                       [("type", "static"); ("network", "0.0.0.0/0");
                        ("interface", "eth9")]]
              else Err (ProbeError "timeout")).

(** The last record of [rs] for a layer and a node pair, with its
    position counted from [p] *)
Fixpoint last_match (rs : list NetworkLink) (ly : LayerType) (u v : Node)
    (p : nat) (acc : option (NetworkLink * nat)) : option (NetworkLink * nat) :=
  match rs with
  | [] => acc
  | r :: rs' =>
      last_match rs' ly u v (S p)
        (if decide (link_key r = (ly, ukey u v)) then Some (r, p) else acc)
  end.

(** Adding the nodes of [l] to the node list [acc], as [add_node] does *)
Definition add_node_names (acc l : list Node) : list Node :=
  fold_left (fun acc n => if decide (n ∈ acc) then acc else acc ++ [n]) l acc.

(** The probes of [partial_environment], with a clock that advances by
    more than an update interval from one reading to the next *)
Definition striding_environment : Environment :=
  mkEnvironment (fun n => 4000 * (Z.of_nat n + 1))
    (_get_lldp_neighbors partial_environment)
    (_get_cdp_neighbors partial_environment)
    (_get_stp_info partial_environment)
    (_get_routing_table partial_environment).

Definition second_cycle_world : World :=
  final_state (update_topology striding_environment two_device_world).

(** The same nodes and the same links, whatever their attributes *)
Definition same_links (G H : Graph) : Prop :=
  (forall x, x ∈ NX.nodes G <-> x ∈ NX.nodes H)
  /\ forall x y, is_Some (NX.get_edge_data G x y)
                 <-> is_Some (NX.get_edge_data H x y).


(** The computation [m] only appends to the log. *)
Definition extends_log {A : Type} (m : M World A) : Prop :=
  forall w, exists l, log (final_state (m w)) = log w ++ l.

(* ===================================================================== *)
(** * The monitoring loop: report schedule ([network_monitor.py])         *)
(* ===================================================================== *)

(** What the schedule reads of [datetime.now()]: the attributes [day],
    [hour], [minute] and the result of [weekday()] (Monday is 0). *)
Record datetime := mkDatetime {
  day : Z;
  hour : Z;
  minute : Z;
  weekday : Z
}.

Definition _should_generate_daily_report (current_time : datetime) : bool :=
  (hour current_time =? 0) && (minute current_time <? 5).

Definition _should_generate_weekly_report (current_time : datetime) : bool :=
  (weekday current_time =? 0) && (hour current_time =? 1)
  && (minute current_time <? 5).

Definition _should_generate_monthly_report (current_time : datetime) : bool :=
  (day current_time =? 1) && (hour current_time =? 2)
  && (minute current_time <? 5).

Section Reports.

(** The state of the monitor, the clock it reads, the three report
    generators of the metrics manager and the logger *)
Context {St : Type}
        (datetime_now : St -> datetime)
        (generate_daily_report generate_weekly_report
           generate_monthly_report : M St unit)
        (monitor_error : string -> exn -> M St unit).

Definition _generate_reports : M St unit :=
  try_except
    (current_time <~ (fun s => Ret (datetime_now s) s) ;;
     run (if _should_generate_daily_report current_time
          then generate_daily_report else ret tt) ;;
     run (if _should_generate_weekly_report current_time
          then generate_weekly_report else ret tt) ;;
     (if _should_generate_monthly_report current_time
      then generate_monthly_report else ret tt))
    (fun e => monitor_error "Error generating reports" e).

End Reports.

(** A Monday, the first of a month, at 01:03 *)
Definition monday_morning : datetime := mkDatetime 1 1 3 0.

(* ===================================================================== *)
(** * The update interval as the configuration gives it                   *)
(* ===================================================================== *)

(** [self.update_interval] holds whatever
    [config.get('update_interval', 3600)] returns. The record
    [TopologyManager] types it as a number (a JSON boolean counts as one
    in Python); a JSON configuration can also give a string or [null]. *)
Inductive config_value :=
| CNumber (z : Z)
| CString (s : string)
| CNull.

(** [config.get(key, default)] on a configuration with such values *)
Fixpoint raw_config_get (c : list (string * config_value)) (key : string)
    (default : config_value) : config_value :=
  match c with
  | [] => default
  | (k, v) :: c' =>
      if decide (k = key) then v else raw_config_get c' key default
  end.

(** [elapsed < interval] for a number [elapsed], as Python evaluates it *)
Definition py_lt (elapsed : Z) (interval : config_value) : result bool :=
  match interval with
  | CNumber i => Ok (bool_decide (elapsed < i))
  | CString _ =>
      Err (TypeError "'<' not supported between instances of 'float' and 'str'")
  | CNull =>
      Err (TypeError
             "'<' not supported between instances of 'float' and 'NoneType'")
  end.

(** [update_topology] on a manager whose attribute [update_interval] is
    the value [interval], a number or not; the attribute of the record
    is not read. The comparison of the gate comes before the [try]. *)
Definition update_topology_raw (env : Environment) (interval : config_value)
  : M World Graph :=
  current_time <~ time_time env ;;
  s <~ get_self ;;
  within <~ lift (py_lt (current_time - last_update s) interval) ;;
  if (within : bool) then
    ret (topology s)
  else
    try_except
      (let previous_topology := NX.copy (topology s) in
       run on_self (fun s => set_topology (NX.clear (topology s)) s) ;;
       run on_self (fun s => set_layer2_topology (NX.clear (layer2_topology s)) s) ;;
       run on_self (fun s => set_layer3_topology (NX.clear (layer3_topology s)) s) ;;
       run _discover_layer2_topology env ;;
       run _discover_layer3_topology env ;;
       run _merge_topologies ;;
       run _detect_topology_changes env previous_topology ;;
       run on_self (set_last_update current_time) ;;
       s' <~ get_self ;;
       ret (topology s'))
      (fun e =>
         run logger_error "Error updating topology" (Some e) ;;
         s' <~ get_self ;;
         ret (topology s')).

(** The steps of [update_topology] between the emptying of the graphs
    and the setting of the time stamp *)
Definition build_with (discover_layer2 discover_layer3 merge : M World unit)
    (detect_changes : Graph -> M World unit) (previous_topology : Graph)
  : M World unit :=
  run discover_layer2 ;;
  run discover_layer3 ;;
  run merge ;;
  detect_changes previous_topology.

(* ===================================================================== *)
(** * Verification                                                        *)
(* ===================================================================== *)

(** ** The update cycle: gate and exception handling *)

Section UpdateCycle.

Context (env : Environment).

Lemma time_time_run w : time_time env w = Ret (clock env (ticks w)) (tick w).
Proof. reflexivity. Qed.

(** Below the interval the method body stops at its first [return]. *)
Lemma update_topology_with_gated d2 d3 mg df w :
  clock env (ticks w) - last_update (self w) < update_interval (self w) ->
  update_topology_with env d2 d3 mg df w = Ret (topology (self w)) (tick w).
Proof.
  intros Hgate. unfold update_topology_with, bind, get_self.
  rewrite time_time_run. simpl.
  destruct (decide _) as [_|Hn]; [reflexivity | contradiction].
Qed.

(** Whatever the build steps do, the call returns the graph the manager
    holds when it ends. *)
Lemma update_topology_with_returns d2 d3 mg df w :
  exists w', update_topology_with env d2 d3 mg df w
             = Ret (topology (self w')) w'.
Proof.
  unfold update_topology_with, bind, get_self.
  rewrite time_time_run. simpl.
  destruct (decide _) as [Hg|Hg]; [eexists (tick w); reflexivity|].
  unfold try_except, bind, on_self, modify, get_self, ret, logger_error. simpl.
  repeat match goal with
         | |- context [match ?m ?x with Ret _ _ => _ | Raise _ _ => _ end] =>
             destruct (m x) as [[] ?|? ?]; simpl
         end;
    match goal with |- exists w', Ret _ ?x = _ => exists x; reflexivity end.
Qed.

End UpdateCycle.

(** C5 — update-interval gating. While less than [update_interval] has
    elapsed since [last_update], [update_topology] returns the published
    graph and leaves the manager, its time stamp included, and the log as
    they are; a second call within the interval does the same, so the time
    stamp is identical after both calls. *)
Theorem update_interval_gating (env : Environment) (w : World) :
  clock env (ticks w) - last_update (self w) < update_interval (self w) ->
  exists w1,
    update_topology env w = Ret (topology (self w)) w1
    /\ self w1 = self w /\ log w1 = log w
    /\ (clock env (ticks w1) - last_update (self w1) < update_interval (self w1) ->
        exists w2,
          update_topology env w1 = Ret (topology (self w)) w2
          /\ self w2 = self w
          /\ last_update (self w2) = last_update (self w)).
Proof.
  intros Hgate. exists (tick w). unfold update_topology.
  rewrite update_topology_with_gated by exact Hgate.
  repeat split. intros Hgate2. exists (tick (tick w)).
  rewrite update_topology_with_gated by exact Hgate2.
  repeat split.
Qed.

Lemma update_interval_gating_witness :
  exists w1,
    update_topology (stub_environment (fun n => 2000 + Z.of_nat n)) gating_world
    = Ret (topology (self gating_world)) w1
    /\ self w1 = self gating_world /\ log w1 = log gating_world
    /\ (clock (stub_environment (fun n => 2000 + Z.of_nat n)) (ticks w1)
          - last_update (self w1) < update_interval (self w1) ->
        exists w2,
          update_topology (stub_environment (fun n => 2000 + Z.of_nat n)) w1
          = Ret (topology (self gating_world)) w2
          /\ self w2 = self gating_world
          /\ last_update (self w2) = last_update (self gating_world)).
Proof.
  apply (update_interval_gating
           (stub_environment (fun n => 2000 + Z.of_nat n)) gating_world).
  vm_compute. reflexivity.
Defined.


(** ** The build steps of the class catch what they raise *)

Section BuildSteps.

Context (env : Environment).

Lemma try_except_logged (m : M World unit) (msg : string) (w : World) :
  exists w', try_except m (fun e => logger_error msg (Some e)) w = Ret tt w'.
Proof.
  unfold try_except. destruct (m w) as [[] w'|e w'].
  - exists w'. reflexivity.
  - eexists. reflexivity.
Qed.

Lemma discover_layer2_returns w :
  exists w', _discover_layer2_topology env w = Ret tt w'.
Proof. apply try_except_logged. Qed.

Lemma discover_layer3_returns w :
  exists w', _discover_layer3_topology env w = Ret tt w'.
Proof. apply try_except_logged. Qed.

Lemma merge_topologies_returns w :
  exists w', _merge_topologies w = Ret tt w'.
Proof. apply try_except_logged. Qed.

Lemma rebuild_returns w : exists w', rebuild env w = Ret tt w'.
Proof.
  unfold rebuild, bind.
  destruct (discover_layer2_returns w) as [w1 ->].
  destruct (discover_layer3_returns w1) as [w2 ->].
  apply merge_topologies_returns.
Qed.

(** The diff step touches the history and the log only. *)
Lemma detect_topology_changes_returns previous w :
  exists w', _detect_topology_changes env previous w = Ret tt w'
             /\ topology (self w') = topology (self w).
Proof.
  unfold _detect_topology_changes, try_except, bind, get_self.
  rewrite time_time_run. simpl.
  destruct (any_changes _); eexists; split; reflexivity.
Qed.

Lemma cleared_with_topology g w :
  cleared (tick (with_topology g w)) = cleared (tick w).
Proof. reflexivity. Qed.

(** A call that passes the gate: the graphs are emptied, rebuilt, diffed
    against a copy of the old graph, and the time stamp is set. *)
Lemma update_topology_ungated w :
  ~ clock env (ticks w) - last_update (self w) < update_interval (self w) ->
  exists w3 w4,
    rebuild env (cleared (tick w)) = Ret tt w3
    /\ _detect_topology_changes env (NX.copy (topology (self w))) w3 = Ret tt w4
    /\ topology (self w4) = topology (self w3)
    /\ update_topology env w
       = Ret (topology (self w3))
             (mkWorld (set_last_update (clock env (ticks w)) (self w4))
                      (ticks w4) (log w4)).
Proof.
  intros Hgate.
  destruct (rebuild_returns (cleared (tick w))) as [w3 H3].
  destruct (detect_topology_changes_returns (NX.copy (topology (self w))) w3)
    as [w4 [H4 Ht]].
  exists w3, w4. repeat split; try assumption.
  unfold update_topology, update_topology_with, bind, get_self.
  rewrite time_time_run. simpl.
  destruct (decide _) as [Hg|_]; [contradiction|].
  unfold try_except, bind, on_self, modify. simpl.
  change (mkWorld _ (S (ticks w)) (log w)) with (cleared (tick w)).
  revert H3. unfold rebuild, bind.
  destruct (_discover_layer2_topology env (cleared (tick w))) as [[] w1|]; [|discriminate].
  destruct (_discover_layer3_topology env w1) as [[] w2|]; [|discriminate].
  intros ->. rewrite H4. unfold get_self, ret. simpl.
  rewrite Ht. reflexivity.
Qed.

End BuildSteps.

(** C1 (counterexample) — the previous graph does not survive a failed
    build. After a first cycle has published the graph A–B, a second cycle
    in which every probe raises, and discovery itself raises
    [AttributeError], ends with the empty graph published. *)
Lemma atomic_publish_counterexample :
  NX.has_edge (topology (self published_world)) "A" "B" = true
  /\ In (LogError "Error discovering LLDP topology for A"
                  (Some (ProbeError "timeout")))
        (log (final_state (update_topology failing_environment published_world)))
  /\ In (LogError "Error discovering Layer 2 topology"
                  (Some (AttributeError "_discover_mac_topology")))
        (log (final_state (update_topology failing_environment published_world)))
  /\ topology (self (final_state
                       (update_topology failing_environment published_world)))
     = NX.empty
  /\ topology (self (final_state
                       (update_topology failing_environment published_world)))
     <> topology (self published_world).
Proof.
  vm_compute. repeat split; auto 12; discriminate.
Qed.

(** If a build step does raise into [update_topology], the handler
    returns the graph as the step left it; here the emptied one. *)
Lemma escaping_error_keeps_partial_graph :
  exists w',
    update_topology_with failing_environment (ret tt) (ret tt)
      (raise (TypeError "merge")) (fun _ => ret tt) published_world
    = Ret NX.empty w'
    /\ last_update (self w') = last_update (self published_world).
Proof. eexists. vm_compute. split; reflexivity. Qed.

(** ** Python equality *)

Lemma dict_get_NoDup (d : dict) k v :
  NoDup (map fst d) -> (k, v) ∈ d -> dict_get d k = Some v.
Proof.
  induction d as [|[k' v'] d IH]; simpl; intros Hnd Hin.
  - inversion Hin.
  - apply NoDup_cons in Hnd as [Hk Hnd].
    apply elem_of_cons in Hin as [Heq|Hin].
    + injection Heq as -> ->. rewrite decide_True; reflexivity.
    + destruct (decide (k' = k)) as [->|Hne].
      * exfalso. apply Hk. apply list_elem_of_fmap. exists (k, v). auto.
      * apply IH; assumption.
Qed.

Lemma py_eqb_refl : forall v, well_formed v = true -> py_eqb v v = true.
Proof.
  fix IH 1. intros [t|l|s|z|a b|xs|d]; simpl; intros Hwf;
    try (apply bool_decide_eq_true; reflexivity).
  - apply andb_true_iff in Hwf as [Ha Hb].
    rewrite (IH a Ha), (IH b Hb). reflexivity.
  - apply andb_true_intro. split; [|apply Nat.leb_refl].
    assert (Hsub : forall ys, (forall y, y ∈ ys -> y ∈ xs) ->
               forallb well_formed ys = true ->
               forallb (fun x => existsb (fun y => py_eqb x y) xs) ys = true).
    { induction ys as [|y ys IHys]; simpl; intros Hin Hys; [reflexivity|].
      apply andb_true_iff in Hys as [Hy Hys].
      apply andb_true_intro. split.
      - apply existsb_exists. exists y. split.
        + apply list_elem_of_In, Hin. left.
        + apply IH, Hy.
      - apply IHys; [|exact Hys]. intros z Hz. apply Hin. right. exact Hz. }
    apply Hsub; [auto | exact Hwf].
  - apply andb_true_iff in Hwf as [Hnd Hwf].
    apply bool_decide_eq_true in Hnd.
    apply andb_true_intro. split; [|apply Nat.eqb_refl].
    assert (Hsub : forall e, (forall kv, kv ∈ e -> kv ∈ d) ->
               forallb (fun kv : string * value => well_formed kv.2) e = true ->
               forallb (fun kv : string * value =>
                          match dict_get d kv.1 with
                          | Some w => py_eqb kv.2 w
                          | None => false
                          end) e = true).
    { induction e as [|[k v] e IHe]; simpl; intros Hin He; [reflexivity|].
      apply andb_true_iff in He as [Hv He].
      apply andb_true_intro. split.
      - rewrite (dict_get_NoDup d k v Hnd) by (apply Hin; left).
        apply IH, Hv.
      - apply IHe; [|exact He]. intros z Hz. apply Hin. right. exact Hz. }
    apply Hsub; [auto | exact Hwf].
Qed.

Lemma data_neqb_same (G : Graph) u v :
  well_formed_data G ->
  data_neqb (NX.get_edge_data G u v) (NX.get_edge_data G u v) = false.
Proof.
  intros Hwf. unfold NX.get_edge_data.
  destruct (find (NX.joins u v) (NX.g_edge G)) as [e|] eqn:Hf; simpl; [|reflexivity].
  apply find_some in Hf as [Hin _].
  unfold well_formed_data in Hwf. rewrite Forall_forall in Hwf.
  unfold dict_eqb. rewrite py_eqb_refl; [reflexivity|].
  apply Hwf. apply list_elem_of_In. exact Hin.
Qed.

(** ** The diff *)

(** Comparing a graph with itself finds nothing in any category. *)
Lemma compute_changes_same (now : Z) (G : Graph) :
  well_formed_data G ->
  compute_changes now G G = mkChanges now [] [] [] [] [].
Proof.
  intros Hwf. unfold compute_changes.
  rewrite !difference_diag_L, elements_empty. f_equal.
  induction (elements _) as [|e l IH]; simpl; [reflexivity|].
  rewrite data_neqb_same by exact Hwf. exact IH.
Qed.

(** C4 — diff of a graph against itself. Every category of the change
    record is empty; but the record is appended to the history all the
    same whenever the clock reading is not zero, because
    [any(changes.values())] also sees the time stamp, contrary to the
    comment "Record changes if any occurred" and to the specification,
    which wants no history entry for a cycle without changes. *)
Theorem diff_against_itself_is_recorded (env : Environment) (w : World) :
  well_formed_data (topology (self w)) ->
  clock env (ticks w) <> 0 ->
  exists w',
    _detect_topology_changes env (topology (self w)) w = Ret tt w'
    /\ history (self w')
       = history (self w) ++ [mkChanges (clock env (ticks w)) [] [] [] [] []].
Proof.
  intros Hwf Hclock.
  unfold _detect_topology_changes, try_except, bind, get_self.
  rewrite time_time_run. simpl.
  rewrite compute_changes_same by exact Hwf.
  unfold any_changes, truthy_float. simpl.
  destruct (Z.eqb_spec (clock env (ticks w)) 0) as [E|_]; [contradiction|].
  simpl. eexists. split; reflexivity.
Qed.

Lemma diff_against_itself_is_recorded_witness :
  exists w',
    _detect_topology_changes lldp_environment
      (topology (self published_world)) published_world = Ret tt w'
    /\ history (self w')
       = history (self published_world)
         ++ [mkChanges (clock lldp_environment (ticks published_world))
                       [] [] [] [] []].
Proof.
  apply (diff_against_itself_is_recorded lldp_environment published_world).
  - vm_compute. repeat constructor.
  - vm_compute. discriminate.
Defined.

(** The diff against [G.copy()], as a cycle takes it, at the graph of
    the published world: the same empty record, recorded. *)
Example diff_against_copy_evaluated :
  history (self (final_state
     (_detect_topology_changes lldp_environment
        (NX.copy (topology (self published_world))) published_world)))
  = history (self published_world) ++ [mkChanges 4003 [] [] [] [] []].
Proof. vm_compute. reflexivity. Qed.

(** The same on the class as it stands: a new manager, whose probes
    find nothing, records an empty change in its first cycle. *)
Example empty_cycle_is_recorded :
  history (self (final_state
     (update_topology (stub_environment (fun n => 4000 + Z.of_nat n))
                      (mkWorld (__init__ []) 0 []))))
  = [mkChanges 4001 [] [] [] [] []].
Proof. vm_compute. reflexivity. Qed.

(** ** Queries *)

(** C6 — a query for an absent node. [nx.shortest_path] raises
    [NodeNotFound] when the source or the target is not a node of the
    graph; [get_path] only catches [NetworkXNoPath], so the exception
    reaches the caller, where the specification wants an empty result
    and the sibling queries, which catch [Exception], return one. *)
Theorem get_path_absent_node_raises (source target : Node) (w : World) :
  NX.has_node (topology (self w)) source = false
  \/ NX.has_node (topology (self w)) target = false ->
  get_path source target w
  = Raise (NodeNotFound "Either source or target is not in G") w.
Proof.
  intros Habsent.
  unfold get_path, try_except_class, bind, get_self, NX.shortest_path.
  destruct Habsent as [-> | ->]; simpl; [reflexivity|].
  rewrite orb_true_r. reflexivity.
Qed.

Lemma get_path_absent_node_raises_witness :
  get_path "A" "Z" published_world
  = Raise (NodeNotFound "Either source or target is not in G") published_world.
Proof.
  apply (get_path_absent_node_raises "A" "Z" published_world).
  right. vm_compute. reflexivity.
Defined.

(** The other query-time failures are reported as specified: an unknown
    export format gives [None] (and two nodes of the graph without a path
    between them give the empty list, [get_path_disconnected] below). *)
Lemma export_topology_unsupported (format : string) (w : World) :
  format <> "json" -> format <> "graphml" ->
  exists w', export_topology format w = Ret PyNone w' /\ self w' = self w.
Proof.
  intros Hj Hg. unfold export_topology, try_except, bind, get_self.
  rewrite decide_False by exact Hj. rewrite decide_False by exact Hg.
  simpl. eexists. split; reflexivity.
Qed.

(** ** Facts about the graph operations *)

Section GraphFacts.

Implicit Types (G : Graph) (u v x y n : Node) (e : Node * Node * dict).

Lemma ukey_comm u v : ukey u v = ukey v u.
Proof.
  unfold ukey.
  destruct (String.leb u v) eqn:E1, (String.leb v u) eqn:E2; try reflexivity.
  - rewrite (String.leb_antisym _ _ E1 E2). reflexivity.
  - destruct (String.leb_total u v); congruence.
Qed.

Lemma ukey_eq u v x y :
  ukey u v = ukey x y <-> (u = x /\ v = y) \/ (u = y /\ v = x).
Proof.
  split.
  - unfold ukey. destruct (String.leb u v), (String.leb x y);
      intros [= -> ->]; auto.
  - intros [[-> ->]|[-> ->]]; [reflexivity | apply ukey_comm].
Qed.

Lemma joins_true u v e : NX.joins u v e = true <-> ekey e = ukey u v.
Proof.
  unfold NX.joins, ekey. rewrite orb_true_iff, !bool_decide_eq_true, ukey_eq.
  reflexivity.
Qed.

Lemma joins_false u v e : NX.joins u v e = false <-> ekey e <> ukey u v.
Proof.
  rewrite <- joins_true. destruct (NX.joins u v e); split; congruence.
Qed.

Lemma joins_same_key u v x y e :
  ukey x y = ukey u v -> NX.joins x y e = NX.joins u v e.
Proof.
  intros Hk. destruct (NX.joins u v e) eqn:E.
  - apply joins_true. rewrite Hk. apply joins_true, E.
  - apply joins_false. rewrite Hk. apply joins_false, E.
Qed.

(** *** Nodes *)

Lemma nodes_update_node (l : list (Node * dict)) n attr :
  map fst (NX.update_node l n attr)
  = if decide (n ∈ map fst l) then map fst l else map fst l ++ [n].
Proof.
  induction l as [|[m d] l IH].
  - destruct (decide (n ∈ map fst [])) as [Hin|_]; [|reflexivity].
    apply not_elem_of_nil in Hin. contradiction.
  - cbn [NX.update_node].
    destruct (decide (m = n)) as [->|Hne]; cbn [map fst].
    + rewrite decide_True by left. reflexivity.
    + rewrite IH. destruct (decide (n ∈ map fst l)) as [Hin|Hnin].
      * rewrite decide_True by (right; exact Hin). reflexivity.
      * rewrite decide_False; [reflexivity|].
        intros Hin. apply elem_of_cons in Hin as [->|Hin]; auto.
Qed.

Lemma nodes_add_node G n attr :
  NX.nodes (NX.add_node G n attr)
  = if decide (n ∈ NX.nodes G) then NX.nodes G else NX.nodes G ++ [n].
Proof. apply nodes_update_node. Qed.

Lemma elem_of_nodes_add_node G n attr x :
  x ∈ NX.nodes (NX.add_node G n attr) <-> x ∈ NX.nodes G \/ x = n.
Proof.
  rewrite nodes_add_node. destruct (decide _) as [Hin|Hnin].
  - split; [auto | intros [H| ->]; assumption].
  - rewrite elem_of_app, list_elem_of_singleton. reflexivity.
Qed.

Lemma NoDup_nodes_add_node G n attr :
  NoDup (NX.nodes G) -> NoDup (NX.nodes (NX.add_node G n attr)).
Proof.
  intros Hnd. rewrite nodes_add_node. destruct (decide _) as [Hin|Hnin]; [exact Hnd|].
  apply NoDup_app. repeat split; [exact Hnd | | apply NoDup_singleton].
  intros x Hx Hx'. apply list_elem_of_singleton in Hx'. subst. auto.
Qed.

Lemma elem_of_nodes_add_edge G u v attr x :
  x ∈ NX.nodes (NX.add_edge G u v attr) <-> x ∈ NX.nodes G \/ x = u \/ x = v.
Proof.
  unfold NX.add_edge.
  change (NX.nodes (NX.mkGraph ?a ?b)) with (map fst a).
  change (map fst (NX.g_node ?g)) with (NX.nodes g).
  rewrite !elem_of_nodes_add_node. tauto.
Qed.

Lemma has_node_true G n : NX.has_node G n = true <-> n ∈ NX.nodes G.
Proof. apply bool_decide_eq_true. Qed.

(** *** Edges *)

Lemma get_edge_data_add_node G n attr u v :
  NX.get_edge_data (NX.add_node G n attr) u v = NX.get_edge_data G u v.
Proof. reflexivity. Qed.

Lemma find_update_edge (l : list (Node * Node * dict)) u v attr x y :
  snd <$> find (NX.joins x y) (NX.update_edge l u v attr)
  = if decide (ukey x y = ukey u v)
    then Some (dict_update (default [] (snd <$> find (NX.joins u v) l)) attr)
    else snd <$> find (NX.joins x y) l.
Proof.
  induction l as [|e l IH]; simpl.
  - destruct (decide _) as [Hk|Hk].
    + assert (H : NX.joins x y (u, v, dict_update [] attr) = true)
        by (apply joins_true; symmetry; exact Hk).
      rewrite H. reflexivity.
    + assert (H : NX.joins x y (u, v, dict_update [] attr) = false)
        by (apply joins_false; unfold ekey; simpl; congruence).
      rewrite H. reflexivity.
  - destruct (NX.joins u v e) eqn:Ee; simpl.
    + change (NX.joins x y (e.1, dict_update e.2 attr)) with (NX.joins x y e).
      destruct (decide _) as [Hk|Hk].
      * rewrite (joins_same_key _ _ _ _ _ Hk), Ee. reflexivity.
      * assert (H : NX.joins x y e = false).
        { apply joins_false. apply joins_true in Ee. congruence. }
        rewrite H. reflexivity.
    + destruct (NX.joins x y e) eqn:Ex; simpl.
      * rewrite decide_False; [reflexivity|].
        intros Hk. rewrite (joins_same_key _ _ _ _ _ Hk) in Ex. congruence.
      * exact IH.
Qed.

Lemma get_edge_data_add_edge G u v attr x y :
  NX.get_edge_data (NX.add_edge G u v attr) x y
  = if decide (ukey x y = ukey u v)
    then Some (dict_update (default [] (NX.get_edge_data G u v)) attr)
    else NX.get_edge_data G x y.
Proof. unfold NX.get_edge_data, NX.add_edge. simpl. apply find_update_edge. Qed.

Lemma get_edge_data_key G u v x y :
  ukey x y = ukey u v -> NX.get_edge_data G x y = NX.get_edge_data G u v.
Proof.
  intros Hk. unfold NX.get_edge_data. f_equal.
  induction (NX.g_edge G) as [|e l IH]; simpl; [reflexivity|].
  rewrite (joins_same_key _ _ _ _ _ Hk), IH. reflexivity.
Qed.

End GraphFacts.

Section GraphWellFormed.

Implicit Types (G : Graph) (u v x y n : Node) (e : Node * Node * dict).

Lemma keys_update_edge (l : list (Node * Node * dict)) u v attr :
  map ekey (NX.update_edge l u v attr)
  = if decide (ukey u v ∈ map ekey l) then map ekey l
    else map ekey l ++ [ukey u v].
Proof.
  induction l as [|e l IH].
  - destruct (decide (ukey u v ∈ map ekey [])) as [Hin|_]; [|reflexivity].
    apply not_elem_of_nil in Hin. contradiction.
  - cbn [NX.update_edge]. destruct (NX.joins u v e) eqn:Ee; cbn [map].
    + apply joins_true in Ee. rewrite decide_True by (rewrite <- Ee; left).
      reflexivity.
    + apply joins_false in Ee. rewrite IH.
      destruct (decide (ukey u v ∈ map ekey l)) as [Hin|Hnin].
      * rewrite decide_True by (right; exact Hin). reflexivity.
      * rewrite decide_False; [reflexivity|].
        intros Hin. apply elem_of_cons in Hin as [Heq|Hin]; auto.
Qed.

Lemma elem_of_update_edge (l : list (Node * Node * dict)) u v attr e :
  e ∈ NX.update_edge l u v attr ->
  (exists e0, e0 ∈ l /\ e.1 = e0.1
              /\ (e.2 = e0.2 \/ e.2 = dict_update e0.2 attr))
  \/ (e.1 = (u, v) /\ e.2 = dict_update [] attr).
Proof.
  induction l as [|e0 l IH]; cbn [NX.update_edge].
  - intros Hin. apply list_elem_of_singleton in Hin. subst. right. auto.
  - destruct (NX.joins u v e0).
    + intros Hin. apply elem_of_cons in Hin as [->|Hin].
      * left. exists e0. split; [left|]. auto.
      * left. exists e. split; [right; exact Hin|]. auto.
    + intros Hin. apply elem_of_cons in Hin as [->|Hin].
      * left. exists e0. split; [left|]. auto.
      * destruct (IH Hin) as [(e1 & H1 & H2)|H]; [left|right; exact H].
        exists e1. split; [right; exact H1 | exact H2].
Qed.

Lemma wf_graph_empty : wf_graph NX.empty.
Proof. repeat split; constructor. Qed.

Lemma wf_graph_add_node G n attr : wf_graph G -> wf_graph (NX.add_node G n attr).
Proof.
  intros (Hn & Hk & He). repeat split.
  - apply NoDup_nodes_add_node, Hn.
  - exact Hk.
  - eapply Forall_impl; [exact He|]. intros e [H1 H2].
    rewrite !elem_of_nodes_add_node. auto.
Qed.

Lemma wf_graph_add_edge G u v attr :
  wf_graph G -> wf_graph (NX.add_edge G u v attr).
Proof.
  intros (Hn & Hk & He). repeat split.
  - unfold NX.add_edge.
    change (NX.nodes (NX.mkGraph ?a ?b)) with (map fst a).
    change (map fst (NX.g_node ?g)) with (NX.nodes g).
    apply NoDup_nodes_add_node, NoDup_nodes_add_node, Hn.
  - unfold NX.add_edge. cbn [NX.g_edge NX.add_node].
    rewrite keys_update_edge. destruct (decide _) as [Hin|Hnin]; [exact Hk|].
    apply NoDup_app. repeat split; [exact Hk | | apply NoDup_singleton].
    intros k Hk1 Hk2. apply list_elem_of_singleton in Hk2. subst. auto.
  - apply Forall_forall. intros e Hin.
    rewrite !elem_of_nodes_add_edge.
    unfold NX.add_edge in Hin. cbn [NX.g_edge NX.add_node] in Hin.
    apply elem_of_update_edge in Hin as [(e0 & H0 & H1 & _)|[H1 _]].
    + rewrite Forall_forall in He. destruct (He e0 H0) as [Ha Hb].
      rewrite H1. auto.
    + rewrite H1. simpl. auto.
Qed.

Lemma wf_graph_add_nodes_from (l : list (Node * dict)) G :
  wf_graph G -> wf_graph (NX.add_nodes_from G l).
Proof.
  revert G. induction l as [|nd l IH]; intros G Hwf; [exact Hwf|].
  apply IH, wf_graph_add_node, Hwf.
Qed.

Lemma wf_graph_add_edges_from (l : list (Node * Node * dict)) G :
  wf_graph G -> wf_graph (NX.add_edges_from G l).
Proof.
  revert G. induction l as [|e l IH]; intros G Hwf; [exact Hwf|].
  apply IH, wf_graph_add_edge, Hwf.
Qed.

(** *** The edge view *)

Lemma elem_of_adj G n m (d : dict) :
  (m, d) ∈ NX.adj G n
  <-> exists e, e ∈ NX.g_edge G /\ e.2 = d
                /\ ((e.1.1 = n /\ e.1.2 = m) \/ (e.1.2 = n /\ e.1.1 = m)).
Proof.
  unfold NX.adj. rewrite list_elem_of_omap. split.
  - intros (e & Hin & Hf). exists e. split; [exact Hin|].
    destruct (decide (e.1.1 = n)) as [E1|E1].
    + injection Hf as <- <-. auto.
    + destruct (decide (e.1.2 = n)) as [E2|E2]; [|discriminate].
      injection Hf as <- <-. auto.
  - intros (e & Hin & <- & H). exists e. split; [exact Hin|].
    destruct H as [[E1 E2]|[E2 E1]].
    + rewrite decide_True by exact E1. rewrite E2. reflexivity.
    + destruct (decide (e.1.1 = n)) as [E3|E3].
      * rewrite E2. congruence.
      * rewrite decide_True by exact E2. rewrite E1. reflexivity.
Qed.

Lemma NoDup_neighbors G n :
  NoDup (map ekey (NX.g_edge G)) -> NoDup (map fst (NX.adj G n)).
Proof.
  unfold NX.adj. induction (NX.g_edge G) as [|e l IH]; cbn [map omap list_omap].
  - intros _. constructor.
  - intros Hnd. apply NoDup_cons in Hnd as [Hk Hnd]. specialize (IH Hnd).
    assert (Hfresh : forall m, ukey n m = ekey e ->
               m ∉ map fst (omap (fun e : Node * Node * dict =>
                  if decide (e.1.1 = n) then Some (e.1.2, e.2)
                  else if decide (e.1.2 = n) then Some (e.1.1, e.2)
                  else None) l)).
    { intros m Hm Hin. apply Hk.
      apply list_elem_of_fmap in Hin as ([m' d] & -> & Hin).
      apply (elem_of_adj (NX.mkGraph [] l) n m' d) in Hin
        as (e' & Hin & _ & He').
      apply list_elem_of_fmap. exists e'. split; [|exact Hin].
      rewrite <- Hm. unfold ekey. symmetry. apply ukey_eq.
      simpl. tauto. }
    destruct (decide (e.1.1 = n)) as [E1|E1].
    + cbn [map fst]. apply NoDup_cons. split; [|exact IH].
      apply Hfresh. unfold ekey. rewrite E1. reflexivity.
    + destruct (decide (e.1.2 = n)) as [E2|E2]; [|exact IH].
      cbn [map fst]. apply NoDup_cons. split; [|exact IH].
      apply Hfresh. unfold ekey. rewrite E2. apply ukey_comm.
Qed.

End GraphWellFormed.

Section EdgeView.

Implicit Types (G : Graph) (u v x y n : Node) (e : Node * Node * dict).

(** What [G.edges(data=True)] reports is an adjacency entry of its first
    component whose other end has not been completed. *)
Lemma elem_of_edges_from G (ns seen : list Node) e :
  e ∈ NX.edges_from G ns seen ->
  e.1.1 ∈ ns /\ (e.1.2, e.2) ∈ NX.adj G e.1.1 /\ e.1.2 ∉ seen.
Proof.
  revert seen. induction ns as [|n ns IH]; intros seen; cbn [NX.edges_from].
  - intros Hin. apply not_elem_of_nil in Hin. contradiction.
  - intros Hin. apply elem_of_app in Hin as [Hin|Hin].
    + apply list_elem_of_fmap in Hin as ([m d] & -> & Hin).
      apply list_elem_of_filter in Hin as [Hseen Hin]. simpl in *.
      split; [left | split; assumption].
    + destruct (IH _ Hin) as (H1 & H2 & H3).
      split; [right; exact H1 | split; [exact H2|]].
      intros Hs. apply H3. right. exact Hs.
Qed.

(** Every edge whose end points are still to come is reported, in one
    direction or the other. *)
Lemma edges_from_complete G (ns seen : list Node) e0 :
  e0 ∈ NX.g_edge G ->
  e0.1.1 ∈ ns -> e0.1.2 ∈ ns -> e0.1.1 ∉ seen -> e0.1.2 ∉ seen ->
  exists e, e ∈ NX.edges_from G ns seen /\ ekey e = ekey e0 /\ e.2 = e0.2.
Proof.
  intros He0. revert seen.
  induction ns as [|n ns IH]; intros seen Ha Hb Hsa Hsb; cbn [NX.edges_from].
  - apply not_elem_of_nil in Ha. contradiction.
  - destruct (decide (e0.1.1 = n)) as [Ea|Ea].
    + exists (n, e0.1.2, e0.2). split; [|split; [|reflexivity]].
      * apply elem_of_app. left.
        apply list_elem_of_fmap. exists (e0.1.2, e0.2). split; [reflexivity|].
        apply list_elem_of_filter. split; [exact Hsb|].
        apply elem_of_adj. exists e0. auto.
      * unfold ekey. simpl. rewrite Ea. reflexivity.
    + destruct (decide (e0.1.2 = n)) as [Eb|Eb].
      * exists (n, e0.1.1, e0.2). split; [|split; [|reflexivity]].
        -- apply elem_of_app. left.
           apply list_elem_of_fmap. exists (e0.1.1, e0.2). split; [reflexivity|].
           apply list_elem_of_filter. split; [exact Hsa|].
           apply elem_of_adj. exists e0. auto.
        -- unfold ekey. simpl. rewrite Eb. apply ukey_comm.
      * apply elem_of_cons in Ha as [Ha|Ha]; [contradiction|].
        apply elem_of_cons in Hb as [Hb|Hb]; [contradiction|].
        destruct (IH (n :: seen) Ha Hb) as (e & Hin & Hk & Hd).
        -- intros H. apply elem_of_cons in H as [H|H]; auto.
        -- intros H. apply elem_of_cons in H as [H|H]; auto.
        -- exists e. split; [apply elem_of_app; right; exact Hin | auto].
Qed.

Lemma ukey_inj_l n a b : ukey n a = ukey n b -> a = b.
Proof. intros H. apply ukey_eq in H as [[_ H]|[H1 H2]]; congruence. Qed.

Lemma NoDup_keys_edges_from G (ns seen : list Node) :
  NoDup ns -> NoDup (map ekey (NX.g_edge G)) ->
  NoDup (map ekey (NX.edges_from G ns seen)).
Proof.
  intros Hns Hk. revert seen.
  induction ns as [|n ns IH]; intros seen; cbn [NX.edges_from].
  - constructor.
  - apply NoDup_cons in Hns as [Hn Hns].
    rewrite map_app. apply NoDup_app. repeat split.
    + rewrite map_map. cbn.
      apply (NoDup_fmap_2_strong (fun nd : Node * dict => ukey n nd.1)).
      * intros [a d] [b d'] Ha Hb Hab. simpl in Hab.
        apply ukey_inj_l in Hab. subst b.
        apply list_elem_of_filter in Ha as [_ Ha].
        apply list_elem_of_filter in Hb as [_ Hb].
        f_equal.
        apply elem_of_adj in Ha as (e1 & H1 & <- & K1).
        apply elem_of_adj in Hb as (e2 & H2 & <- & K2).
        assert (Hkk : ekey e1 = ekey e2).
        { transitivity (ukey n a); [|symmetry]; apply ukey_eq; tauto. }
        clear K1 K2.
        induction (NX.g_edge G) as [|e l IHl]; [inversion H1|].
        cbn [map] in Hk. apply NoDup_cons in Hk as [Hfresh Hk].
        apply elem_of_cons in H1 as [->|H1]; apply elem_of_cons in H2 as [->|H2].
        -- reflexivity.
        -- exfalso. apply Hfresh. rewrite Hkk.
           apply list_elem_of_fmap. exists e2. auto.
        -- exfalso. apply Hfresh. rewrite <- Hkk.
           apply list_elem_of_fmap. exists e1. auto.
        -- apply IHl; assumption.
      * apply (NoDup_fmap_1 fst). eapply sublist_NoDup.
        -- apply NoDup_neighbors, Hk.
        -- apply (fmap_sublist fst), sublist_filter.
    + intros k Hk1 Hk2.
      apply list_elem_of_fmap in Hk1 as (e1 & -> & H1).
      apply list_elem_of_fmap in H1 as ([m d] & -> & H1).
      apply list_elem_of_fmap in Hk2 as (e2 & Heq & H2).
      apply elem_of_edges_from in H2 as (Hin & _ & Hseen).
      unfold ekey in Heq. simpl in Heq.
      apply ukey_eq in Heq as [[E1 E2]|[E1 E2]].
      * apply Hn. rewrite E1. exact Hin.
      * apply Hseen. rewrite <- E1. left.
    + apply IH, Hns.
Qed.

(** Looking a pair up in a list of edges with distinct keys *)
Lemma find_joins_Some (l : list (Node * Node * dict)) u v e :
  NoDup (map ekey l) -> e ∈ l -> ekey e = ukey u v ->
  find (NX.joins u v) l = Some e.
Proof.
  induction l as [|e0 l IH]; intros Hnd Hin Hk; [inversion Hin|].
  cbn [map] in Hnd. apply NoDup_cons in Hnd as [Hfresh Hnd].
  cbn [find]. apply elem_of_cons in Hin as [->|Hin].
  - apply joins_true in Hk. rewrite Hk. reflexivity.
  - assert (H0 : NX.joins u v e0 = false).
    { apply joins_false. intros H. apply Hfresh. rewrite H, <- Hk.
      apply list_elem_of_fmap. exists e. auto. }
    rewrite H0. apply IH; assumption.
Qed.

Lemma find_joins_None (l : list (Node * Node * dict)) u v :
  (forall e, e ∈ l -> ekey e <> ukey u v) -> find (NX.joins u v) l = None.
Proof.
  induction l as [|e0 l IH]; intros H; [reflexivity|].
  cbn [find].
  assert (H0 : NX.joins u v e0 = false) by (apply joins_false, H; left).
  rewrite H0. apply IH. intros e He. apply H. right. exact He.
Qed.

(** The edge view and [get_edge_data] agree. *)
Lemma find_edges_data G u v :
  wf_graph G ->
  snd <$> find (NX.joins u v) (NX.edges_data G) = NX.get_edge_data G u v.
Proof.
  intros (Hn & Hk & He). unfold NX.get_edge_data.
  destruct (find (NX.joins u v) (NX.g_edge G)) as [e0|] eqn:Hf.
  - apply find_some in Hf as [Hin Hj]. apply list_elem_of_In in Hin.
    apply joins_true in Hj.
    rewrite Forall_forall in He. destruct (He e0 Hin) as [Ha Hb].
    destruct (edges_from_complete G (NX.nodes G) [] e0 Hin Ha Hb)
      as (e & Hin' & Hk' & Hd); [apply not_elem_of_nil .. |].
    rewrite (find_joins_Some _ u v e); [simpl; congruence | | exact Hin' | congruence].
    apply NoDup_keys_edges_from; assumption.
  - rewrite find_joins_None; [reflexivity|].
    intros e Hin Hkey.
    apply elem_of_edges_from in Hin as (_ & Hadj & _).
    apply elem_of_adj in Hadj as (e0 & Hin0 & _ & Hends).
    assert (Hj : NX.joins u v e0 = true).
    { apply joins_true. rewrite <- Hkey. unfold ekey. apply ukey_eq. tauto. }
    rewrite (find_none _ _ Hf e0) in Hj; [discriminate|].
    apply list_elem_of_In. exact Hin0.
Qed.

Lemma edges_data_sound G e :
  e ∈ NX.edges_data G ->
  exists e0, e0 ∈ NX.g_edge G /\ e.2 = e0.2 /\ ekey e = ekey e0.
Proof.
  intros Hin. apply elem_of_edges_from in Hin as (_ & Hadj & _).
  apply elem_of_adj in Hadj as (e0 & Hin0 & Hd & Hends).
  exists e0. split; [exact Hin0|]. split; [congruence|].
  unfold ekey. apply ukey_eq. destruct Hends as [[<- <-]|[<- <-]]; auto.
Qed.

Lemma edges_data_nodes G e :
  wf_graph G -> e ∈ NX.edges_data G ->
  e.1.1 ∈ NX.nodes G /\ e.1.2 ∈ NX.nodes G.
Proof.
  intros (_ & _ & He) Hin.
  apply elem_of_edges_from in Hin as (H1 & Hadj & _).
  split; [exact H1|].
  apply elem_of_adj in Hadj as (e0 & Hin0 & _ & Hends).
  rewrite Forall_forall in He. destruct (He e0 Hin0) as [Ha Hb].
  destruct Hends as [[_ <-]|[_ <-]]; assumption.
Qed.

End EdgeView.

Section BulkInsertion.

Implicit Types (G : Graph) (u v x y n : Node) (e : Node * Node * dict).

Lemma elem_of_nodes_add_nodes_from (l : list (Node * dict)) G x :
  x ∈ NX.nodes (NX.add_nodes_from G l) <-> x ∈ NX.nodes G \/ x ∈ map fst l.
Proof.
  revert G. induction l as [|nd l IH]; intros G.
  - simpl. split; [auto | intros [H|H]; [exact H | inversion H]].
  - change (NX.add_nodes_from G (nd :: l))
      with (NX.add_nodes_from (NX.add_node G nd.1 nd.2) l).
    rewrite IH, elem_of_nodes_add_node. cbn [map]. rewrite elem_of_cons. tauto.
Qed.

Lemma get_edge_data_add_nodes_from (l : list (Node * dict)) G u v :
  NX.get_edge_data (NX.add_nodes_from G l) u v = NX.get_edge_data G u v.
Proof.
  revert G. induction l as [|nd l IH]; intros G; [reflexivity|].
  change (NX.add_nodes_from G (nd :: l))
    with (NX.add_nodes_from (NX.add_node G nd.1 nd.2) l).
  rewrite IH. apply get_edge_data_add_node.
Qed.

Lemma elem_of_nodes_add_edges_from (es : list (Node * Node * dict)) G x :
  x ∈ NX.nodes (NX.add_edges_from G es)
  <-> x ∈ NX.nodes G \/ exists e, e ∈ es /\ (x = e.1.1 \/ x = e.1.2).
Proof.
  revert G. induction es as [|e es IH]; intros G.
  - simpl. split; [auto | intros [H|(e & H & _)]; [exact H | inversion H]].
  - change (NX.add_edges_from G (e :: es))
      with (NX.add_edges_from (NX.add_edge G e.1.1 e.1.2 e.2) es).
    rewrite IH, elem_of_nodes_add_edge. split.
    + intros [[H|H]|(e' & Hin & H)]; auto.
      * right. exists e. split; [left | exact H].
      * right. exists e'. split; [right; exact Hin | exact H].
    + intros [H|(e' & Hin & H)]; auto.
      apply elem_of_cons in Hin as [->|Hin]; auto.
      right. exists e'. auto.
Qed.

(** With one entry per pair, [add_edges_from] updates each edge once. *)
Lemma get_edge_data_add_edges_from (es : list (Node * Node * dict)) G u v :
  NoDup (map ekey es) ->
  NX.get_edge_data (NX.add_edges_from G es) u v
  = match snd <$> find (NX.joins u v) es with
    | Some d => Some (dict_update (default [] (NX.get_edge_data G u v)) d)
    | None => NX.get_edge_data G u v
    end.
Proof.
  revert G. induction es as [|e es IH]; intros G Hnd; [reflexivity|].
  cbn [map] in Hnd. apply NoDup_cons in Hnd as [Hfresh Hnd].
  change (NX.add_edges_from G (e :: es))
    with (NX.add_edges_from (NX.add_edge G e.1.1 e.1.2 e.2) es).
  rewrite (IH _ Hnd), get_edge_data_add_edge. cbn [find].
  destruct (NX.joins u v e) eqn:Ej.
  - apply joins_true in Ej. unfold ekey in Ej.
    rewrite decide_True by (symmetry; exact Ej).
    rewrite find_joins_None.
    + simpl. rewrite (get_edge_data_key G u v e.1.1 e.1.2) by exact Ej.
      reflexivity.
    + intros e' Hin Hk. apply Hfresh. unfold ekey at 1. rewrite Ej, <- Hk.
      apply list_elem_of_fmap. exists e'. auto.
  - apply joins_false in Ej. unfold ekey in Ej.
    rewrite decide_False by congruence. reflexivity.
Qed.

(** The union that [_merge_topologies] forms, seen through its nodes and
    through [get_edge_data] *)
Lemma elem_of_nodes_union_graph T A B x :
  wf_graph A -> wf_graph B ->
  x ∈ NX.nodes (union_graph T A B)
  <-> x ∈ NX.nodes T \/ x ∈ NX.nodes A \/ x ∈ NX.nodes B.
Proof.
  intros HA HB. unfold union_graph.
  rewrite elem_of_nodes_add_edges_from, elem_of_nodes_add_nodes_from,
    elem_of_nodes_add_edges_from, elem_of_nodes_add_nodes_from.
  change (map fst (NX.g_node ?g)) with (NX.nodes g).
  split.
  - intros [[[[H|H]|(e & Hin & H)]|H]|(e & Hin & H)]; auto.
    + destruct (edges_data_nodes A e HA Hin) as [Ha Hb].
      destruct H as [-> | ->]; auto.
    + destruct (edges_data_nodes B e HB Hin) as [Ha Hb].
      destruct H as [-> | ->]; auto.
  - intros [H|[H|H]]; auto.
Qed.

Lemma get_edge_data_union_graph T A B u v :
  wf_graph A -> wf_graph B ->
  NX.get_edge_data (union_graph T A B) u v
  = let below :=
      match NX.get_edge_data A u v with
      | Some d => Some (dict_update (default [] (NX.get_edge_data T u v)) d)
      | None => NX.get_edge_data T u v
      end in
    match NX.get_edge_data B u v with
    | Some d => Some (dict_update (default [] below) d)
    | None => below
    end.
Proof.
  intros HA HB. unfold union_graph.
  rewrite get_edge_data_add_edges_from
    by (apply NoDup_keys_edges_from; [apply HB | apply HB]).
  rewrite get_edge_data_add_nodes_from.
  rewrite get_edge_data_add_edges_from
    by (apply NoDup_keys_edges_from; [apply HA | apply HA]).
  rewrite get_edge_data_add_nodes_from.
  rewrite !find_edges_data by assumption. reflexivity.
Qed.

End BulkInsertion.

(** ** Link records, layer graphs and the merge *)

Section LinkGraphs.

Implicit Types (G : Graph) (u v x y n : Node) (r : NetworkLink).

(** [update] with the dictionary of a record replaces the dictionary of
    an earlier record: all five keys are overwritten. *)
Lemma dict_update_link_data (o : option dict) (a : dict) :
  (forall d, o = Some d -> is_link_data d) -> is_link_data a ->
  dict_update (default [] o) a = a.
Proof.
  intros Ho (r & now & ->). destruct o as [d|]; simpl.
  - destruct (Ho d eq_refl) as (r' & now' & ->). reflexivity.
  - reflexivity.
Qed.

Lemma link_graph_empty : link_graph NX.empty.
Proof. intros x y d H. discriminate. Qed.

Lemma link_graph_add_edge G u v (a : dict) :
  link_graph G -> is_link_data a -> link_graph (NX.add_edge G u v a).
Proof.
  intros HG Ha x y d. rewrite get_edge_data_add_edge.
  destruct (decide _) as [_|_]; [|apply HG].
  intros [= <-]. rewrite dict_update_link_data; [exact Ha | | exact Ha].
  intros d'. apply HG.
Qed.

Lemma get_edge_data_add_link G u v (a : dict) x y :
  link_graph G -> is_link_data a ->
  NX.get_edge_data (NX.add_edge G u v a) x y
  = if decide (ukey x y = ukey u v) then Some a else NX.get_edge_data G x y.
Proof.
  intros HG Ha. rewrite get_edge_data_add_edge.
  destruct (decide _) as [_|_]; [|reflexivity].
  rewrite dict_update_link_data; [reflexivity | | exact Ha].
  intros d'. apply HG.
Qed.

(** In the union of two such graphs the second one wins. *)
Lemma get_edge_data_union_links A B u v :
  wf_graph A -> wf_graph B -> link_graph A -> link_graph B ->
  NX.get_edge_data (union_graph NX.empty A B) u v
  = match NX.get_edge_data B u v with
    | Some d => Some d
    | None => NX.get_edge_data A u v
    end.
Proof.
  intros HA HB LA LB. rewrite get_edge_data_union_graph by assumption.
  cbn zeta. change (NX.get_edge_data NX.empty u v) with (@None dict).
  destruct (NX.get_edge_data B u v) as [d|] eqn:EB.
  - f_equal. apply dict_update_link_data; [|exact (LB _ _ _ EB)].
    destruct (NX.get_edge_data A u v) as [d'|] eqn:EA; [|discriminate].
    intros d0 [= <-].
    rewrite (dict_update_link_data None); [|discriminate|]; exact (LA _ _ _ EA).
  - destruct (NX.get_edge_data A u v) as [d'|] eqn:EA; [|reflexivity].
    f_equal. apply (dict_update_link_data None); [discriminate|].
    exact (LA _ _ _ EA).
Qed.

Lemma link_graph_union A B :
  wf_graph A -> wf_graph B -> link_graph A -> link_graph B ->
  link_graph (union_graph NX.empty A B).
Proof.
  intros HA HB LA LB x y d. rewrite get_edge_data_union_links by assumption.
  destruct (NX.get_edge_data B x y) as [d'|] eqn:EB.
  - intros [= <-]. exact (LB _ _ _ EB).
  - apply LA.
Qed.

(** On a dictionary of a record [_merge_edge_data] fails at once: the
    first value it subscripts is the link type. *)
Lemma merge_edge_data_link_data (d : dict) :
  is_link_data d ->
  _merge_edge_data d = Err (TypeError "object is not subscriptable").
Proof. intros (r & now & ->). reflexivity. Qed.

(** So the search for duplicates changes nothing in such a graph: either
    there is no edge, or the first merge raises. *)
Lemma merge_duplicate_raises (st : Node * Node) (w : World) :
  link_graph (topology (self w)) ->
  exists err, merge_duplicate st w = Raise err w.
Proof.
  intros HL. unfold merge_duplicate, bind, get_self.
  destruct (NX.get_edge_data (topology (self w)) st.1 st.2) as [d|] eqn:Ed.
  - rewrite (merge_edge_data_link_data d (HL _ _ _ Ed)). eexists. reflexivity.
  - eexists. reflexivity.
Qed.

Lemma merge_duplicate_links_keeps (w : World) :
  link_graph (topology (self w)) ->
  final_state (_merge_duplicate_links w) = w.
Proof.
  intros HL. unfold _merge_duplicate_links, bind, get_self.
  destruct (duplicate_edges _ _) as [dups|err]; [|reflexivity].
  unfold lift, ret. destruct dups as [|st dups]; [reflexivity|].
  cbn [for_each]. unfold bind.
  destruct (merge_duplicate_raises st w HL) as [err ->]. reflexivity.
Qed.

Lemma merge_topologies_links (w : World) :
  topology (self w) = NX.empty ->
  wf_graph (layer2_topology (self w)) -> wf_graph (layer3_topology (self w)) ->
  link_graph (layer2_topology (self w)) ->
  link_graph (layer3_topology (self w)) ->
  topology (self (final_state (_merge_topologies w)))
  = union_graph NX.empty (layer2_topology (self w)) (layer3_topology (self w)).
Proof.
  intros Ht H2 H3 L2' L3'.
  pose proof (link_graph_union _ _ H2 H3 L2' L3') as HU.
  unfold _merge_topologies, try_except, bind, on_self, modify.
  cbn [self ticks log topology layer2_topology layer3_topology set_topology].
  rewrite Ht. fold (union_graph NX.empty (layer2_topology (self w))
                                 (layer3_topology (self w))).
  match goal with
  | |- context [_merge_duplicate_links ?w0] =>
      pose proof (merge_duplicate_links_keeps w0 HU) as Hkeep;
      destruct (_merge_duplicate_links w0) as [[] w'|err w']
  end; simpl in Hkeep; subst w'; reflexivity.
Qed.

End LinkGraphs.

(** ** Building the graphs from raw records *)

Section Records.

Context (env : Environment).

Implicit Types (G : Graph) (u v x y n : Node) (r : NetworkLink)
  (rs : list NetworkLink).

Lemma add_link_record_run r w :
  add_link_record env r w
  = Ret tt (mkWorld
              (set_layer3_topology
                 (insert_links (clock env) (ticks w) [r] L3
                               (layer3_topology (self w)))
                 (set_layer2_topology
                    (insert_links (clock env) (ticks w) [r] L2
                                  (layer2_topology (self w)))
                    (self w)))
              (S (ticks w)) (log w)).
Proof.
  destruct w as [[] t lg], r as [s d si ti lt [] sp st vl lg' me]; reflexivity.
Qed.

(** The insertion loop fills the two layer graphs and reads the clock
    once per record. *)
Lemma add_links_run rs w :
  for_each rs (add_link_record env) w
  = Ret tt (mkWorld
              (set_layer3_topology
                 (insert_links (clock env) (ticks w) rs L3
                               (layer3_topology (self w)))
                 (set_layer2_topology
                    (insert_links (clock env) (ticks w) rs L2
                                  (layer2_topology (self w)))
                    (self w)))
              (ticks w + length rs) (log w)).
Proof.
  revert w. induction rs as [|r rs IH]; intros w.
  - destruct w as [[] t lg]. simpl. rewrite Nat.add_0_r. reflexivity.
  - cbn [for_each]. unfold bind. rewrite add_link_record_run, IH.
    destruct w as [[] t lg]. simpl. rewrite Nat.add_succ_r. reflexivity.
Qed.

Lemma wf_graph_insert_links clk i rs ly G :
  wf_graph G -> wf_graph (insert_links clk i rs ly G).
Proof.
  revert i G. induction rs as [|r rs IH]; intros i G Hwf; [exact Hwf|].
  cbn [insert_links]. apply IH. destruct (decide _); [|exact Hwf].
  apply wf_graph_add_edge, Hwf.
Qed.

Lemma link_graph_insert_links clk i rs ly G :
  link_graph G -> link_graph (insert_links clk i rs ly G).
Proof.
  revert i G. induction rs as [|r rs IH]; intros i G HL; [exact HL|].
  cbn [insert_links]. apply IH. destruct (decide _); [|exact HL].
  apply link_graph_add_edge; [exact HL|]. exists r, (clk i). reflexivity.
Qed.

Lemma elem_of_nodes_insert_links clk i rs ly G x :
  x ∈ NX.nodes (insert_links clk i rs ly G)
  <-> x ∈ NX.nodes G
      \/ exists r, r ∈ rs /\ layer r = ly
                   /\ (x = source_device r \/ x = target_device r).
Proof.
  revert i G. induction rs as [|r rs IH]; intros i G.
  - simpl. split; [auto | intros [H|(r & H & _)]; [exact H | inversion H]].
  - cbn [insert_links]. rewrite IH. destruct (decide (layer r = ly)) as [E|E].
    + rewrite elem_of_nodes_add_edge. split.
      * intros [[H|H]|(r' & Hin & H)]; auto.
        -- right. exists r. split; [left | auto].
        -- right. exists r'. split; [right; exact Hin | exact H].
      * intros [H|(r' & Hin & Hl & H)]; auto.
        apply elem_of_cons in Hin as [->|Hin]; auto.
        right. exists r'. auto.
    + split.
      * intros [H|(r' & Hin & H)]; auto.
        right. exists r'. split; [right; exact Hin | exact H].
      * intros [H|(r' & Hin & Hl & H)]; auto.
        apply elem_of_cons in Hin as [->|Hin]; [contradiction|].
        right. exists r'. auto.
Qed.

(** An edge of a layer graph carries the dictionary of the last record
    for its node pair. *)
Lemma get_edge_data_insert_links clk i rs ly G u v :
  link_graph G ->
  NX.get_edge_data (insert_links clk i rs ly G) u v
  = lookup_link clk i rs ly u v (NX.get_edge_data G u v).
Proof.
  revert i G. induction rs as [|r rs IH]; intros i G HL; [reflexivity|].
  cbn [insert_links lookup_link]. unfold link_key at 1.
  destruct (decide (layer r = ly)) as [E|E].
  - rewrite IH
      by (apply link_graph_add_edge; [exact HL | exists r, (clk i); reflexivity]).
    f_equal. rewrite get_edge_data_add_link;
      [|exact HL | exists r, (clk i); reflexivity].
    destruct (decide (ukey u v = _)) as [K|K].
    + destruct (decide (_ = (ly, ukey u v))) as [_|N]; [reflexivity|].
      exfalso. apply N. rewrite E, K. reflexivity.
    + destruct (decide (_ = (ly, ukey u v))) as [[= _ K']|_]; [|reflexivity].
      exfalso. apply K. symmetry. exact K'.
  - rewrite IH by exact HL. f_equal.
    destruct (decide (_ = (ly, ukey u v))) as [[= E' _]|_]; [|reflexivity].
    contradiction.
Qed.

Lemma lookup_link_None clk i rs ly u v acc :
  (forall r, r ∈ rs -> link_key r <> (ly, ukey u v)) ->
  lookup_link clk i rs ly u v acc = acc.
Proof.
  revert i acc. induction rs as [|r rs IH]; intros i acc H; [reflexivity|].
  cbn [lookup_link]. rewrite decide_False by (apply H; left).
  apply IH. intros r' Hin. apply H. right. exact Hin.
Qed.

Lemma lookup_link_unique clk i rs ly u v acc r :
  NoDup (map link_key rs) -> r ∈ rs -> link_key r = (ly, ukey u v) ->
  exists now, lookup_link clk i rs ly u v acc = Some (link_data r now).
Proof.
  revert i acc. induction rs as [|r0 rs IH]; intros i acc Hnd Hin Hk;
    [inversion Hin|].
  cbn [map] in Hnd. apply NoDup_cons in Hnd as [Hfresh Hnd].
  cbn [lookup_link]. apply elem_of_cons in Hin as [->|Hin].
  - rewrite decide_True by exact Hk. exists (clk i).
    apply lookup_link_None. intros r' Hin' Hk'. apply Hfresh.
    rewrite Hk, <- Hk'. apply list_elem_of_fmap. exists r'. auto.
  - apply IH; assumption.
Qed.

Lemma without_timestamp_link_data r now :
  without_timestamp (link_data r now) = without_timestamp (link_data r 0).
Proof. reflexivity. Qed.

(** With at most one record per layer and node pair, neither the order
    of the records nor the clock matters. *)
Lemma lookup_link_permutation clk1 clk2 i1 i2 rs1 rs2 ly u v :
  rs1 ≡ₚ rs2 -> NoDup (map link_key rs1) ->
  without_timestamp <$> lookup_link clk1 i1 rs1 ly u v None
  = without_timestamp <$> lookup_link clk2 i2 rs2 ly u v None.
Proof.
  intros Hp Hnd1.
  assert (Hnd2 : NoDup (map link_key rs2)).
  { change (NoDup (link_key <$> rs2)). rewrite <- Hp. exact Hnd1. }
  destruct (decide ((ly, ukey u v) ∈ map link_key rs1)) as [Hin|Hnin].
  - apply list_elem_of_fmap in Hin as (r & Hk & Hin).
    destruct (lookup_link_unique clk1 i1 rs1 ly u v None r Hnd1 Hin (eq_sym Hk))
      as [t1 ->].
    assert (Hin2 : r ∈ rs2) by (rewrite <- Hp; exact Hin).
    destruct (lookup_link_unique clk2 i2 rs2 ly u v None r Hnd2 Hin2 (eq_sym Hk))
      as [t2 ->].
    simpl. rewrite (without_timestamp_link_data r t1),
             (without_timestamp_link_data r t2). reflexivity.
  - rewrite !lookup_link_None; [reflexivity | |].
    + intros r Hin Hk. apply Hnin. apply list_elem_of_fmap. exists r.
      split; [auto | rewrite Hp; exact Hin].
    + intros r Hin Hk. apply Hnin. apply list_elem_of_fmap. exists r. auto.
Qed.

(** The unified graph of a list of records *)
Lemma unified_union rs w :
  unified env rs w
  = union_graph NX.empty
      (insert_links (clock env) (ticks w) rs L2 NX.empty)
      (insert_links (clock env) (ticks w) rs L3 NX.empty).
Proof.
  unfold unified, build_unified, bind. rewrite add_links_run.
  rewrite merge_topologies_links; try reflexivity; simpl;
    first [ apply wf_graph_insert_links, wf_graph_empty
          | apply link_graph_insert_links, link_graph_empty ].
Qed.

Lemma get_edge_data_unified rs w u v :
  NX.get_edge_data (unified env rs w) u v
  = match lookup_link (clock env) (ticks w) rs L3 u v None with
    | Some d => Some d
    | None => lookup_link (clock env) (ticks w) rs L2 u v None
    end.
Proof.
  rewrite unified_union, get_edge_data_union_links;
    try first [ apply wf_graph_insert_links, wf_graph_empty
              | apply link_graph_insert_links, link_graph_empty ].
  rewrite !get_edge_data_insert_links by apply link_graph_empty.
  reflexivity.
Qed.

Lemma elem_of_nodes_unified rs w x :
  x ∈ NX.nodes (unified env rs w)
  <-> exists r, r ∈ rs /\ (layer r = L2 \/ layer r = L3)
                /\ (x = source_device r \/ x = target_device r).
Proof.
  rewrite unified_union, elem_of_nodes_union_graph
    by (apply wf_graph_insert_links, wf_graph_empty).
  rewrite !elem_of_nodes_insert_links. split.
  - intros [H|[[H|H]|[H|H]]]; try (inversion H; fail);
      destruct H as (r & Hin & Hl & H); exists r; auto.
  - intros (r & Hin & [Hl|Hl] & H).
    + right. left. right. exists r. auto.
    + right. right. right. exists r. auto.
Qed.

Lemma wf_graph_unified rs w : wf_graph (unified env rs w).
Proof.
  rewrite unified_union. unfold union_graph.
  apply wf_graph_add_edges_from, wf_graph_add_nodes_from,
    wf_graph_add_edges_from, wf_graph_add_nodes_from, wf_graph_empty.
Qed.

(** An edge of the unified graph carries the dictionary of a record of
    layer L2 or L3. *)
Lemma lookup_link_Some clk i rs ly u v acc d :
  lookup_link clk i rs ly u v acc = Some d ->
  acc = Some d
  \/ exists r now, r ∈ rs /\ layer r = ly /\ d = link_data r now.
Proof.
  revert i acc. induction rs as [|r rs IH]; intros i acc H; [left; exact H|].
  cbn [lookup_link] in H. apply IH in H as [H|(r' & now & Hin & Hl & Hd)].
  - destruct (decide (link_key r = (ly, ukey u v))) as [Hk|_]; [|left; exact H].
    right. exists r, (clk i). injection H as <-. injection Hk as Hl _.
    split; [left | auto].
  - right. exists r', now. split; [right; exact Hin | auto].
Qed.

Lemma unified_edge_origin rs w u v d :
  NX.get_edge_data (unified env rs w) u v = Some d ->
  exists r now, r ∈ rs /\ (layer r = L2 \/ layer r = L3)
                /\ d = link_data r now.
Proof.
  rewrite get_edge_data_unified.
  destruct (lookup_link (clock env) (ticks w) rs L3 u v None) as [d3|] eqn:E3.
  - intros [= <-]. apply lookup_link_Some in E3
      as [E3|(r & now & Hin & Hl & Hd)]; [discriminate|].
    exists r, now. auto.
  - intros E2. apply lookup_link_Some in E2
      as [E2|(r & now & Hin & Hl & Hd)]; [discriminate|].
    exists r, now. auto.
Qed.

End Records.

(** C10 — links of another layer than L2 and L3 are dropped in silence.
    [_add_link] with such a layer tag (the enumeration leaves only L4)
    reads the clock and returns normally: the manager, both layer graphs
    and the unified graph included, and the log are unchanged. So every
    edge of a unified graph built from raw records stems from a record of
    layer L2 or L3. *)
Theorem add_link_other_layer_dropped (env : Environment)
    (source target : Node) (link_type : LinkType) (layer0 : LayerType)
    (source_interface target_interface : string) (kwargs : dict) (w : World) :
  layer0 <> L2 -> layer0 <> L3 ->
  layer0 = L4
  /\ (exists w',
        _add_link env source target link_type layer0 source_interface
                  target_interface kwargs w = Ret tt w'
        /\ self w' = self w /\ log w' = log w)
  /\ (forall rs u v d,
         NX.get_edge_data (unified env rs w) u v = Some d ->
         exists r now, r ∈ rs /\ layer r <> layer0 /\ d = link_data r now).
Proof.
  intros H2 H3. destruct layer0; try contradiction.
  split; [reflexivity|]. split.
  - exists (tick w). repeat split.
  - intros rs u v d Hd.
    destruct (unified_edge_origin env rs w u v d Hd)
      as (r & now & Hin & Hl & Hdata).
    exists r, now. split; [exact Hin|]. split; [|exact Hdata].
    destruct Hl as [-> | ->]; discriminate.
Qed.

Lemma add_link_other_layer_dropped_witness :
  L4 = L4
  /\ (exists w',
        _add_link lldp_environment "A" "B" LOGICAL L4 "tcp/179" "tcp/179" []
                  published_world = Ret tt w'
        /\ self w' = self published_world /\ log w' = log published_world)
  /\ (forall rs u v d,
         NX.get_edge_data (unified lldp_environment rs published_world) u v
         = Some d ->
         exists r now, r ∈ rs /\ layer r <> L4 /\ d = link_data r now).
Proof.
  apply (add_link_other_layer_dropped lldp_environment "A" "B" LOGICAL L4
           "tcp/179" "tcp/179" [] published_world); discriminate.
Defined.

(** A record of layer L4 among the raw records leaves no trace. *)
Example layer4_record_evaluated :
  unified frozen_environment
    [observed_link "A" "B" LOGICAL L4 "tcp/179" "tcp/179"] fresh_world
  = NX.empty
  /\ log (final_state
            (build_unified frozen_environment
               [observed_link "A" "B" LOGICAL L4 "tcp/179" "tcp/179"]
               (cleared fresh_world)))
     = [].
Proof. vm_compute. split; reflexivity. Qed.

(** C2 (counterexample) — the merge depends on the order of the
    records. Two records for the same node pair and layer, presented in
    the two possible orders to a clock that stands still, give unified
    graphs whose edge A–B carries different interfaces: the later record
    overwrites the earlier one. And two records for different node pairs,
    presented in the two orders to a clock that advances, give the edge
    A–B different time stamps. *)
Lemma merge_order_counterexample :
  [link_AB_eth0; link_AB_eth2] ≡ₚ [link_AB_eth2; link_AB_eth0]
  /\ NX.get_edge_data
       (unified frozen_environment [link_AB_eth0; link_AB_eth2] fresh_world)
       "A" "B"
     <> NX.get_edge_data
          (unified frozen_environment [link_AB_eth2; link_AB_eth0] fresh_world)
          "A" "B"
  /\ [link_AB_eth0; link_BC_route] ≡ₚ [link_BC_route; link_AB_eth0]
  /\ NX.get_edge_data
       (unified lldp_environment [link_AB_eth0; link_BC_route] fresh_world)
       "A" "B"
     <> NX.get_edge_data
          (unified lldp_environment [link_BC_route; link_AB_eth0] fresh_world)
          "A" "B".
Proof.
  split; [apply perm_swap|]. split; [vm_compute; discriminate|].
  split; [apply perm_swap | vm_compute; discriminate].
Qed.

(** C2 (amended) — for records that are pairwise for different layers
    or node pairs, the unified graph does not depend on their order, nor
    on when it is built: any two builds from permutations of the list have
    the same nodes, the same edges and, the insertion time stamp apart,
    the same attributes on every edge. *)
Theorem merge_order_independent_for_distinct_links
    (env1 env2 : Environment) (w1 w2 : World) (rs1 rs2 : list NetworkLink) :
  rs1 ≡ₚ rs2 ->
  NoDup (map link_key rs1) ->
  (forall n, NX.has_node (unified env1 rs1 w1) n
             = NX.has_node (unified env2 rs2 w2) n)
  /\ (forall u v, NX.has_edge (unified env1 rs1 w1) u v
                  = NX.has_edge (unified env2 rs2 w2) u v)
  /\ (forall u v,
         without_timestamp <$> NX.get_edge_data (unified env1 rs1 w1) u v
         = without_timestamp <$> NX.get_edge_data (unified env2 rs2 w2) u v).
Proof.
  intros Hp Hnd.
  assert (Hdata : forall u v,
             without_timestamp <$> NX.get_edge_data (unified env1 rs1 w1) u v
             = without_timestamp <$> NX.get_edge_data (unified env2 rs2 w2) u v).
  { intros u v. rewrite !get_edge_data_unified.
    pose proof (lookup_link_permutation (clock env1) (clock env2)
                  (ticks w1) (ticks w2) rs1 rs2 L3 u v Hp Hnd) as H3.
    pose proof (lookup_link_permutation (clock env1) (clock env2)
                  (ticks w1) (ticks w2) rs1 rs2 L2 u v Hp Hnd) as H2.
    destruct (lookup_link (clock env1) (ticks w1) rs1 L3 u v None),
             (lookup_link (clock env2) (ticks w2) rs2 L3 u v None);
      simpl in H3; try discriminate; assumption. }
  split; [|split; [|exact Hdata]].
  - intros n. unfold NX.has_node. apply bool_decide_ext.
    rewrite !elem_of_nodes_unified. split.
    + intros (r & Hin & H). exists r. split; [rewrite <- Hp; exact Hin | exact H].
    + intros (r & Hin & H). exists r. split; [rewrite Hp; exact Hin | exact H].
  - intros u v. unfold NX.has_edge. apply bool_decide_ext.
    specialize (Hdata u v).
    destruct (NX.get_edge_data (unified env1 rs1 w1) u v),
             (NX.get_edge_data (unified env2 rs2 w2) u v);
      simpl in Hdata; try discriminate; [|reflexivity].
    split; intros _; eauto.
Qed.

Lemma merge_order_independent_for_distinct_links_witness :
  (forall n,
      NX.has_node (unified frozen_environment
                     [link_AB_eth0; link_BC_route]
                     fresh_world) n
      = NX.has_node (unified lldp_environment
                       [link_BC_route; link_AB_eth0]
                       published_world) n)
  /\ (forall u v,
         NX.has_edge (unified frozen_environment
                        [link_AB_eth0; link_BC_route]
                        fresh_world) u v
         = NX.has_edge (unified lldp_environment
                          [link_BC_route; link_AB_eth0]
                          published_world) u v)
  /\ (forall u v,
         without_timestamp <$>
           NX.get_edge_data (unified frozen_environment
                               [link_AB_eth0;
                                link_BC_route]
                               fresh_world) u v
         = without_timestamp <$>
             NX.get_edge_data (unified lldp_environment
                                 [link_BC_route;
                                  link_AB_eth0]
                                 published_world) u v).
Proof.
  apply (merge_order_independent_for_distinct_links
           frozen_environment lldp_environment fresh_world published_world
           [link_AB_eth0; link_BC_route]
           [link_BC_route; link_AB_eth0]).
  - apply perm_swap.
  - apply (bool_decide_eq_true_1 _). vm_compute. reflexivity.
Defined.

(** C3 — two records for the same node pair and layer. The unified
    graph has at most one edge per node pair, and has the edge; but the
    edge carries the attribute dictionary of the second record alone: it
    has no interface set, and the interfaces of the first record are
    gone. ([_merge_edge_data], which would build the set, is applied to the
    attribute dictionary of the single edge and raises.) *)
Theorem duplicate_links_keep_last_record
    (env : Environment) (w : World) (r1 r2 : NetworkLink) :
  same_link r1 r2 -> layer r1 <> L4 ->
  NoDup (map ekey (NX.g_edge (unified env [r1; r2] w)))
  /\ exists d,
      NX.get_edge_data (unified env [r1; r2] w)
                       (source_device r1) (target_device r1) = Some d
      /\ d = link_data r2 (clock env (S (ticks w)))
      /\ dict_get d "interfaces" = None
      /\ dict_get d "source_interface" = Some (VStr (source_interface r2))
      /\ dict_get d "target_interface" = Some (VStr (target_interface r2)).
Proof.
  intros [Hl Hp] H4. split; [apply wf_graph_unified|].
  exists (link_data r2 (clock env (S (ticks w)))).
  split; [|repeat split].
  rewrite get_edge_data_unified. cbn [lookup_link].
  assert (K : ukey (source_device r2) (target_device r2)
              = ukey (source_device r1) (target_device r1))
    by (symmetry; apply ukey_eq; exact Hp).
  unfold link_key. rewrite K, <- Hl.
  destruct (layer r1) eqn:E; try contradiction.
  - rewrite !(decide_False (P := (L2, _) = (L3, _))) by discriminate.
    rewrite !(decide_True (P := (L2, _) = (L2, _))) by reflexivity.
    reflexivity.
  - rewrite !(decide_True (P := (L3, _) = (L3, _))) by reflexivity.
    reflexivity.
Qed.

Lemma duplicate_links_keep_last_record_witness :
  NoDup (map ekey (NX.g_edge
           (unified frozen_environment [link_AB_eth0; link_AB_eth2] fresh_world)))
  /\ exists d,
      NX.get_edge_data
        (unified frozen_environment [link_AB_eth0; link_AB_eth2] fresh_world)
        (source_device link_AB_eth0) (target_device link_AB_eth0) = Some d
      /\ d = link_data link_AB_eth2
                       (clock frozen_environment (S (ticks fresh_world)))
      /\ dict_get d "interfaces" = None
      /\ dict_get d "source_interface"
         = Some (VStr (source_interface link_AB_eth2))
      /\ dict_get d "target_interface"
         = Some (VStr (target_interface link_AB_eth2)).
Proof.
  apply (duplicate_links_keep_last_record frozen_environment fresh_world
           link_AB_eth0 link_AB_eth2).
  - split; [reflexivity | left; split; reflexivity].
  - discriminate.
Defined.

(** The same input, evaluated: one edge, with the interfaces of the
    second record, and the error of the merge in the log. *)
Example duplicate_links_evaluated :
  NX.g_edge (unified frozen_environment [link_AB_eth0; link_AB_eth2] fresh_world)
  = [("A", "B", [("link_type", VLinkType PHYSICAL); ("layer", VLayerType L2);
                 ("source_interface", VStr "eth2");
                 ("target_interface", VStr "eth3");
                 ("timestamp", VFloat 4000)])]
  /\ log (final_state
            (build_unified frozen_environment [link_AB_eth0; link_AB_eth2]
                           (cleared fresh_world)))
     = [LogError "Error merging topologies"
                 (Some (TypeError "object is not subscriptable"))].
Proof. vm_compute. split; reflexivity. Qed.

(** ** Simple paths *)

Section SimplePaths.

Implicit Types (G : Graph) (u v x y s t cur : Node) (p ext visited : list Node).

(** What the depth-first enumeration returns: the extensions of
    [visited] by a walk from [cur] that ends in [t], repeats no node,
    avoids [visited] and has at most [cutoff] nodes. *)
Lemma simple_paths_dfs_spec G cutoff visited cur t p :
  t ∉ visited ->
  p ∈ NX.simple_paths_dfs G cutoff visited cur [t]
  <-> exists ext,
        p = visited ++ ext /\ (0 < length ext <= cutoff)%nat
        /\ walk G (cur :: ext) /\ NoDup ext
        /\ (forall x, x ∈ ext -> x ∉ visited) /\ last ext = Some t.
Proof.
  revert visited cur p.
  induction cutoff as [|c IH]; intros visited cur p Ht; cbn [NX.simple_paths_dfs].
  - split; [intros H; inversion H | intros (ext & _ & Hlen & _); lia].
  - assert (Hstep : forall child, child ∉ visited ->
      (if decide (child ∈ [t]) then [visited ++ [child]] else [])
      ++ (if decide (Forall (fun t0 => t0 ∈ visited ++ [child]) [t]) then []
          else NX.simple_paths_dfs G c (visited ++ [child]) child [t])
      = if decide (child = t) then [visited ++ [child]]
        else NX.simple_paths_dfs G c (visited ++ [child]) child [t]).
    { intros child Hv. destruct (decide (child = t)) as [->|Hne].
      - rewrite decide_True by left. rewrite decide_True; [reflexivity|].
        rewrite Forall_singleton. apply elem_of_app. right. left.
      - rewrite decide_False
          by (intros H; apply list_elem_of_singleton in H; auto).
        rewrite decide_False; [reflexivity|].
        intros H. rewrite Forall_singleton in H.
        apply elem_of_app in H as [H|H]; [auto|].
        apply list_elem_of_singleton in H. auto. }
    rewrite list_elem_of_In, in_flat_map. split.
    + intros (child & Hchild & Hp). apply list_elem_of_In in Hchild.
      destruct (decide (child ∈ visited)) as [Hv|Hv]; [inversion Hp|].
      rewrite (Hstep child Hv) in Hp.
      destruct (decide (child = t)) as [->|Hne].
      * destruct Hp as [<-|[]]. exists [t]. repeat split; simpl; try lia; auto.
        -- apply NoDup_singleton.
        -- intros x Hx. apply list_elem_of_singleton in Hx. subst. exact Hv.
      * apply list_elem_of_In, IH in Hp
          as (ext & -> & Hlen & Hw & Hnd & Hav & Hl).
        2:{ intros Hc. apply elem_of_app in Hc as [H1|H1]; [auto|].
            apply list_elem_of_singleton in H1. auto. }
        exists (child :: ext). rewrite <- app_assoc. repeat split; simpl; try lia; auto.
        -- apply NoDup_cons. split; [|exact Hnd].
           intros Hin. apply (Hav _ Hin). apply elem_of_app. right. left.
        -- intros x Hx. apply elem_of_cons in Hx as [->|Hx]; [exact Hv|].
           intros Hxv. apply (Hav _ Hx). apply elem_of_app. left. exact Hxv.
        -- destruct ext; [simpl in Hlen; lia | exact Hl].
    + intros (ext & -> & Hlen & Hw & Hnd & Hav & Hl).
      destruct ext as [|child ext]; [simpl in Hlen; lia|].
      destruct Hw as [Hchild Hw]. exists child.
      split; [apply list_elem_of_In; exact Hchild|].
      apply NoDup_cons in Hnd as [Hfresh Hnd].
      rewrite decide_False by (apply Hav; left).
      rewrite (Hstep child) by (apply Hav; left).
      destruct (decide (child = t)) as [->|Hne].
      * destruct ext as [|y ext]; [left; reflexivity|].
        exfalso. apply Hfresh. rewrite last_cons_cons in Hl.
        apply last_Some_elem_of. exact Hl.
      * destruct ext as [|y ext]; [simpl in Hl; congruence|].
        rewrite last_cons_cons in Hl.
        apply list_elem_of_In, IH.
        { intros Hc. apply elem_of_app in Hc as [H1|H1]; [auto|].
          apply list_elem_of_singleton in H1. auto. }
        exists (y :: ext). rewrite <- app_assoc.
        split; [reflexivity|]. split; [simpl in *; lia|].
        split; [exact Hw|]. split; [exact Hnd|]. split; [|exact Hl].
        intros x Hx Hxv. apply elem_of_app in Hxv as [Hxv|Hxv].
        -- apply (Hav x); [right; exact Hx | exact Hxv].
        -- apply list_elem_of_singleton in Hxv. subst. auto.
Qed.

(** The nodes on a walk that starts at a node of a well-formed graph are
    nodes of the graph. *)
Lemma neighbors_nodes G a b :
  wf_graph G -> b ∈ NX.neighbors G a -> a ∈ NX.nodes G /\ b ∈ NX.nodes G.
Proof.
  intros (_ & _ & He) Hb. unfold NX.neighbors in Hb.
  apply list_elem_of_fmap in Hb as ([b' d] & -> & Hin).
  apply elem_of_adj in Hin as (e & Hin & _ & Hends).
  rewrite Forall_forall in He. destruct (He e Hin) as [H1 H2].
  simpl. destruct Hends as [[<- <-]|[<- <-]]; auto.
Qed.

Lemma walk_nodes G p :
  wf_graph G -> walk G p ->
  forall a, head p = Some a -> a ∈ NX.nodes G ->
  forall x, x ∈ p -> x ∈ NX.nodes G.
Proof.
  intros Hwf. induction p as [|a0 p IH]; intros Hw a Hh Ha x Hx; [inversion Hx|].
  injection Hh as ->. apply elem_of_cons in Hx as [->|Hx]; [exact Ha|].
  destruct p as [|b p]; [inversion Hx|]. destruct Hw as [Hb Hw].
  apply (IH Hw b eq_refl); [|exact Hx].
  apply (neighbors_nodes G a b Hwf Hb).
Qed.

Lemma simple_path_length G s t p :
  wf_graph G -> s ∈ NX.nodes G -> simple_path G s t p ->
  (length p <= length (NX.nodes G))%nat.
Proof.
  intros Hwf Hs (Hw & Hnd & Hh & _).
  apply submseteq_length, NoDup_submseteq; [exact Hnd|].
  apply (walk_nodes G p Hwf Hw s Hh Hs).
Qed.

(** [nx.all_simple_paths] between two different nodes of the graph
    returns the simple paths between them, all of them. *)
Lemma all_simple_paths_spec G s t :
  wf_graph G -> s ∈ NX.nodes G -> t ∈ NX.nodes G -> s <> t ->
  exists ps, NX.all_simple_paths G s t = Ok ps
             /\ forall p, p ∈ ps <-> simple_path G s t p.
Proof.
  intros Hwf Hs Ht Hne. unfold NX.all_simple_paths.
  rewrite (proj2 (has_node_true G s) Hs), (proj2 (has_node_true G t) Ht).
  cbn [negb].
  rewrite decide_False by (intros H; apply list_elem_of_singleton in H; auto).
  rewrite decide_False
    by (rewrite Forall_singleton, list_elem_of_singleton; auto).
  cbn [app].
  eexists. split; [reflexivity|]. intros p.
  rewrite simple_paths_dfs_spec
    by (intros H; apply list_elem_of_singleton in H; auto).
  split.
  - intros (ext & -> & Hlen & Hw & Hnd & Hav & Hl).
    repeat split; auto.
    + apply NoDup_cons. split; [|exact Hnd].
      intros Hin. apply (Hav _ Hin). left.
    + simpl. destruct ext; [simpl in Hlen; lia | exact Hl].
  - intros Hp. pose proof (simple_path_length G s t p Hwf Hs Hp) as Hlen.
    destruct Hp as (Hw & Hnd & Hh & Hl).
    destruct p as [|s' ext]; [discriminate|]. injection Hh as ->.
    exists ext. apply NoDup_cons in Hnd as [Hfresh Hnd].
    destruct ext as [|y ext]; [simpl in Hl; congruence|].
    rewrite last_cons_cons in Hl.
    split; [reflexivity|]. split; [simpl in *; lia|].
    split; [exact Hw|]. split; [exact Hnd|]. split; [|exact Hl].
    intros x Hx Hxs. apply list_elem_of_singleton in Hxs. subst. auto.
Qed.

End SimplePaths.

(** C8 (counterexample) — no bound on the enumeration. On the complete
    graph on four nodes, with a configuration that asks for at most two
    paths of at most two edges, the query returns all five simple paths
    from A to D, the three-edge ones included. *)
Lemma redundant_paths_bound_counterexample :
  config (self dense_world)
  = [("max_redundant_paths", 2); ("max_path_length", 2)]
  /\ get_redundant_paths "A" "D" dense_world
     = Ret [["A"; "B"; "C"; "D"]; ["A"; "B"; "D"]; ["A"; "C"; "B"; "D"];
            ["A"; "C"; "D"]; ["A"; "D"]] dense_world.
Proof. vm_compute. split; reflexivity. Qed.

(** C8 (amended) — the redundant-paths query is exhaustive. For two
    different nodes of the published graph it returns, without reading any
    configured bound, the simple paths from the one to the other: every
    list it returns is one, and every one is returned. *)
Theorem redundant_paths_exhaustive (source target : Node) (w : World) :
  wf_graph (topology (self w)) ->
  source ∈ NX.nodes (topology (self w)) ->
  target ∈ NX.nodes (topology (self w)) ->
  source <> target ->
  exists paths,
    get_redundant_paths source target w = Ret paths w
    /\ forall p, p ∈ paths <-> simple_path (topology (self w)) source target p.
Proof.
  intros Hwf Hs Ht Hne.
  destruct (all_simple_paths_spec _ _ _ Hwf Hs Ht Hne) as (paths & Hok & Hspec).
  exists paths. split; [|exact Hspec].
  unfold get_redundant_paths, try_except, bind, get_self. rewrite Hok.
  reflexivity.
Qed.

Lemma redundant_paths_exhaustive_witness :
  exists paths,
    get_redundant_paths "A" "D" dense_world = Ret paths dense_world
    /\ forall p, p ∈ paths
                 <-> simple_path (topology (self dense_world)) "A" "D" p.
Proof.
  apply (redundant_paths_exhaustive "A" "D" dense_world).
  - unfold wf_graph. apply (bool_decide_eq_true_1 _). vm_compute. reflexivity.
  - apply (bool_decide_eq_true_1 _). vm_compute. reflexivity.
  - apply (bool_decide_eq_true_1 _). vm_compute. reflexivity.
  - discriminate.
Defined.

(** When the source is not in the graph, the error of the library is
    caught and the query returns the empty list. *)
Lemma redundant_paths_absent_source (source target : Node) (w : World) :
  NX.has_node (topology (self w)) source = false ->
  exists w', get_redundant_paths source target w = Ret [] w'
             /\ self w' = self w.
Proof.
  intros Habsent.
  unfold get_redundant_paths, try_except, bind, get_self, NX.all_simple_paths.
  rewrite Habsent. simpl. eexists. split; reflexivity.
Qed.

(** ** Connectivity and bridges *)

Section Connectivity.

Implicit Types (G : Graph) (u v x y a b s t : Node) (p l : list Node).

Lemma elem_of_neighbors G a b :
  b ∈ NX.neighbors G a
  <-> exists e, e ∈ NX.g_edge G /\ ekey e = ukey a b.
Proof.
  unfold NX.neighbors. rewrite list_elem_of_fmap. split.
  - intros ([b' d] & -> & Hin).
    apply elem_of_adj in Hin as (e & Hin & _ & Hends).
    exists e. split; [exact Hin|]. unfold ekey. apply ukey_eq. simpl. tauto.
  - intros (e & Hin & Hk). exists (b, e.2). split; [reflexivity|].
    apply elem_of_adj. exists e. split; [exact Hin|]. split; [reflexivity|].
    unfold ekey in Hk. apply ukey_eq in Hk. tauto.
Qed.

Lemma neighbors_sym G a b : b ∈ NX.neighbors G a -> a ∈ NX.neighbors G b.
Proof.
  rewrite !elem_of_neighbors. intros (e & Hin & Hk).
  exists e. split; [exact Hin|]. rewrite Hk. apply ukey_comm.
Qed.

Lemma connected_sym G u v : connected G u v -> connected G v u.
Proof.
  unfold connected. induction 1 as [|x y z Hxy _ IH]; [apply rtc_refl|].
  eapply rtc_r; [exact IH|]. apply neighbors_sym, Hxy.
Qed.

Lemma connected_trans G u v x :
  connected G u v -> connected G v x -> connected G u x.
Proof. unfold connected. intros H1 H2. etransitivity; eassumption. Qed.

Lemma connected_step G u v : v ∈ NX.neighbors G u -> connected G u v.
Proof. intros H. apply rtc_once, H. Qed.

Lemma walk_app_r G l1 l2 : walk G (l1 ++ l2) -> walk G l2.
Proof.
  induction l1 as [|a l1 IH]; [auto|]. intros Hw. apply IH.
  destruct l1 as [|b l1]; simpl in *.
  - destruct l2; [exact I | apply Hw].
  - apply Hw.
Qed.

Lemma walk_connected G a ext b :
  walk G (a :: ext) -> last (a :: ext) = Some b -> connected G a b.
Proof.
  revert a. induction ext as [|x ext IH]; intros a Hw Hl.
  - injection Hl as ->. apply rtc_refl.
  - destruct Hw as [Hx Hw]. rewrite last_cons_cons in Hl.
    eapply rtc_l; [exact Hx|]. apply IH; assumption.
Qed.

(** Two different connected nodes are joined by a simple path. *)
Lemma connected_simple_path G u v :
  connected G u v -> u <> v -> exists p, simple_path G u v p.
Proof.
  unfold connected. induction 1 as [|x y z Hxy Hyz IH]; [congruence|].
  intros Hne. destruct (decide (y = z)) as [->|Hyz'].
  - exists [x; z]. repeat split; auto.
    apply NoDup_cons. split; [|apply NoDup_singleton].
    intros H. apply list_elem_of_singleton in H. auto.
  - destruct (IH Hyz') as (p & Hw & Hnd & Hh & Hl).
    destruct (decide (x ∈ p)) as [Hin|Hnin].
    + apply list_elem_of_split in Hin as (l1 & l2 & ->).
      exists (x :: l2). split; [exact (walk_app_r _ _ _ Hw)|].
      split; [apply NoDup_app in Hnd; apply Hnd|].
      split; [reflexivity|].
      rewrite last_app_cons in Hl. exact Hl.
    + exists (x :: p). destruct p as [|y' p]; [discriminate|].
      injection Hh as ->. repeat split; auto.
      apply NoDup_cons. auto.
Qed.

(** [has_path] decides connectivity. *)
Lemma has_path_connected G u v :
  wf_graph G -> u ∈ NX.nodes G ->
  NX.has_path G u v = true <-> connected G u v.
Proof.
  intros Hwf Hu. unfold NX.has_path.
  destruct (decide (u = v)) as [->|Hne].
  - rewrite bool_decide_eq_true_2 by reflexivity. simpl.
    split; [intros _; apply rtc_refl | reflexivity].
  - rewrite bool_decide_eq_false_2 by exact Hne. simpl.
    rewrite negb_true_iff, bool_decide_eq_false.
    assert (Hv : v ∉ [u])
      by (intros H; apply list_elem_of_singleton in H; auto).
    split.
    + intros Hne'.
      destruct (NX.simple_paths_dfs G _ [u] u [v]) as [|p ps] eqn:E;
        [congruence|].
      assert (Hp : p ∈ NX.simple_paths_dfs G (length (NX.nodes G) - 1) [u] u [v])
        by (rewrite E; left).
      apply simple_paths_dfs_spec in Hp as (ext & _ & Hlen & Hw & _ & _ & Hl);
        [|exact Hv].
      apply (walk_connected G u ext v Hw).
      destruct ext; [simpl in Hlen; lia | exact Hl].
    + intros Hc Hnil.
      destruct (connected_simple_path G u v Hc Hne) as (p & Hp).
      pose proof (simple_path_length G u v p Hwf Hu Hp) as Hlen.
      destruct Hp as (Hw & Hnd & Hh & Hl).
      destruct p as [|u' ext]; [discriminate|]. injection Hh as ->.
      apply NoDup_cons in Hnd as [Hfresh Hnd].
      destruct ext as [|y ext]; [simpl in Hl; congruence|].
      assert (Hp : (u :: y :: ext)
                   ∈ NX.simple_paths_dfs G (length (NX.nodes G) - 1) [u] u [v]).
      { apply simple_paths_dfs_spec; [exact Hv|]. exists (y :: ext).
        split; [reflexivity|]. split; [simpl in *; lia|].
        split; [exact Hw|]. split; [exact Hnd|].
        split; [|rewrite last_cons_cons in Hl; exact Hl].
        intros x Hx Hxu. apply list_elem_of_singleton in Hxu. subst. auto. }
      rewrite Hnil in Hp. inversion Hp.
Qed.

Lemma wf_graph_without_edge G u v :
  wf_graph G -> wf_graph (NX.without_edge G u v).
Proof.
  intros (Hn & Hk & He). repeat split; [exact Hn | |].
  - simpl. eapply sublist_NoDup; [exact Hk|].
    apply (fmap_sublist ekey), sublist_filter.
  - simpl. apply Forall_forall. intros e Hin.
    apply list_elem_of_filter in Hin as [_ Hin].
    rewrite Forall_forall in He. exact (He e Hin).
Qed.

Lemma elem_of_neighbors_without_edge G u v a b :
  b ∈ NX.neighbors (NX.without_edge G u v) a
  <-> b ∈ NX.neighbors G a /\ ukey a b <> ukey u v.
Proof.
  rewrite !elem_of_neighbors. simpl. split.
  - intros (e & Hin & Hk). apply list_elem_of_filter in Hin as [Hj Hin].
    split; [exists e; auto|]. rewrite <- Hk. apply joins_false, Hj.
  - intros [(e & Hin & Hk) Hne]. exists e. split; [|exact Hk].
    apply list_elem_of_filter. split; [|exact Hin].
    apply joins_false. congruence.
Qed.

(** An edge is reported by [nx.bridges] exactly when its end points are
    no longer connected once it is removed. *)
Lemma elem_of_bridges G u v :
  wf_graph G ->
  (u, v) ∈ NX.bridges G
  <-> (u, v) ∈ NX.edges G /\ ~ connected (NX.without_edge G u v) u v.
Proof.
  intros Hwf. unfold NX.bridges. rewrite list_elem_of_filter. simpl.
  assert (Hnode : (u, v) ∈ NX.edges G ->
                  u ∈ NX.nodes (NX.without_edge G u v)).
  { intros H. unfold NX.edges in H.
    apply list_elem_of_fmap in H as (e & He & Hin).
    destruct (edges_data_nodes G e Hwf Hin) as [Ha _].
    rewrite <- He in Ha. exact Ha. }
  split.
  - intros [H1 H2]. split; [exact H2|].
    rewrite <- (has_path_connected _ u v (wf_graph_without_edge G u v Hwf)
                                   (Hnode H2)).
    rewrite H1. discriminate.
  - intros [H1 H2]. split; [|exact H1].
    rewrite <- (has_path_connected _ u v (wf_graph_without_edge G u v Hwf)
                                   (Hnode H1)) in H2.
    destruct (NX.has_path _ u v); [contradiction | reflexivity].
Qed.

End Connectivity.

(** Two nodes of the graph that are not connected: [get_path] logs the
    error of the library and returns the empty list. *)
Lemma get_path_disconnected (source target : Node) (w : World) :
  wf_graph (topology (self w)) ->
  source ∈ NX.nodes (topology (self w)) ->
  target ∈ NX.nodes (topology (self w)) ->
  ~ connected (topology (self w)) source target ->
  exists w', get_path source target w = Ret [] w' /\ self w' = self w.
Proof.
  intros Hwf Hs Ht Hnc.
  assert (Hp : NX.has_path (topology (self w)) source target = false).
  { destruct (NX.has_path _ source target) eqn:E; [|reflexivity].
    apply has_path_connected in E; [contradiction | exact Hwf | exact Hs]. }
  unfold NX.has_path in Hp. apply orb_false_iff in Hp as [Hne Hnil].
  apply bool_decide_eq_false in Hne.
  apply negb_false_iff, bool_decide_eq_true in Hnil.
  unfold get_path, try_except_class, bind, get_self, NX.shortest_path.
  rewrite (proj2 (has_node_true _ source) Hs),
    (proj2 (has_node_true _ target) Ht).
  cbn [negb orb]. rewrite decide_False by exact Hne.
  rewrite Hnil. simpl. eexists. split; reflexivity.
Qed.

(** ** Graphs given by a list of nodes and a list of pairs *)

Section EdgeListGraphs.

Implicit Types (G : Graph) (u v x y a b n m : Node) (l : list Node)
  (es : list (Node * Node)).

Lemma wf_graph_graph_of l es : wf_graph (graph_of l es).
Proof.
  apply wf_graph_add_edges_from, wf_graph_add_nodes_from, wf_graph_empty.
Qed.

Lemma nodes_add_nodes_from_new l G :
  NoDup (NX.nodes G ++ l) ->
  NX.nodes (NX.add_nodes_from G (map (fun n => (n, [])) l)) = NX.nodes G ++ l.
Proof.
  revert G. induction l as [|n l IH]; intros G Hnd.
  - simpl. rewrite app_nil_r. reflexivity.
  - cbn [map].
    change (NX.add_nodes_from G ((n, []) :: ?k))
      with (NX.add_nodes_from (NX.add_node G n []) k).
    assert (Hn : NX.nodes (NX.add_node G n []) = NX.nodes G ++ [n]).
    { rewrite nodes_add_node. rewrite decide_False; [reflexivity|].
      apply NoDup_app in Hnd as (_ & Hdis & _).
      intros Hin. apply (Hdis n Hin). left. }
    rewrite IH; rewrite Hn, <- app_assoc; [reflexivity | exact Hnd].
Qed.

Lemma nodes_add_edges_from_old (ds : list (Node * Node * dict)) G :
  Forall (fun e : Node * Node * dict =>
            e.1.1 ∈ NX.nodes G /\ e.1.2 ∈ NX.nodes G) ds ->
  NX.nodes (NX.add_edges_from G ds) = NX.nodes G.
Proof.
  revert G. induction ds as [|e ds IH]; intros G Hin; [reflexivity|].
  apply Forall_cons in Hin as [[Ha Hb] Hin].
  change (NX.add_edges_from G (e :: ds))
    with (NX.add_edges_from (NX.add_edge G e.1.1 e.1.2 e.2) ds).
  assert (Hn : NX.nodes (NX.add_edge G e.1.1 e.1.2 e.2) = NX.nodes G).
  { unfold NX.add_edge.
    change (NX.nodes (NX.mkGraph ?a ?b)) with (map fst a).
    change (map fst (NX.g_node ?g)) with (NX.nodes g).
    rewrite nodes_add_node, decide_True;
      rewrite nodes_add_node, decide_True by exact Ha; [reflexivity | exact Hb]. }
  rewrite IH; rewrite Hn; [reflexivity | exact Hin].
Qed.

Lemma nodes_graph_of l es :
  NoDup l -> Forall (fun ab => ab.1 ∈ l /\ ab.2 ∈ l) es ->
  NX.nodes (graph_of l es) = l.
Proof.
  intros Hnd Hes. unfold graph_of.
  assert (Hl : NX.nodes (NX.add_nodes_from NX.empty (map (fun n => (n, [])) l))
               = l)
    by (rewrite nodes_add_nodes_from_new; [reflexivity | exact Hnd]).
  rewrite nodes_add_edges_from_old; [exact Hl|].
  rewrite Hl. apply Forall_fmap. exact Hes.
Qed.

Lemma g_edge_add_nodes_from (ns : list (Node * dict)) G :
  NX.g_edge (NX.add_nodes_from G ns) = NX.g_edge G.
Proof.
  revert G. induction ns as [|nd ns IH]; intros G; [reflexivity|].
  change (NX.add_nodes_from G (nd :: ns))
    with (NX.add_nodes_from (NX.add_node G nd.1 nd.2) ns).
  rewrite IH. reflexivity.
Qed.

Lemma keys_add_edges_from (ds : list (Node * Node * dict)) G k :
  k ∈ map ekey (NX.g_edge (NX.add_edges_from G ds))
  <-> k ∈ map ekey (NX.g_edge G) \/ k ∈ map ekey ds.
Proof.
  revert G. induction ds as [|e ds IH]; intros G.
  - simpl. split; [auto | intros [H|H]; [exact H | inversion H]].
  - change (NX.add_edges_from G (e :: ds))
      with (NX.add_edges_from (NX.add_edge G e.1.1 e.1.2 e.2) ds).
    rewrite IH. unfold NX.add_edge. cbn [NX.g_edge NX.add_node map].
    rewrite keys_update_edge, elem_of_cons. unfold ekey at 4.
    destruct (decide _) as [Hin|Hnin].
    + split; [tauto|]. intros [H|[->|H]]; auto.
    + rewrite elem_of_app, list_elem_of_singleton. tauto.
Qed.

Lemma elem_of_neighbors_graph_of l es a b :
  b ∈ NX.neighbors (graph_of l es) a <-> (a, b) ∈ es \/ (b, a) ∈ es.
Proof.
  rewrite elem_of_neighbors. unfold graph_of. split.
  - intros (e & Hin & Hk).
    assert (Hk' : ukey a b ∈ map ekey (NX.g_edge
              (NX.add_edges_from
                 (NX.add_nodes_from NX.empty (map (fun n => (n, [])) l))
                 (map no_data es)))).
    { rewrite <- Hk. apply list_elem_of_fmap. exists e. auto. }
    apply keys_add_edges_from in Hk' as [Hk'|Hk'].
    + rewrite g_edge_add_nodes_from in Hk'. inversion Hk'.
    + apply list_elem_of_fmap in Hk' as (e' & Hk' & Hin').
      apply list_elem_of_fmap in Hin' as ([x y] & -> & Hin').
      unfold ekey, no_data in Hk'. simpl in Hk'.
      apply ukey_eq in Hk' as [[-> ->]|[-> ->]]; auto.
  - intros H.
    assert (Hk : ukey a b ∈ map ekey (map no_data es)).
    { destruct H as [H|H].
      - apply list_elem_of_fmap. exists (no_data (a, b)). split; [reflexivity|].
        apply list_elem_of_fmap. exists (a, b). auto.
      - apply list_elem_of_fmap. exists (no_data (b, a)).
        split; [apply ukey_comm|].
        apply list_elem_of_fmap. exists (b, a). auto. }
    assert (Hk' : ukey a b ∈ map ekey (NX.g_edge
              (NX.add_edges_from
                 (NX.add_nodes_from NX.empty (map (fun n => (n, [])) l))
                 (map no_data es))))
      by (apply keys_add_edges_from; right; exact Hk).
    apply list_elem_of_fmap in Hk' as (e & Hk' & Hin).
    exists e. auto.
Qed.

(** *** The order and direction in which edges are reported *)

Lemma elem_of_edges_from_iff G (ns seen : list Node) n m (d : dict) :
  (n, m, d) ∈ NX.edges_from G ns seen
  <-> exists l1 l2, ns = l1 ++ n :: l2 /\ (m, d) ∈ NX.adj G n
                    /\ (m ∉ seen) /\ (m ∉ l1).
Proof.
  revert seen. induction ns as [|n0 ns IH]; intros seen; cbn [NX.edges_from].
  - split; [intros H; inversion H|].
    intros (l1 & l2 & H & _). destruct l1; discriminate.
  - rewrite elem_of_app, IH. split.
    + intros [Hin|(l1 & l2 & -> & Hadj & Hs & Hl)].
      * apply list_elem_of_fmap in Hin as ([m' d'] & [= -> -> ->] & Hin).
        apply list_elem_of_filter in Hin as [Hs Hin].
        exists [], ns. repeat split; auto. apply not_elem_of_nil.
      * exists (n0 :: l1), l2. repeat split; auto.
        -- intros H. apply Hs. right. exact H.
        -- intros H. apply elem_of_cons in H as [->|H]; [|auto].
           apply Hs. left.
    + intros (l1 & l2 & Heq & Hadj & Hs & Hl).
      destruct l1 as [|n1 l1]; simpl in Heq; injection Heq as -> ->.
      * left. apply list_elem_of_fmap. exists (m, d). split; [reflexivity|].
        apply list_elem_of_filter. auto.
      * right. exists l1, l2.
        split; [reflexivity|]. split; [exact Hadj|]. split.
        -- intros H. apply elem_of_cons in H as [->|H]; [apply Hl; left | auto].
        -- intros H. apply Hl. right. exact H.
Qed.

Lemma elem_of_edges G u v :
  (u, v) ∈ NX.edges G
  <-> exists l1 l2, NX.nodes G = l1 ++ u :: l2
                    /\ v ∈ NX.neighbors G u /\ (v ∉ l1).
Proof.
  unfold NX.edges, NX.edges_data, NX.neighbors. split.
  - intros H. apply list_elem_of_fmap in H as ([[u' v'] d] & [= <- <-] & Hin).
    apply elem_of_edges_from_iff in Hin as (l1 & l2 & H1 & H2 & _ & H3).
    exists l1, l2. repeat split; auto.
    apply list_elem_of_fmap. exists (v, d). auto.
  - intros (l1 & l2 & H1 & H2 & H3).
    apply list_elem_of_fmap in H2 as ([v' d] & -> & H2).
    apply list_elem_of_fmap. exists (u, v', d). split; [reflexivity|].
    apply elem_of_edges_from_iff. exists l1, l2.
    repeat split; auto. apply not_elem_of_nil.
Qed.

Lemma NoDup_edges G : wf_graph G -> NoDup (NX.edges G).
Proof.
  intros (Hn & Hk & _). unfold NX.edges.
  apply (NoDup_fmap_1 (fun ab : Node * Node => ukey ab.1 ab.2)).
  rewrite <- list_fmap_compose.
  apply (NoDup_keys_edges_from G (NX.nodes G) [] Hn Hk).
Qed.

(** *** Consecutive pairs *)

Lemma elem_of_pairwise l a b :
  (a, b) ∈ pairwise l <-> exists i, l !! i = Some a /\ l !! S i = Some b.
Proof.
  induction l as [|x l IH]; [split; [intros H; inversion H | intros (i & H & _); discriminate]|].
  destruct l as [|y l].
  - split; [intros H; inversion H|].
    intros (i & H1 & H2). destruct i; discriminate.
  - cbn [pairwise]. rewrite elem_of_cons, IH. split.
    + intros [[= -> ->]|(i & H1 & H2)]; [exists 0%nat; auto | exists (S i); auto].
    + intros (i & H1 & H2). destruct i as [|i].
      * left. simpl in *. congruence.
      * right. exists i. auto.
Qed.

Lemma length_pairwise l : length (pairwise l) = (length l - 1)%nat.
Proof.
  induction l as [|x l IH]; [reflexivity|].
  destruct l as [|y l]; [reflexivity|].
  cbn [pairwise length] in *. lia.
Qed.

Lemma NoDup_pairwise l : NoDup l -> NoDup (pairwise l).
Proof.
  intros Hnd. apply NoDup_alt. intros i j [a b] Hi Hj.
  assert (Hlook : forall k a b, pairwise l !! k = Some (a, b) -> l !! k = Some a).
  { clear. induction l as [|x l IH]; intros k a b H; [discriminate|].
    destruct l as [|y l]; [discriminate|].
    destruct k as [|k]; [simpl in *; congruence|].
    apply (IH k a b). exact H. }
  apply (NoDup_lookup l i j a Hnd); eapply Hlook; eassumption.
Qed.

Lemma pairwise_nodes l :
  Forall (fun ab : Node * Node => ab.1 ∈ l /\ ab.2 ∈ l) (pairwise l).
Proof.
  apply Forall_forall. intros [a b] Hin.
  apply elem_of_pairwise in Hin as (i & H1 & H2).
  split; eapply list_elem_of_lookup_2; eassumption.
Qed.

End EdgeListGraphs.

(** ** Path graphs and cycle graphs *)

Section PathsAndCycles.

Implicit Types (G : Graph) (u v x y a b : Node) (l : list Node)
  (k : Node * Node).

Lemma connected_without_edge G u v x y :
  connected (NX.without_edge G u v) x y
  <-> connected_avoiding G (ukey u v) x y.
Proof.
  unfold connected, connected_avoiding. split.
  - induction 1 as [|a b c Hab _ IH]; [apply rtc_refl|].
    eapply rtc_l; [|exact IH]. apply elem_of_neighbors_without_edge, Hab.
  - induction 1 as [|a b c Hab _ IH]; [apply rtc_refl|].
    eapply rtc_l; [|exact IH]. apply elem_of_neighbors_without_edge, Hab.
Qed.

Lemma connected_avoiding_sym G k x y :
  connected_avoiding G k x y -> connected_avoiding G k y x.
Proof.
  unfold connected_avoiding. induction 1 as [|a b c [Hab Hk] _ IH];
    [apply rtc_refl|].
  eapply rtc_r; [exact IH|]. split; [apply neighbors_sym, Hab|].
  rewrite ukey_comm. exact Hk.
Qed.

Lemma connected_avoiding_trans G k x y z :
  connected_avoiding G k x y -> connected_avoiding G k y z ->
  connected_avoiding G k x z.
Proof. unfold connected_avoiding. intros H1 H2. etransitivity; eassumption. Qed.

Lemma filter_all {A} (P : A -> Prop) `{forall c, Decision (P c)} (l : list A) :
  (forall c, c ∈ l -> P c) -> filter P l = l.
Proof.
  induction l as [|x l IH]; intros Hall; [reflexivity|].
  rewrite filter_cons_True by (apply Hall; left).
  rewrite IH; [reflexivity|]. intros y Hy. apply Hall. right. exact Hy.
Qed.

Lemma filter_none {A} (P : A -> Prop) `{forall c, Decision (P c)} (l : list A) :
  (forall c, c ∈ l -> ~ P c) -> filter P l = [].
Proof.
  induction l as [|x l IH]; intros Hall; [reflexivity|].
  rewrite filter_cons_False by (apply Hall; left).
  apply IH. intros y Hy. apply Hall. right. exact Hy.
Qed.

(** Equal keys of two pairs of positions in a list without repetition *)
Lemma ukey_positions l i i' j j' a a' b b' :
  NoDup l ->
  l !! i = Some a -> l !! i' = Some a' -> l !! j = Some b -> l !! j' = Some b' ->
  ukey a a' = ukey b b' -> (i = j /\ i' = j') \/ (i = j' /\ i' = j).
Proof.
  intros Hnd Hi Hi' Hj Hj' Hk.
  apply ukey_eq in Hk as [[-> ->]|[-> ->]]; [left | right];
    split; eapply NoDup_lookup; eassumption.
Qed.

(** *** Path graphs *)

Lemma nodes_path_graph l : NoDup l -> NX.nodes (path_graph l) = l.
Proof. intros Hnd. apply nodes_graph_of; [exact Hnd | apply pairwise_nodes]. Qed.

Lemma elem_of_edges_path_graph l a b :
  NoDup l ->
  (a, b) ∈ NX.edges (path_graph l)
  <-> exists i, l !! i = Some a /\ l !! S i = Some b.
Proof.
  intros Hnd. rewrite elem_of_edges, nodes_path_graph by exact Hnd.
  unfold path_graph. split.
  - intros (l1 & l2 & Hl & Hnb & Hfresh).
    apply elem_of_neighbors_graph_of in Hnb as [H|H];
      apply elem_of_pairwise in H as (i & H1 & H2); [exists i; auto|].
    exfalso. apply Hfresh.
    assert (Ha : l !! length l1 = Some a)
      by (rewrite Hl; apply list_lookup_middle; reflexivity).
    assert (Hi : S i = length l1) by (eapply NoDup_lookup; eassumption).
    rewrite Hl, lookup_app_l in H1 by lia.
    eapply list_elem_of_lookup_2. exact H1.
  - intros (i & H1 & H2).
    exists (take i l), (drop (S i) l). split; [|split].
    + symmetry. apply take_drop_middle. exact H1.
    + apply elem_of_neighbors_graph_of. left.
      apply elem_of_pairwise. exists i. auto.
    + intros Hin. apply list_elem_of_lookup_1 in Hin as [j Hj].
      pose proof (lookup_lt_Some _ _ _ Hj) as Hlt.
      rewrite length_take in Hlt. rewrite lookup_take_lt in Hj by lia.
      assert (j = S i) by (eapply NoDup_lookup; eassumption). lia.
Qed.

(** Without the edge between positions [i] and [i + 1], nothing beyond
    position [i] can be reached from the positions up to [i]. *)
Lemma path_graph_prefix_closed l i a b x z :
  NoDup l -> l !! i = Some a -> l !! S i = Some b ->
  connected_avoiding (path_graph l) (ukey a b) x z ->
  (exists j, (j <= i)%nat /\ l !! j = Some x) ->
  exists j, (j <= i)%nat /\ l !! j = Some z.
Proof.
  intros Hnd Ha Hb. unfold connected_avoiding.
  induction 1 as [|x y z [Hxy Hk] _ IH]; [auto|].
  intros (j & Hj & Hx). apply IH.
  apply elem_of_neighbors_graph_of in Hxy as [H|H];
    apply elem_of_pairwise in H as (m & H1 & H2).
  - assert (m = j) by (eapply NoDup_lookup; eassumption). subst m.
    destruct (decide (j = i)) as [->|Hne].
    + exfalso. apply Hk. congruence.
    + exists (S j). split; [lia | exact H2].
  - assert (S m = j) by (eapply NoDup_lookup; eassumption).
    exists m. split; [lia | exact H1].
Qed.

Lemma path_graph_edge_is_bridge l i a b :
  NoDup l -> l !! i = Some a -> l !! S i = Some b ->
  ~ connected (NX.without_edge (path_graph l) a b) a b.
Proof.
  intros Hnd Ha Hb Hc. apply connected_without_edge in Hc.
  destruct (path_graph_prefix_closed l i a b a b Hnd Ha Hb Hc)
    as (j & Hj & Hbj); [exists i; auto|].
  assert (j = S i) by (eapply NoDup_lookup; eassumption). lia.
Qed.

Lemma bridges_path_graph l :
  NoDup l ->
  NX.bridges (path_graph l) = NX.edges (path_graph l)
  /\ length (NX.edges (path_graph l)) = (length l - 1)%nat.
Proof.
  intros Hnd. split.
  - apply filter_all. intros [a b] Hin.
    assert (Hb : (a, b) ∈ NX.bridges (path_graph l)).
    { apply elem_of_bridges; [apply wf_graph_graph_of|].
      split; [exact Hin|].
      apply elem_of_edges_path_graph in Hin as (i & H1 & H2); [|exact Hnd].
      exact (path_graph_edge_is_bridge l i a b Hnd H1 H2). }
    unfold NX.bridges in Hb. apply list_elem_of_filter in Hb as [Hb _].
    exact Hb.
  - rewrite <- length_pairwise. apply Permutation_length.
    apply NoDup_Permutation.
    + apply NoDup_edges, wf_graph_graph_of.
    + apply NoDup_pairwise, Hnd.
    + intros [a b]. rewrite elem_of_edges_path_graph by exact Hnd.
      symmetry. apply elem_of_pairwise.
Qed.

End PathsAndCycles.

Section Cycles.

Implicit Types (G : Graph) (u v x y a b : Node) (l : list Node)
  (k : Node * Node).

Lemma closing_pair_spec l z a :
  (z, a) ∈ closing_pair l <-> last l = Some z /\ head l = Some a.
Proof.
  unfold closing_pair. destruct (last l) as [z'|], (head l) as [a'|]; split;
    try (intros H; inversion H; fail);
    try (intros [H1 H2]; discriminate).
  - intros H. apply list_elem_of_singleton in H. injection H as -> ->. auto.
  - intros [[= ->] [= ->]]. left.
Qed.

Lemma closing_pair_nodes l :
  Forall (fun ab : Node * Node => ab.1 ∈ l /\ ab.2 ∈ l) (closing_pair l).
Proof.
  apply Forall_forall. intros [z a] Hin.
  apply closing_pair_spec in Hin as [Hz Ha]. split.
  - apply last_Some_elem_of, Hz.
  - apply head_Some_elem_of, Ha.
Qed.

Lemma nodes_cycle_graph l : NoDup l -> NX.nodes (cycle_graph l) = l.
Proof.
  intros Hnd. apply nodes_graph_of; [exact Hnd|].
  apply Forall_app. split; [apply pairwise_nodes | apply closing_pair_nodes].
Qed.

Lemma cycle_graph_next l i a b :
  l !! i = Some a -> l !! S i = Some b -> b ∈ NX.neighbors (cycle_graph l) a.
Proof.
  intros Ha Hb. apply elem_of_neighbors_graph_of. left.
  apply elem_of_app. left. apply elem_of_pairwise. exists i. auto.
Qed.

Lemma cycle_graph_close l z a :
  last l = Some z -> head l = Some a -> a ∈ NX.neighbors (cycle_graph l) z.
Proof.
  intros Hz Ha. apply elem_of_neighbors_graph_of. left.
  apply elem_of_app. right. apply closing_pair_spec. auto.
Qed.

(** Along the list, from position [i] to position [i + d], as long as
    the avoided edge is not on the way *)
Lemma cycle_graph_segment l k d i x y :
  l !! i = Some x -> l !! (i + d)%nat = Some y ->
  (forall m c c', (i <= m < i + d)%nat ->
                  l !! m = Some c -> l !! S m = Some c' -> ukey c c' <> k) ->
  connected_avoiding (cycle_graph l) k x y.
Proof.
  revert i x. induction d as [|d IH]; intros i x Hx Hy Hk.
  - rewrite Nat.add_0_r in Hy. assert (x = y) by congruence. subst.
    apply rtc_refl.
  - destruct (lookup_lt_is_Some_2 l (S i)) as [x' Hx'].
    { apply lookup_lt_Some in Hy. lia. }
    eapply rtc_l.
    + split; [exact (cycle_graph_next l i x x' Hx Hx')|].
      apply (Hk i x x'); [lia | exact Hx | exact Hx'].
    + apply (IH (S i) x' Hx').
      * rewrite <- Hy. f_equal. lia.
      * intros m c c' Hm. apply Hk. lia.
Qed.

(** Every edge of a cycle on at least three nodes can be gone around. *)
Lemma cycle_graph_around l i a b :
  NoDup l -> (3 <= length l)%nat ->
  l !! i = Some a -> l !! S i = Some b ->
  connected_avoiding (cycle_graph l) (ukey a b) a b.
Proof.
  intros Hnd Hlen Ha Hb.
  destruct (lookup_lt_is_Some_2 l 0) as [x0 H0]; [lia|].
  destruct (lookup_lt_is_Some_2 l (length l - 1)) as [z Hz]; [lia|].
  assert (Hlast : last l = Some z) by (rewrite last_lookup; rewrite <- Hz; f_equal; lia).
  assert (Hhead : head l = Some x0) by (rewrite head_lookup; exact H0).
  pose proof (lookup_lt_Some _ _ _ Hb) as Hi.
  apply connected_avoiding_trans with x0.
  { apply connected_avoiding_sym.
    apply (cycle_graph_segment l _ i 0 x0 a H0 Ha).
    intros m c c' Hm Hc Hc' Hk.
    destruct (ukey_positions l m (S m) i (S i) c c' a b Hnd Hc Hc' Ha Hb Hk);
      lia. }
  apply connected_avoiding_trans with z.
  { apply rtc_once. split.
    - apply neighbors_sym, (cycle_graph_close l z x0 Hlast Hhead).
    - intros Hk.
      destruct (ukey_positions l 0 (length l - 1) i (S i) x0 z a b
                  Hnd H0 Hz Ha Hb Hk); lia. }
  apply connected_avoiding_sym.
  apply (cycle_graph_segment l _ (length l - 1 - S i) (S i) b z Hb).
  - rewrite <- Hz. f_equal. lia.
  - intros m c c' Hm Hc Hc' Hk.
    destruct (ukey_positions l m (S m) i (S i) c c' a b Hnd Hc Hc' Ha Hb Hk);
      lia.
Qed.

Lemma cycle_graph_around_closing l z a :
  NoDup l -> (3 <= length l)%nat ->
  last l = Some z -> head l = Some a ->
  connected_avoiding (cycle_graph l) (ukey z a) z a.
Proof.
  intros Hnd Hlen Hz Ha.
  rewrite last_lookup in Hz. rewrite head_lookup in Ha.
  apply connected_avoiding_sym.
  apply (cycle_graph_segment l _ (length l - 1) 0 a z Ha).
  - rewrite <- Hz. f_equal. lia.
  - intros m c c' Hm Hc Hc' Hk.
    destruct (ukey_positions l m (S m) (pred (length l)) 0 c c' z a
                Hnd Hc Hc' Hz Ha Hk); lia.
Qed.

Lemma bridges_cycle_graph l :
  NoDup l -> (3 <= length l)%nat -> NX.bridges (cycle_graph l) = [].
Proof.
  intros Hnd Hlen. apply filter_none. intros [u v] Hin Hnp. simpl in Hnp.
  assert (Hb : (u, v) ∈ NX.bridges (cycle_graph l)).
  { unfold NX.bridges. apply list_elem_of_filter. auto. }
  apply elem_of_bridges in Hb as [_ Hnc]; [|apply wf_graph_graph_of].
  apply Hnc. apply connected_without_edge.
  apply elem_of_edges in Hin as (_ & _ & _ & Hnb & _).
  apply elem_of_neighbors_graph_of in Hnb as [H|H];
    apply elem_of_app in H as [H|H].
  - apply elem_of_pairwise in H as (i & H1 & H2).
    exact (cycle_graph_around l i u v Hnd Hlen H1 H2).
  - apply closing_pair_spec in H as [Hz Ha].
    exact (cycle_graph_around_closing l u v Hnd Hlen Hz Ha).
  - apply elem_of_pairwise in H as (i & H1 & H2).
    rewrite ukey_comm. apply connected_avoiding_sym.
    exact (cycle_graph_around l i v u Hnd Hlen H1 H2).
  - apply closing_pair_spec in H as [Hz Ha].
    rewrite ukey_comm. apply connected_avoiding_sym.
    exact (cycle_graph_around_closing l v u Hnd Hlen Hz Ha).
Qed.

End Cycles.

(** C7 — critical links are the bridges. For a well-formed published
    graph, [get_critical_links] returns an edge exactly when its end points
    are no longer connected once the edge is removed. If the graph is the
    path graph on a list of [n] different nodes, the result consists of the
    [n - 1] pairs of consecutive nodes; if it is the cycle graph on at least
    three different nodes, the result is empty. *)
Theorem critical_links_are_bridges (w : World) :
  wf_graph (topology (self w)) ->
  exists links,
    get_critical_links w = Ret links w
    /\ (forall u v,
           (u, v) ∈ links
           <-> (u, v) ∈ NX.edges (topology (self w))
               /\ ~ connected (NX.without_edge (topology (self w)) u v) u v)
    /\ (forall l, NoDup l -> topology (self w) = path_graph l ->
                  length links = (length l - 1)%nat
                  /\ forall a b, (a, b) ∈ links
                                 <-> exists i, l !! i = Some a
                                               /\ l !! S i = Some b)
    /\ (forall l, NoDup l -> (3 <= length l)%nat ->
                  topology (self w) = cycle_graph l -> links = []).
Proof.
  intros Hwf. exists (NX.bridges (topology (self w))).
  split; [reflexivity|]. split; [|split].
  - intros u v. apply elem_of_bridges, Hwf.
  - intros l Hnd ->. destruct (bridges_path_graph l Hnd) as [-> Hlen].
    split; [exact Hlen|]. intros a b. apply elem_of_edges_path_graph, Hnd.
  - intros l Hnd Hlen ->. apply bridges_cycle_graph; assumption.
Qed.

Lemma critical_links_are_bridges_witness :
  exists links,
    get_critical_links path_world = Ret links path_world
    /\ (forall u v,
           (u, v) ∈ links
           <-> (u, v) ∈ NX.edges (topology (self path_world))
               /\ ~ connected (NX.without_edge (topology (self path_world)) u v)
                              u v)
    /\ (forall l, NoDup l -> topology (self path_world) = path_graph l ->
                  length links = (length l - 1)%nat
                  /\ forall a b, (a, b) ∈ links
                                 <-> exists i, l !! i = Some a
                                               /\ l !! S i = Some b)
    /\ (forall l, NoDup l -> (3 <= length l)%nat ->
                  topology (self path_world) = cycle_graph l -> links = []).
Proof.
  apply (critical_links_are_bridges path_world).
  unfold wf_graph. apply (bool_decide_eq_true_1 _). vm_compute. reflexivity.
Defined.

(** Both families, evaluated on four nodes *)
Example critical_links_path_evaluated :
  get_critical_links path_world
  = Ret [("a", "b"); ("b", "c"); ("c", "d")] path_world.
Proof. vm_compute. reflexivity. Qed.

Example critical_links_cycle_evaluated :
  get_critical_links cycle_world = Ret [] cycle_world.
Proof. vm_compute. reflexivity. Qed.

(* ===================================================================== *)
(** * Further properties of the module                                    *)
(* ===================================================================== *)

(** ** Dictionaries *)

Lemma dict_get_set (d : dict) k v k' :
  dict_get (dict_set d k v) k'
  = if decide (k = k') then Some v else dict_get d k'.
Proof.
  induction d as [|[k0 v0] d IH]; simpl.
  - reflexivity.
  - destruct (decide (k0 = k)) as [->|Hne]; simpl.
    + destruct (decide (k = k')); reflexivity.
    + rewrite IH. destruct (decide (k0 = k')) as [->|Hne'].
      * rewrite decide_False by congruence. reflexivity.
      * reflexivity.
Qed.

(** After [d.update(a)] a key of [a] has its (last) value in [a], and
    every other key the value it had in [d]. *)
Lemma dict_get_update (d a : dict) k :
  dict_get (dict_update d a) k
  = match dict_get (reverse a) k with
    | Some v => Some v
    | None => dict_get d k
    end.
Proof.
  unfold dict_update. revert d. induction a as [|[k0 v0] a IH]; intros d.
  - reflexivity.
  - cbn [fold_left]. rewrite IH, reverse_cons, dict_get_set. simpl.
    clear IH. induction (reverse a) as [|[k1 v1] l IHl]; simpl.
    + destruct (decide (k0 = k)); reflexivity.
    + destruct (decide (k1 = k)); [reflexivity | exact IHl].
Qed.

(** ** Frames: what a computation leaves alone *)

Section Frames.

Context {X : Type} (f : TopologyManager -> X).

Lemma keeps_ret {A} (a : A) : keeps f (ret a).
Proof. intros w. reflexivity. Qed.

Lemma keeps_raise {A} (e : exn) : keeps f (@raise World A e).
Proof. intros w. reflexivity. Qed.

Lemma keeps_lift {A} (r : result A) : keeps f (lift r).
Proof. destruct r; [apply keeps_ret | apply keeps_raise]. Qed.

Lemma keeps_get_self : keeps f get_self.
Proof. intros w. reflexivity. Qed.

Lemma keeps_bind {A B} (m : M World A) (k : A -> M World B) :
  keeps f m -> (forall a, keeps f (k a)) -> keeps f (bind m k).
Proof.
  intros Hm Hk w. unfold bind. specialize (Hm w).
  destruct (m w) as [a w1|e w1]; simpl in *; [|exact Hm].
  rewrite Hk. exact Hm.
Qed.

Lemma keeps_try_except {A} (m : M World A) (h : exn -> M World A) :
  keeps f m -> (forall e, keeps f (h e)) -> keeps f (try_except m h).
Proof.
  intros Hm Hh w. unfold try_except. specialize (Hm w).
  destruct (m w) as [a w1|e w1]; simpl in *; [exact Hm|].
  rewrite Hh. exact Hm.
Qed.

Lemma keeps_try_except_class {A} (m : M World A) is_C (h : exn -> M World A) :
  keeps f m -> (forall e, keeps f (h e)) -> keeps f (try_except_class m is_C h).
Proof.
  intros Hm Hh w. unfold try_except_class. specialize (Hm w).
  destruct (m w) as [a w1|e w1]; simpl in *; [exact Hm|].
  destruct (is_C e); simpl; [|exact Hm]. rewrite Hh. exact Hm.
Qed.

Lemma keeps_for_each {A} (l : list A) (body : A -> M World unit) :
  (forall a, keeps f (body a)) -> keeps f (for_each l body).
Proof.
  intros Hb. induction l as [|a l IH]; cbn [for_each].
  - apply keeps_ret.
  - apply keeps_bind; [apply Hb | intros _; exact IH].
Qed.

Lemma keeps_on_self (g : TopologyManager -> TopologyManager) :
  (forall s, f (g s) = f s) -> keeps f (on_self g).
Proof. intros Hg w. simpl. apply Hg. Qed.

Lemma keeps_logger_error msg e : keeps f (logger_error msg e).
Proof. intros w. reflexivity. Qed.

Lemma keeps_logger_info msg c : keeps f (logger_info msg c).
Proof. intros w. reflexivity. Qed.

Lemma keeps_time_time env : keeps f (time_time env).
Proof. intros w. reflexivity. Qed.

End Frames.

(** Apply the frame lemmas along the structure of a computation;
    [leaf] closes the calls that have a frame lemma of their own. *)
Ltac frame_with leaf :=
  repeat first
    [ leaf
    | apply keeps_ret | apply keeps_raise | apply keeps_lift
    | apply keeps_get_self | apply keeps_logger_error | apply keeps_logger_info
    | apply keeps_time_time
    | apply keeps_on_self; intros []; reflexivity
    | match goal with
      | |- keeps _ (bind _ _) => apply keeps_bind; [|intros ?]
      | |- keeps _ (try_except _ _) => apply keeps_try_except; [|intros ?]
      | |- keeps _ (try_except_class _ _ _) =>
          apply keeps_try_except_class; [|intros ?]
      | |- keeps _ (for_each _ _) => apply keeps_for_each; intros ?
      | |- keeps _ (if ?c then _ else _) => destruct c
      | |- keeps _ (match ?x with _ => _ end) => destruct x
      | |- keeps _ (let _ := _ in _) => cbv zeta
      end ].

Ltac frame := frame_with fail.

Section ManagerFrames.

Context (env : Environment).

Lemma add_link_keeps {X} (f : TopologyManager -> X) s t lt ly si ti kw :
  (forall g s0, f (set_layer2_topology g s0) = f s0) ->
  (forall g s0, f (set_layer3_topology g s0) = f s0) ->
  keeps f (_add_link env s t lt ly si ti kw).
Proof.
  intros H2 H3. unfold _add_link. apply keeps_bind; [apply keeps_time_time|].
  intros now. destruct ly.
  - apply keeps_on_self. intros s0. apply H2.
  - apply keeps_on_self. intros s0. apply H3.
  - apply keeps_ret.
Qed.

Lemma per_device_keeps {X} (f : TopologyManager -> X) probe body msg :
  (forall d r, keeps f (body d r)) -> keeps f (per_device probe body msg).
Proof. intros Hb. unfold per_device. frame. apply Hb. Qed.

(** Discovery writes the two layer graphs and nothing else. *)
Lemma discover_layer2_keeps {X} (f : TopologyManager -> X) :
  (forall g s0, f (set_layer2_topology g s0) = f s0) ->
  (forall g s0, f (set_layer3_topology g s0) = f s0) ->
  keeps f (_discover_layer2_topology env).
Proof.
  intros H2 H3. unfold _discover_layer2_topology, _discover_lldp_topology,
    _discover_cdp_topology, _discover_stp_topology.
  frame_with ltac:(first
    [ apply add_link_keeps; assumption
    | apply per_device_keeps; intros ? ?; unfold add_neighbor ]).
Qed.

Lemma discover_layer3_keeps {X} (f : TopologyManager -> X) :
  (forall g s0, f (set_layer2_topology g s0) = f s0) ->
  (forall g s0, f (set_layer3_topology g s0) = f s0) ->
  keeps f (_discover_layer3_topology env).
Proof.
  intros H2 H3. unfold _discover_layer3_topology, _discover_routing_topology.
  frame_with ltac:(first
    [ apply add_link_keeps; assumption
    | apply per_device_keeps; intros ? ? ]).
Qed.

(** The merge writes the unified graph and nothing else. *)
Lemma merge_topologies_keeps {X} (f : TopologyManager -> X) :
  (forall g s0, f (set_topology g s0) = f s0) ->
  keeps f _merge_topologies.
Proof.
  intros Ht. unfold _merge_topologies, _merge_duplicate_links, merge_duplicate.
  frame_with ltac:(apply keeps_on_self; intros s0; apply Ht).
Qed.

(** The diff writes the history and nothing else. *)
Lemma detect_topology_changes_keeps {X} (f : TopologyManager -> X) previous :
  (forall h s0, f (set_history h s0) = f s0) ->
  keeps f (_detect_topology_changes env previous).
Proof.
  intros Hh. unfold _detect_topology_changes.
  frame_with ltac:(apply keeps_on_self; intros s0; apply Hh).
Qed.

Lemma rebuild_keeps {X} (f : TopologyManager -> X) :
  (forall g s0, f (set_topology g s0) = f s0) ->
  (forall g s0, f (set_layer2_topology g s0) = f s0) ->
  (forall g s0, f (set_layer3_topology g s0) = f s0) ->
  keeps f (rebuild env).
Proof.
  intros Ht H2 H3. unfold rebuild.
  apply keeps_bind; [apply discover_layer2_keeps; assumption|]. intros _.
  apply keeps_bind; [apply discover_layer3_keeps; assumption|]. intros _.
  apply merge_topologies_keeps, Ht.
Qed.

End ManagerFrames.

(** ** [_add_link]: insert, then look up *)

(** X1 — [_add_link] files a link in the graph of its layer, where it can
    be looked up from either end: the edge then carries the five
    attributes of this call (the reading of the clock among them), keeps
    every other attribute it had, no other edge changes, both end points
    are nodes, and the other graphs are left alone. Stated for the calls
    the class makes, which pass no further keyword arguments. *)
Theorem add_link_lookup (env : Environment) (s t : Node) (lt : LinkType)
    (ly : LayerType) (si ti : string) (w : World) :
  ly <> L4 ->
  exists w' d,
    _add_link env s t lt ly si ti [] w = Ret tt w'
    /\ NX.get_edge_data (layer_graph ly (self w')) s t = Some d
    /\ NX.get_edge_data (layer_graph ly (self w')) t s = Some d
    /\ dict_get d "link_type" = Some (VLinkType lt)
    /\ dict_get d "layer" = Some (VLayerType ly)
    /\ dict_get d "source_interface" = Some (VStr si)
    /\ dict_get d "target_interface" = Some (VStr ti)
    /\ dict_get d "timestamp" = Some (VFloat (clock env (ticks w)))
    /\ (forall k, k ∉ link_keys ->
          dict_get d k
          = dict_get (default [] (NX.get_edge_data (layer_graph ly (self w)) s t)) k)
    /\ (forall x y, ukey x y <> ukey s t ->
          NX.get_edge_data (layer_graph ly (self w')) x y
          = NX.get_edge_data (layer_graph ly (self w)) x y)
    /\ s ∈ NX.nodes (layer_graph ly (self w'))
    /\ t ∈ NX.nodes (layer_graph ly (self w'))
    /\ (forall ly', ly' <> ly ->
          layer_graph ly' (self w') = layer_graph ly' (self w))
    /\ topology (self w') = topology (self w).
Proof.
  intros Hly.
  assert (Hother : forall k, k ∉ link_keys ->
            dict_get (reverse (make_link_data lt ly si ti (clock env (ticks w)) [])) k
            = None).
  { intros k Hk. unfold link_keys in Hk.
    rewrite !not_elem_of_cons in Hk.
    destruct Hk as (H1 & H2 & H3 & H4 & H5 & _).
    cbn. rewrite !decide_False by congruence. reflexivity. }
  destruct ly; [| |congruence].
  - eexists _, _. split; [unfold _add_link, bind, time_time, on_self, modify; reflexivity|].
    cbn [self layer_graph layer2_topology set_layer2_topology].
    rewrite !get_edge_data_add_edge, (ukey_comm t s).
    rewrite !decide_True by reflexivity.
    split; [reflexivity|]. split; [reflexivity|].
    rewrite !dict_get_update.
    split; [reflexivity|]. split; [reflexivity|]. split; [reflexivity|].
    split; [reflexivity|]. split; [reflexivity|].
    split. { intros k Hk. rewrite dict_get_update, (Hother k Hk). reflexivity. }
    split. { intros x y Hxy. rewrite get_edge_data_add_edge.
             rewrite decide_False by exact Hxy. reflexivity. }
    split. { apply elem_of_nodes_add_edge. auto. }
    split. { apply elem_of_nodes_add_edge. auto. }
    split; [|reflexivity].
    intros [] Hne; [congruence|reflexivity|reflexivity].
  - eexists _, _. split; [unfold _add_link, bind, time_time, on_self, modify; reflexivity|].
    cbn [self layer_graph layer3_topology set_layer3_topology].
    rewrite !get_edge_data_add_edge, (ukey_comm t s).
    rewrite !decide_True by reflexivity.
    split; [reflexivity|]. split; [reflexivity|].
    rewrite !dict_get_update.
    split; [reflexivity|]. split; [reflexivity|]. split; [reflexivity|].
    split; [reflexivity|]. split; [reflexivity|].
    split. { intros k Hk. rewrite dict_get_update, (Hother k Hk). reflexivity. }
    split. { intros x y Hxy. rewrite get_edge_data_add_edge.
             rewrite decide_False by exact Hxy. reflexivity. }
    split. { apply elem_of_nodes_add_edge. auto. }
    split. { apply elem_of_nodes_add_edge. auto. }
    split; [|reflexivity].
    intros [] Hne; [reflexivity|congruence|reflexivity].
Qed.

Lemma add_link_lookup_witness :
  exists w' d,
    _add_link lldp_environment "A" "B" PHYSICAL L2 "eth4" "eth5" []
              published_world = Ret tt w'
    /\ NX.get_edge_data (layer_graph L2 (self w')) "A" "B" = Some d
    /\ NX.get_edge_data (layer_graph L2 (self w')) "B" "A" = Some d
    /\ dict_get d "link_type" = Some (VLinkType PHYSICAL)
    /\ dict_get d "layer" = Some (VLayerType L2)
    /\ dict_get d "source_interface" = Some (VStr "eth4")
    /\ dict_get d "target_interface" = Some (VStr "eth5")
    /\ dict_get d "timestamp"
       = Some (VFloat (clock lldp_environment (ticks published_world)))
    /\ (forall k, k ∉ link_keys ->
          dict_get d k
          = dict_get (default [] (NX.get_edge_data
                        (layer_graph L2 (self published_world)) "A" "B")) k)
    /\ (forall x y, ukey x y <> ukey "A" "B" ->
          NX.get_edge_data (layer_graph L2 (self w')) x y
          = NX.get_edge_data (layer_graph L2 (self published_world)) x y)
    /\ "A" ∈ NX.nodes (layer_graph L2 (self w'))
    /\ "B" ∈ NX.nodes (layer_graph L2 (self w'))
    /\ (forall ly', ly' <> L2 ->
          layer_graph ly' (self w') = layer_graph ly' (self published_world))
    /\ topology (self w') = topology (self published_world).
Proof.
  apply (add_link_lookup lldp_environment "A" "B" PHYSICAL L2 "eth4" "eth5"
           published_world).
  discriminate.
Defined.

(** ** The update cycle: what it keeps *)

Lemma detect_topology_changes_history env previous w :
  history (self (final_state (_detect_topology_changes env previous w)))
  = history (self w)
    ++ (let c := compute_changes (clock env (ticks w)) (topology (self w))
                                 previous in
        if any_changes c then [c] else []).
Proof.
  unfold _detect_topology_changes, try_except, bind, time_time, get_self.
  cbn [self]. destruct (any_changes _); cbn.
  - reflexivity.
  - rewrite app_nil_r. reflexivity.
Qed.

Lemma update_topology_keeps {X} (f : TopologyManager -> X) env :
  (forall g s0, f (set_topology g s0) = f s0) ->
  (forall g s0, f (set_layer2_topology g s0) = f s0) ->
  (forall g s0, f (set_layer3_topology g s0) = f s0) ->
  (forall h s0, f (set_history h s0) = f s0) ->
  (forall t s0, f (set_last_update t s0) = f s0) ->
  keeps f (update_topology env).
Proof.
  intros Ht H2 H3 Hh Hl. unfold update_topology, update_topology_with.
  frame_with ltac:(first
    [ apply discover_layer2_keeps; assumption
    | apply discover_layer3_keeps; assumption
    | apply merge_topologies_keeps; assumption
    | apply detect_topology_changes_keeps; assumption
    | apply keeps_on_self; intros s0;
      first [apply Ht | apply H2 | apply H3 | apply Hh | apply Hl] ]).
Qed.

(** X2 — the attributes a cycle never writes, and the history. Whatever
    the probes report and whether the gate is open or not,
    [update_topology] leaves the configuration, the device table and the
    update interval as they are, and the history only grows: by at most
    one record, at its end, and by none when the call is gated. *)
Theorem update_topology_frame (env : Environment) (w : World) :
  let w' := final_state (update_topology env w) in
  config (self w') = config (self w)
  /\ nodes (self w') = nodes (self w)
  /\ update_interval (self w') = update_interval (self w)
  /\ exists l, history (self w') = history (self w) ++ l
               /\ (length l <= 1)%nat
               /\ (gated env w -> l = []).
Proof.
  cbn zeta.
  split; [apply (update_topology_keeps config); reflexivity|].
  split; [apply (update_topology_keeps nodes); reflexivity|].
  split; [apply (update_topology_keeps update_interval); reflexivity|].
  destruct (decide (clock env (ticks w) - last_update (self w)
                    < update_interval (self w))) as [Hg|Hg].
  - exists []. unfold update_topology.
    rewrite (update_topology_with_gated env _ _ _ _ w Hg). cbn.
    rewrite app_nil_r. auto.
  - destruct (update_topology_ungated env w Hg)
      as (w3 & w4 & Hr & Hd & _ & ->).
    cbn [final_state self history set_last_update].
    pose proof (detect_topology_changes_history env
                  (NX.copy (topology (self w))) w3) as Hh.
    rewrite Hd in Hh. cbn [final_state] in Hh. rewrite Hh.
    pose proof (rebuild_keeps env history (fun _ _ => eq_refl)
                  (fun _ _ => eq_refl) (fun _ _ => eq_refl)
                  (cleared (tick w))) as Hk.
    rewrite Hr in Hk. cbn [final_state] in Hk. rewrite Hk. cbn [cleared self
      history set_layer3_topology set_layer2_topology set_topology tick].
    eexists. split; [reflexivity|]. split; [|contradiction].
    cbv zeta. destruct (any_changes _); simpl; lia.
Qed.

(** X3 — the gate counts from the start of a rebuild. After a rebuild
    that began at clock reading [t0], a call that reads the clock less
    than the update interval after [t0] returns the graph the rebuild
    returned and changes nothing, however long the rebuild itself took. *)
Theorem rebuild_then_gated (env : Environment) (w : World) :
  ~ gated env w ->
  forall g w1,
    update_topology env w = Ret g w1 ->
    clock env (ticks w1) - clock env (ticks w) < update_interval (self w) ->
    exists w2,
      update_topology env w1 = Ret g w2
      /\ self w2 = self w1 /\ log w2 = log w1.
Proof.
  intros Hg g w1 Hu Hlt.
  pose proof (update_topology_keeps update_interval env
                (fun _ _ => eq_refl) (fun _ _ => eq_refl) (fun _ _ => eq_refl)
                (fun _ _ => eq_refl) (fun _ _ => eq_refl) w) as Hi.
  rewrite Hu in Hi. cbn [final_state] in Hi.
  destruct (update_topology_ungated env w Hg)
    as (w3 & w4 & Hr & Hd & Ht & Hu').
  rewrite Hu' in Hu. injection Hu as <- <-.
  cbn [self ticks update_interval set_last_update] in *.
  assert (Hg1 : gated env
            (mkWorld (set_last_update (clock env (ticks w)) (self w4))
                     (ticks w4) (log w4))).
  { unfold gated. cbn. rewrite Hi. exact Hlt. }
  exists (tick (mkWorld (set_last_update (clock env (ticks w)) (self w4))
                        (ticks w4) (log w4))).
  unfold update_topology.
  rewrite (update_topology_with_gated env _ _ _ _ _ Hg1).
  cbn. rewrite Ht. auto.
Qed.

Lemma rebuild_then_gated_witness :
  exists w2,
    update_topology lldp_environment published_world
    = Ret (topology (self published_world)) w2
    /\ self w2 = self published_world /\ log w2 = log published_world.
Proof.
  apply (rebuild_then_gated lldp_environment fresh_world).
  - unfold gated. vm_compute. discriminate.
  - vm_compute. reflexivity.
  - vm_compute. reflexivity.
Defined.

(** ** The queries *)

(** X4 — the five queries are read-only: whether they return or raise,
    the manager object is what it was before the call, and no query reads
    the clock. *)
Theorem queries_read_only (w : World) :
  (forall s t, self (final_state (get_path s t w)) = self w
               /\ ticks (final_state (get_path s t w)) = ticks w)
  /\ (forall s t, self (final_state (get_redundant_paths s t w)) = self w
                  /\ ticks (final_state (get_redundant_paths s t w)) = ticks w)
  /\ (self (final_state (get_critical_links w)) = self w
      /\ ticks (final_state (get_critical_links w)) = ticks w)
  /\ (forall a b, get_topology_changes a b w
                  = Ret (filter (fun c => a <= timestamp c <= b)
                                (history (self w))) w)
  /\ (forall f, self (final_state (export_topology f w)) = self w
                /\ ticks (final_state (export_topology f w)) = ticks w).
Proof.
  split; [|split; [|split; [|split]]].
  - intros s t. unfold get_path, try_except_class, bind, get_self.
    destruct (NX.shortest_path _ s t) as [p|e]; cbn; [auto|].
    destruct (is_NetworkXNoPath e); cbn; auto.
  - intros s t. unfold get_redundant_paths, try_except, bind, get_self.
    destruct (NX.all_simple_paths _ s t) as [p|e]; cbn; auto.
  - cbn. auto.
  - reflexivity.
  - intros f. unfold export_topology, try_except, bind, get_self.
    destruct (decide (f = "json")); [cbn; auto|].
    destruct (decide (f = "graphml")); cbn; auto.
Qed.

Lemma shortest_None l : NX.shortest l = None <-> l = [].
Proof.
  destruct l as [|p l]; simpl; [tauto|].
  destruct (NX.shortest l) as [q|]; [destruct (_ <? _)%nat|];
    split; congruence.
Qed.

Lemma shortest_Some l p :
  NX.shortest l = Some p ->
  p ∈ l /\ forall q, q ∈ l -> (length p <= length q)%nat.
Proof.
  revert p. induction l as [|p0 l IH]; intros p; simpl; [discriminate|].
  destruct (NX.shortest l) as [q0|] eqn:E.
  - destruct (IH q0 eq_refl) as [Hin Hmin].
    destruct (length q0 <? length p0)%nat eqn:Hlt; intros [= <-].
    + apply Nat.ltb_lt in Hlt. split; [right; exact Hin|].
      intros q Hq. apply elem_of_cons in Hq as [->|Hq]; [lia | auto].
    + apply Nat.ltb_ge in Hlt. split; [left|].
      intros q Hq. apply elem_of_cons in Hq as [->|Hq]; [lia|].
      specialize (Hmin q Hq). lia.
  - apply shortest_None in E. subst. intros [= <-]. split; [left|].
    intros q Hq. apply list_elem_of_singleton in Hq. subst. lia.
Qed.

(** The enumeration from a node of the graph, with the default cutoff,
    finds the simple paths to another node, all of them. *)
Lemma simple_paths_dfs_simple_path G s t p :
  wf_graph G -> s ∈ NX.nodes G -> s <> t ->
  p ∈ NX.simple_paths_dfs G (length (NX.nodes G) - 1) [s] s [t]
  <-> simple_path G s t p.
Proof.
  intros Hwf Hs Hne.
  rewrite simple_paths_dfs_spec
    by (intros H; apply list_elem_of_singleton in H; auto).
  split.
  - intros (ext & -> & Hlen & Hw & Hnd & Hav & Hl).
    repeat split; auto.
    + apply NoDup_cons. split; [|exact Hnd].
      intros Hin. apply (Hav _ Hin). left.
    + simpl. destruct ext; [simpl in Hlen; lia | exact Hl].
  - intros Hp. pose proof (simple_path_length G s t p Hwf Hs Hp) as Hlen.
    destruct Hp as (Hw & Hnd & Hh & Hl).
    destruct p as [|s' ext]; [discriminate|]. injection Hh as ->.
    exists ext. apply NoDup_cons in Hnd as [Hfresh Hnd].
    destruct ext as [|y ext]; [simpl in Hl; congruence|].
    rewrite last_cons_cons in Hl.
    split; [reflexivity|]. split; [simpl in *; lia|].
    split; [exact Hw|]. split; [exact Hnd|]. split; [|exact Hl].
    intros x Hx Hxs. apply list_elem_of_singleton in Hxs. subst. auto.
Qed.

(** X5 — [get_path] between two nodes of the graph. When they are
    connected it returns a simple path from the one to the other that no
    simple path between them undercuts in length, and logs nothing; when
    they are not, it returns the empty list and logs one error. *)
Theorem get_path_shortest (source target : Node) (w : World) :
  wf_graph (topology (self w)) ->
  source ∈ NX.nodes (topology (self w)) ->
  target ∈ NX.nodes (topology (self w)) ->
  exists p w',
    get_path source target w = Ret p w'
    /\ self w' = self w
    /\ (connected (topology (self w)) source target ->
        w' = w
        /\ simple_path (topology (self w)) source target p
        /\ forall q, simple_path (topology (self w)) source target q ->
                     (length p <= length q)%nat)
    /\ (~ connected (topology (self w)) source target ->
        p = [] /\ log w' = log w ++ [LogError "No path found" None]).
Proof.
  intros Hwf Hs Ht.
  unfold get_path, try_except_class, bind, get_self, NX.shortest_path.
  rewrite (proj2 (has_node_true _ source) Hs),
    (proj2 (has_node_true _ target) Ht).
  cbn [negb orb].
  destruct (decide (source = target)) as [->|Hne].
  - eexists _, _. split; [reflexivity|]. split; [reflexivity|]. split.
    + intros _. split; [reflexivity|]. split.
      * repeat split; simpl; auto. apply NoDup_singleton.
      * intros q (_ & _ & Hh & _). destruct q; [discriminate | simpl; lia].
    + intros Hc. exfalso. apply Hc. apply rtc_refl.
  - destruct (NX.shortest _) as [p|] eqn:E.
    + destruct (shortest_Some _ _ E) as [Hin Hmin].
      eexists _, _. split; [reflexivity|]. split; [reflexivity|].
      apply simple_paths_dfs_simple_path in Hin as Hp; [|exact Hwf|exact Hs|exact Hne].
      split.
      * intros _. split; [reflexivity|]. split; [exact Hp|].
        intros q Hq. apply Hmin.
        apply simple_paths_dfs_simple_path; assumption.
      * intros Hc. exfalso. apply Hc.
        destruct Hp as (Hw & _ & Hh & Hl).
        destruct p as [|s' ext]; [discriminate|]. injection Hh as ->.
        apply (walk_connected _ source ext target Hw Hl).
    + apply shortest_None in E.
      eexists _, _. split; [reflexivity|]. split; [reflexivity|]. split.
      * intros Hc. exfalso.
        destruct (connected_simple_path _ _ _ Hc Hne) as (q & Hq).
        apply simple_paths_dfs_simple_path in Hq; [|exact Hwf|exact Hs|exact Hne].
        rewrite E in Hq. inversion Hq.
      * intros _. split; reflexivity.
Qed.

Lemma get_path_shortest_witness :
  exists p w',
    get_path "A" "D" dense_world = Ret p w'
    /\ self w' = self dense_world
    /\ (connected (topology (self dense_world)) "A" "D" ->
        w' = dense_world
        /\ simple_path (topology (self dense_world)) "A" "D" p
        /\ forall q, simple_path (topology (self dense_world)) "A" "D" q ->
                     (length p <= length q)%nat)
    /\ (~ connected (topology (self dense_world)) "A" "D" ->
        p = [] /\ log w' = log dense_world ++ [LogError "No path found" None]).
Proof.
  apply (get_path_shortest "A" "D" dense_world).
  - apply wf_graph_graph_of.
  - apply (bool_decide_eq_true_1 _). vm_compute. reflexivity.
  - apply (bool_decide_eq_true_1 _). vm_compute. reflexivity.
Defined.

(** X6 — [export_topology] never raises. It returns [None], after logging
    the error, exactly for a format other than ['json'] and ['graphml'];
    the ['json'] export of a well-formed graph lists the nodes in their
    order and every link once, with the attributes [get_edge_data] gives
    for its end points in either order. *)
Theorem export_topology_total (format : string) (w : World) :
  wf_graph (topology (self w)) ->
  exists r w',
    export_topology format w = Ret r w'
    /\ self w' = self w
    /\ (r = PyNone <-> format <> "json" /\ format <> "graphml")
    /\ (r = PyNone ->
        log w' = log w
                 ++ [LogError "Error exporting topology"
                       (Some (ValueError
                          (String.append "Unsupported export format: " format)))])
    /\ (format = "json" ->
        exists ns ls,
          r = NodeLinkData ns ls /\ w' = w
          /\ map fst ns = NX.nodes (topology (self w))
          /\ NoDup (map ekey ls)
          /\ forall u v, snd <$> find (NX.joins u v) ls
                         = NX.get_edge_data (topology (self w)) u v).
Proof.
  intros Hwf. unfold export_topology, try_except, bind, get_self.
  destruct (decide (format = "json")) as [->|Hj].
  - eexists _, _. split; [reflexivity|]. split; [reflexivity|].
    split; [split; [discriminate | intros [H _]; congruence]|].
    split; [discriminate|]. intros _.
    eexists _, _. split; [reflexivity|]. split; [reflexivity|].
    split; [reflexivity|]. split.
    + apply NoDup_keys_edges_from; apply Hwf.
    + intros u v. apply find_edges_data, Hwf.
  - destruct (decide (format = "graphml")) as [->|Hg].
    + eexists _, _. split; [reflexivity|]. split; [reflexivity|].
      split; [split; [discriminate | intros [_ H]; congruence]|].
      split; [discriminate|]. intros H. discriminate.
    + eexists _, _. split; [reflexivity|]. split; [reflexivity|].
      split; [split; auto|]. split; [reflexivity|]. contradiction.
Qed.

Lemma export_topology_total_witness :
  exists r w',
    export_topology "json" dense_world = Ret r w'
    /\ self w' = self dense_world
    /\ (r = PyNone <-> "json" <> "json" /\ "json" <> "graphml")
    /\ (r = PyNone ->
        log w' = log dense_world
                 ++ [LogError "Error exporting topology"
                       (Some (ValueError
                          (String.append "Unsupported export format: " "json")))])
    /\ ("json" = "json" ->
        exists ns ls,
          r = NodeLinkData ns ls /\ w' = dense_world
          /\ map fst ns = NX.nodes (topology (self dense_world))
          /\ NoDup (map ekey ls)
          /\ forall u v, snd <$> find (NX.joins u v) ls
                         = NX.get_edge_data (topology (self dense_world)) u v).
Proof.
  apply (export_topology_total "json" dense_world).
  apply wf_graph_graph_of.
Defined.

(** ** The change record *)

Section ChangeRecord.

Context (now : Z) (current previous : Graph).

Lemma elem_of_added_nodes n :
  n ∈ added_nodes (compute_changes now current previous)
  <-> n ∈ NX.nodes current /\ n ∉ NX.nodes previous.
Proof.
  cbn. rewrite elem_of_elements, elem_of_difference, !elem_of_list_to_set.
  reflexivity.
Qed.

Lemma elem_of_removed_nodes n :
  n ∈ removed_nodes (compute_changes now current previous)
  <-> n ∈ NX.nodes previous /\ n ∉ NX.nodes current.
Proof.
  cbn. rewrite elem_of_elements, elem_of_difference, !elem_of_list_to_set.
  reflexivity.
Qed.

Lemma elem_of_added_links e :
  e ∈ added_links (compute_changes now current previous)
  <-> e ∈ NX.edges current /\ e ∉ NX.edges previous.
Proof.
  cbn. rewrite elem_of_elements, elem_of_difference, !elem_of_list_to_set.
  reflexivity.
Qed.

Lemma elem_of_removed_links e :
  e ∈ removed_links (compute_changes now current previous)
  <-> e ∈ NX.edges previous /\ e ∉ NX.edges current.
Proof.
  cbn. rewrite elem_of_elements, elem_of_difference, !elem_of_list_to_set.
  reflexivity.
Qed.

Lemma elem_of_modified_links m :
  m ∈ modified_links (compute_changes now current previous)
  <-> ml_edge m ∈ NX.edges current /\ ml_edge m ∈ NX.edges previous
      /\ ml_current m = NX.get_edge_data current (ml_edge m).1 (ml_edge m).2
      /\ ml_previous m = NX.get_edge_data previous (ml_edge m).1 (ml_edge m).2
      /\ data_neqb (ml_current m) (ml_previous m) = true.
Proof.
  cbn [modified_links compute_changes]. rewrite list_elem_of_omap. split.
  - intros (e & He & Hm).
    apply elem_of_elements, elem_of_intersection in He as [Hc Hp].
    apply elem_of_list_to_set in Hc, Hp.
    destruct (data_neqb _ _) eqn:E; [|discriminate].
    injection Hm as <-. cbn. auto.
  - intros (Hc & Hp & Hcd & Hpd & Hne). exists (ml_edge m). split.
    + apply elem_of_elements, elem_of_intersection.
      rewrite !elem_of_list_to_set. auto.
    + rewrite <- Hcd, <- Hpd, Hne. destruct m; reflexivity.
Qed.

End ChangeRecord.

Lemma NoDup_omap_edges {A B} (f : A -> option B) (g : B -> A) (l : list A) :
  (forall a b, f a = Some b -> g b = a) -> NoDup l -> NoDup (g <$> omap f l).
Proof.
  intros Hfg. induction 1 as [|a l Ha Hnd IH]; simpl; [constructor|].
  destruct (f a) as [b|] eqn:E; [|exact IH].
  rewrite fmap_cons. constructor; [|exact IH].
  rewrite (Hfg a b E). intros Hin. apply Ha.
  apply list_elem_of_fmap in Hin as (b' & -> & Hb').
  apply list_elem_of_omap in Hb' as (a' & Ha' & Hf').
  rewrite (Hfg a' b' Hf'). exact Ha'.
Qed.

(** X7 — the change record sorts nodes and links into exclusive
    categories. No node is reported both as added and as removed; a link,
    as the ordered pair [edges()] reports, is in at most one of the lists
    of added, removed and modified links; and no list names a node or a
    link twice. *)
Theorem changes_are_exclusive (now : Z) (current previous : Graph) :
  let c := compute_changes now current previous in
  (forall n, n ∈ added_nodes c -> n ∉ removed_nodes c)
  /\ (forall e, e ∈ added_links c -> e ∉ removed_links c)
  /\ (forall m, m ∈ modified_links c ->
        (ml_edge m ∉ added_links c) /\ (ml_edge m ∉ removed_links c))
  /\ NoDup (added_nodes c) /\ NoDup (removed_nodes c)
  /\ NoDup (added_links c) /\ NoDup (removed_links c)
  /\ NoDup (ml_edge <$> modified_links c).
Proof.
  cbv zeta. split; [|split; [|split]].
  - intros n Ha Hr. apply elem_of_added_nodes in Ha.
    apply elem_of_removed_nodes in Hr. tauto.
  - intros e Ha Hr. apply elem_of_added_links in Ha.
    apply elem_of_removed_links in Hr. tauto.
  - intros m Hm. apply elem_of_modified_links in Hm as (Hc & Hp & _).
    rewrite elem_of_added_links, elem_of_removed_links. tauto.
  - cbn. repeat split; try apply NoDup_elements.
    apply (NoDup_omap_edges _ ml_edge); [|apply NoDup_elements].
    intros e m. destruct (data_neqb _ _); [|discriminate].
    intros [= <-]. reflexivity.
Qed.

Lemma NoDup_fmap_eq {A B} (f : A -> B) (l : list A) x y :
  NoDup (f <$> l) -> x ∈ l -> y ∈ l -> f x = f y -> x = y.
Proof.
  induction l as [|a l IH]; intros Hnd Hx Hy Hf; [inversion Hx|].
  rewrite fmap_cons in Hnd. apply NoDup_cons in Hnd as [Ha Hnd].
  apply elem_of_cons in Hx as [->|Hx]; apply elem_of_cons in Hy as [->|Hy].
  - reflexivity.
  - exfalso. apply Ha. rewrite Hf. apply list_elem_of_fmap. eauto.
  - exfalso. apply Ha. rewrite <- Hf. apply list_elem_of_fmap. eauto.
  - auto.
Qed.

(** [edges()] reports a link in one direction only. *)
Lemma edges_one_direction G u v :
  wf_graph G -> u <> v -> (u, v) ∈ NX.edges G -> (v, u) ∉ NX.edges G.
Proof.
  intros Hwf Hne Huv Hvu. unfold NX.edges in *.
  apply list_elem_of_fmap in Huv as ([[u1 v1] d1] & E1 & H1).
  apply list_elem_of_fmap in Hvu as ([[u2 v2] d2] & E2 & H2).
  cbn in E1, E2. injection E1 as <- <-. injection E2 as <- <-.
  assert (Hnd : NoDup (ekey <$> NX.edges_data G))
    by (apply NoDup_keys_edges_from; apply Hwf).
  pose proof (NoDup_fmap_eq ekey _ _ _ Hnd H1 H2 (ukey_comm u v)) as E.
  congruence.
Qed.

(** X8 — a link whose direction of report flips is recorded as removed
    and added. Sets of ordered pairs are compared: when [edges()] of the
    new graph gives a link as [(u, v)] and that of the previous graph
    gave it as [(v, u)] (the two graphs hold their nodes in a different
    order), the record lists [(u, v)] as added and [(v, u)] as removed,
    although both graphs have the link, and does not list it as
    modified. *)
Theorem flipped_link_is_added_and_removed
    (now : Z) (current previous : Graph) (u v : Node) :
  wf_graph current -> wf_graph previous -> u <> v ->
  (u, v) ∈ NX.edges current -> (v, u) ∈ NX.edges previous ->
  let c := compute_changes now current previous in
  (u, v) ∈ added_links c /\ (v, u) ∈ removed_links c
  /\ NX.has_edge current u v = true /\ NX.has_edge previous u v = true
  /\ forall m, m ∈ modified_links c ->
               ml_edge m <> (u, v) /\ ml_edge m <> (v, u).
Proof.
  intros Hc Hp Hne Huv Hvu. cbv zeta.
  assert (Hnp : (u, v) ∉ NX.edges previous).
  { intros H. apply (edges_one_direction previous v u); auto. }
  assert (Hnc : (v, u) ∉ NX.edges current).
  { apply edges_one_direction; auto. }
  split; [apply elem_of_added_links; auto|].
  split; [apply elem_of_removed_links; auto|].
  assert (Hdata : forall G a b, wf_graph G -> (a, b) ∈ NX.edges G ->
                    is_Some (NX.get_edge_data G a b)).
  { intros G a b Hwf Hab. unfold NX.edges in Hab.
    apply list_elem_of_fmap in Hab as ([[a1 b1] d] & E & Hin).
    cbn in E. injection E as <- <-.
    rewrite <- (find_edges_data G a b Hwf).
    rewrite (find_joins_Some _ a b (a, b, d)); [eauto| |exact Hin|reflexivity].
    apply NoDup_keys_edges_from; apply Hwf. }
  split; [apply bool_decide_eq_true_2, Hdata; auto|].
  split.
  { apply bool_decide_eq_true_2.
    rewrite (get_edge_data_key previous v u u v (ukey_comm u v)).
    apply Hdata; auto. }
  intros m Hm. apply elem_of_modified_links in Hm as (Hmc & Hmp & _).
  split; intros E; rewrite E in *; contradiction.
Qed.

Lemma flipped_link_is_added_and_removed_witness :
  let c := compute_changes 5 graph_ba graph_ab in
  ("b", "a") ∈ added_links c /\ ("a", "b") ∈ removed_links c
  /\ NX.has_edge graph_ba "b" "a" = true /\ NX.has_edge graph_ab "b" "a" = true
  /\ forall m, m ∈ modified_links c ->
               ml_edge m <> ("b", "a") /\ ml_edge m <> ("a", "b").
Proof.
  apply (flipped_link_is_added_and_removed 5 graph_ba graph_ab "b" "a").
  - apply wf_graph_graph_of.
  - apply wf_graph_graph_of.
  - discriminate.
  - apply (bool_decide_eq_true_1 _). vm_compute. reflexivity.
  - apply (bool_decide_eq_true_1 _). vm_compute. reflexivity.
Defined.

(** Two link dictionaries differ, for Python, as soon as one of the five
    values does. *)
Lemma link_data_neqb r1 t1 r2 t2 :
  data_neqb (Some (link_data r1 t1)) (Some (link_data r2 t2)) = false
  <-> link_type r1 = link_type r2 /\ layer r1 = layer r2
      /\ source_interface r1 = source_interface r2
      /\ target_interface r1 = target_interface r2 /\ t1 = t2.
Proof.
  unfold data_neqb, dict_eqb, link_data, make_link_data. cbn.
  repeat first [ rewrite decide_True by reflexivity
               | rewrite decide_False by discriminate ].
  rewrite negb_false_iff, !andb_true_r, !andb_true_iff, !bool_decide_eq_true.
  tauto.
Qed.

(** X9 — a link that persists is reported as modified exactly when one of
    its five attributes changed, the time stamp among them. For a link
    that [edges()] reports as [(u, v)] in both graphs, with the attributes
    of one [_add_link] call each, the record has a [modified_links] entry
    for it if and only if the two calls differ in link type, layer, an
    interface or the clock reading; so a link re-discovered unchanged at
    a later clock reading is reported as modified, with both
    dictionaries. *)
Theorem restamped_link_is_modified (now : Z) (current previous : Graph)
    (u v : Node) (r1 r2 : NetworkLink) (t1 t2 : Z) :
  (u, v) ∈ NX.edges current -> (u, v) ∈ NX.edges previous ->
  NX.get_edge_data current u v = Some (link_data r1 t1) ->
  NX.get_edge_data previous u v = Some (link_data r2 t2) ->
  let c := compute_changes now current previous in
  ((exists m, m ∈ modified_links c /\ ml_edge m = (u, v))
   <-> ~ (link_type r1 = link_type r2 /\ layer r1 = layer r2
          /\ source_interface r1 = source_interface r2
          /\ target_interface r1 = target_interface r2 /\ t1 = t2))
  /\ (t1 <> t2 ->
      mkModifiedLink (u, v) (Some (link_data r2 t2)) (Some (link_data r1 t1))
      ∈ modified_links c).
Proof.
  intros Hc Hp Hdc Hdp. cbv zeta. split.
  - rewrite <- link_data_neqb. split.
    + intros (m & Hm & He).
      apply elem_of_modified_links in Hm as (_ & _ & Hmc & Hmp & Hne).
      rewrite He in Hmc, Hmp. cbn in Hmc, Hmp.
      rewrite Hmc, Hmp, Hdc, Hdp in Hne. congruence.
    + intros Hne. apply not_false_is_true in Hne.
      exists (mkModifiedLink (u, v) (Some (link_data r2 t2))
                             (Some (link_data r1 t1))).
      split; [|reflexivity].
      apply elem_of_modified_links.
      cbn [ml_edge ml_current ml_previous fst snd]. auto.
  - intros Ht. apply elem_of_modified_links.
    cbn [ml_edge ml_current ml_previous fst snd].
    split; [exact Hc|]. split; [exact Hp|]. split; [auto|]. split; [auto|].
    apply not_false_is_true. rewrite link_data_neqb. tauto.
Qed.

Lemma restamped_link_is_modified_witness :
  let c := compute_changes 4002 (stamped_graph 4001) (stamped_graph 4000) in
  ((exists m, m ∈ modified_links c /\ ml_edge m = ("A", "B"))
   <-> ~ (link_type link_AB_eth0 = link_type link_AB_eth0
          /\ layer link_AB_eth0 = layer link_AB_eth0
          /\ source_interface link_AB_eth0 = source_interface link_AB_eth0
          /\ target_interface link_AB_eth0 = target_interface link_AB_eth0
          /\ 4001 = 4000))
  /\ (4001 <> 4000 ->
      mkModifiedLink ("A", "B") (Some (link_data link_AB_eth0 4000))
                     (Some (link_data link_AB_eth0 4001))
      ∈ modified_links c).
Proof.
  apply (restamped_link_is_modified 4002 (stamped_graph 4001)
           (stamped_graph 4000) "A" "B" link_AB_eth0 link_AB_eth0 4001 4000).
  - apply (bool_decide_eq_true_1 _). vm_compute. reflexivity.
  - apply (bool_decide_eq_true_1 _). vm_compute. reflexivity.
  - reflexivity.
  - reflexivity.
Defined.

(** X10 — a change record can be read back. When the clock reading is
    not zero, [_detect_topology_changes] appends one record, stamped with
    that reading, to the history and logs it; [get_topology_changes] then
    returns it, after the older records of the window, exactly when the
    window contains the reading. *)
Theorem recorded_change_is_found (env : Environment) (previous : Graph)
    (w : World) :
  clock env (ticks w) <> 0 ->
  exists w' c,
    _detect_topology_changes env previous w = Ret tt w'
    /\ c = compute_changes (clock env (ticks w)) (topology (self w)) previous
    /\ history (self w') = history (self w) ++ [c]
    /\ log w' = log w ++ [LogInfo "Topology changes detected" c]
    /\ forall a b,
        get_topology_changes a b w'
        = Ret (filter (fun c => a <= timestamp c <= b) (history (self w))
               ++ (if decide (a <= clock env (ticks w) <= b) then [c] else []))
              w'.
Proof.
  intros Hnz.
  unfold _detect_topology_changes, try_except, bind, time_time, get_self.
  cbn [self].
  set (c := compute_changes _ _ _).
  assert (Hany : any_changes c = true).
  { unfold any_changes, truthy_float. subst c. cbn [timestamp compute_changes].
    apply Z.eqb_neq in Hnz. rewrite Hnz. reflexivity. }
  rewrite Hany. cbn.
  eexists _, c. split; [reflexivity|]. split; [reflexivity|].
  cbn. split; [reflexivity|]. split; [reflexivity|].
  intros a b. unfold get_topology_changes, bind, get_self, ret. cbn [self history].
  rewrite filter_app. reflexivity.
Qed.

Lemma recorded_change_is_found_witness :
  exists w' c,
    _detect_topology_changes lldp_environment NX.empty published_world
    = Ret tt w'
    /\ c = compute_changes (clock lldp_environment (ticks published_world))
                           (topology (self published_world)) NX.empty
    /\ history (self w') = history (self published_world) ++ [c]
    /\ log w' = log published_world ++ [LogInfo "Topology changes detected" c]
    /\ forall a b,
        get_topology_changes a b w'
        = Ret (filter (fun c => a <= timestamp c <= b)
                      (history (self published_world))
               ++ (if decide (a <= clock lldp_environment (ticks published_world)
                              <= b)
                   then [c] else []))
              w'.
Proof.
  apply (recorded_change_is_found lldp_environment NX.empty published_world).
  vm_compute. discriminate.
Defined.

(** ** The merge, on arbitrary graphs *)

Lemma find_joins_filter (l : list (Node * Node * dict)) u v x y :
  snd <$> find (NX.joins x y) (filter (fun e => NX.joins u v e = false) l)
  = if decide (ukey x y = ukey u v) then None
    else snd <$> find (NX.joins x y) l.
Proof.
  induction l as [|e l IH].
  - destruct (decide _); reflexivity.
  - rewrite filter_cons. destruct (decide (NX.joins u v e = false)) as [Hf|Hf].
    + cbn [find]. destruct (NX.joins x y e) eqn:Hj.
      * rewrite decide_False; [reflexivity|].
        intros Hk. rewrite (joins_same_key u v x y e Hk) in Hj. congruence.
      * exact IH.
    + apply not_false_is_true in Hf. cbn [find].
      destruct (NX.joins x y e) eqn:Hj.
      * rewrite IH. rewrite decide_True; [|].
        -- rewrite decide_True in IH; [|].
           ++ apply joins_true in Hj, Hf. destruct (decide _) as [_|Hn]; [reflexivity|].
              exfalso. apply Hn. congruence.
           ++ apply joins_true in Hj, Hf. congruence.
        -- apply joins_true in Hj, Hf. congruence.
      * exact IH.
Qed.

Lemma get_edge_data_without_edge G u v x y :
  NX.get_edge_data (NX.without_edge G u v) x y
  = if decide (ukey x y = ukey u v) then None else NX.get_edge_data G x y.
Proof. apply find_joins_filter. Qed.

Lemma get_edge_data_nodes G u v :
  wf_graph G -> is_Some (NX.get_edge_data G u v) ->
  u ∈ NX.nodes G /\ v ∈ NX.nodes G.
Proof.
  intros (_ & _ & Hends) [d Hd]. unfold NX.get_edge_data in Hd.
  destruct (find _ _) as [e|] eqn:Hf; [|discriminate].
  apply find_some in Hf as [Hin Hj].
  rewrite Forall_forall in Hends.
  destruct (Hends e (proj2 (list_elem_of_In _ _) Hin)) as [H1 H2].
  unfold NX.joins in Hj. apply orb_true_iff in Hj.
  destruct Hj as [Hj|Hj]; apply bool_decide_eq_true in Hj as [<- <-]; auto.
Qed.

Lemma same_links_refl G : same_links G G.
Proof. split; reflexivity. Qed.

Lemma same_links_trans G H K :
  same_links G H -> same_links H K -> same_links G K.
Proof.
  intros [N1 E1] [N2 E2]. split.
  - intros x. rewrite N1. apply N2.
  - intros x y. rewrite E1. apply E2.
Qed.

(** Merging a duplicate replaces the attributes of a link and nothing
    else, whether the merge succeeds or raises. *)
Lemma merge_duplicate_same (st : Node * Node) (w : World) :
  wf_graph (topology (self w)) ->
  wf_graph (topology (self (final_state (merge_duplicate st w))))
  /\ same_links (topology (self (final_state (merge_duplicate st w))))
                (topology (self w)).
Proof.
  intros Hwf. unfold merge_duplicate, bind, get_self.
  destruct (NX.get_edge_data _ st.1 st.2) as [edges|] eqn:E;
    [|split; [exact Hwf | apply same_links_refl]].
  destruct (_merge_edge_data edges) as [m|err];
    [|split; [exact Hwf | apply same_links_refl]].
  unfold NX.remove_edge, NX.has_edge. rewrite E.
  rewrite bool_decide_eq_true_2 by eauto.
  cbn [lift ret final_state on_self modify self topology set_topology].
  change (NX.mkGraph _ _) with (NX.without_edge (topology (self w)) st.1 st.2).
  split.
  - apply wf_graph_add_edge, wf_graph_without_edge, Hwf.
  - destruct (get_edge_data_nodes _ _ _ Hwf (mk_is_Some _ _ E)) as [H1 H2].
    split.
    + intros x. rewrite elem_of_nodes_add_edge.
      change (NX.nodes (NX.without_edge ?G _ _)) with (NX.nodes G).
      split; [intros [H|[->| ->]]; auto | auto].
    + intros x y. rewrite get_edge_data_add_edge.
      destruct (decide (ukey x y = ukey st.1 st.2)) as [Hk|Hk].
      * rewrite (get_edge_data_key _ _ _ _ _ Hk), E. split; eauto.
      * rewrite get_edge_data_without_edge, decide_False by exact Hk.
        reflexivity.
Qed.

Lemma merge_duplicates_same (dups : list (Node * Node)) (w : World) :
  wf_graph (topology (self w)) ->
  wf_graph (topology (self (final_state (for_each dups merge_duplicate w))))
  /\ same_links (topology (self (final_state (for_each dups merge_duplicate w))))
                (topology (self w)).
Proof.
  revert w. induction dups as [|st dups IH]; intros w Hwf.
  - split; [exact Hwf | apply same_links_refl].
  - cbn [for_each]. unfold bind.
    destruct (merge_duplicate_same st w Hwf) as [Hwf1 Hs1].
    destruct (merge_duplicate st w) as [[] w1|err w1]; cbn [final_state] in *.
    + destruct (IH w1 Hwf1) as [Hwf2 Hs2].
      split; [exact Hwf2 | exact (same_links_trans _ _ _ Hs2 Hs1)].
    + auto.
Qed.

Lemma merge_duplicate_links_same (w : World) :
  wf_graph (topology (self w)) ->
  wf_graph (topology (self (final_state (_merge_duplicate_links w))))
  /\ same_links (topology (self (final_state (_merge_duplicate_links w))))
                (topology (self w)).
Proof.
  intros Hwf. unfold _merge_duplicate_links, bind, get_self.
  destruct (duplicate_edges _ _) as [dups|err];
    [|split; [exact Hwf | apply same_links_refl]].
  apply merge_duplicates_same, Hwf.
Qed.

Lemma merge_topologies_final (w : World) :
  self (final_state (_merge_topologies w))
  = self (final_state
      (_merge_duplicate_links
         (with_topology (union_graph (topology (self w))
                           (layer2_topology (self w)) (layer3_topology (self w)))
                        w))).
Proof.
  unfold _merge_topologies, try_except, bind, on_self, modify.
  cbn [self topology layer2_topology layer3_topology set_topology ticks log].
  unfold with_topology, union_graph, set_topology.
  destruct (_merge_duplicate_links _) as [[] w1|err w1]; reflexivity.
Qed.

Lemma wf_graph_union_graph T A B :
  wf_graph T -> wf_graph (union_graph T A B).
Proof.
  intros HT. unfold union_graph.
  apply wf_graph_add_edges_from, wf_graph_add_nodes_from,
    wf_graph_add_edges_from, wf_graph_add_nodes_from, HT.
Qed.

(** X11 — [_merge_topologies] builds the union, whatever the attributes.
    For well-formed graphs it returns without raising; afterwards the
    unified graph is well formed, its nodes are those it had together
    with those of the two layer graphs, it has a link between two nodes
    exactly when it had one or a layer graph has one (the treatment of
    duplicates changes attributes at most), and the layer graphs and the
    history are as before. *)
Theorem merge_topologies_union (w : World) :
  wf_graph (topology (self w)) ->
  wf_graph (layer2_topology (self w)) ->
  wf_graph (layer3_topology (self w)) ->
  exists w',
    _merge_topologies w = Ret tt w'
    /\ wf_graph (topology (self w'))
    /\ (forall x, x ∈ NX.nodes (topology (self w'))
                  <-> x ∈ NX.nodes (topology (self w))
                      \/ x ∈ NX.nodes (layer2_topology (self w))
                      \/ x ∈ NX.nodes (layer3_topology (self w)))
    /\ (forall x y, NX.has_edge (topology (self w')) x y
                    = NX.has_edge (topology (self w)) x y
                      || NX.has_edge (layer2_topology (self w)) x y
                      || NX.has_edge (layer3_topology (self w)) x y)
    /\ layer2_topology (self w') = layer2_topology (self w)
    /\ layer3_topology (self w') = layer3_topology (self w)
    /\ history (self w') = history (self w).
Proof.
  intros HT HA HB.
  destruct (merge_topologies_returns w) as [w' Hw']. exists w'.
  split; [exact Hw'|].
  pose proof (merge_topologies_final w) as Hf.
  pose proof (merge_topologies_keeps layer2_topology (fun _ _ => eq_refl) w) as H2.
  pose proof (merge_topologies_keeps layer3_topology (fun _ _ => eq_refl) w) as H3.
  pose proof (merge_topologies_keeps history (fun _ _ => eq_refl) w) as Hh.
  rewrite Hw' in Hf, H2, H3, Hh. cbn [final_state] in Hf, H2, H3, Hh.
  set (U := union_graph (topology (self w)) (layer2_topology (self w))
                        (layer3_topology (self w))) in *.
  destruct (merge_duplicate_links_same (with_topology U w)) as [Hwf [Hn He]].
  { apply wf_graph_union_graph, HT. }
  rewrite <- Hf in Hwf, Hn, He. cbn [with_topology self topology set_topology] in Hn, He.
  split; [exact Hwf|]. split.
  { intros x. rewrite Hn. apply elem_of_nodes_union_graph; assumption. }
  split; [|auto].
  intros x y. unfold NX.has_edge. rewrite (bool_decide_ext _ _ (He x y)).
  subst U. rewrite get_edge_data_union_graph by assumption. cbv zeta.
  destruct (NX.get_edge_data (topology (self w)) x y),
    (NX.get_edge_data (layer2_topology (self w)) x y),
    (NX.get_edge_data (layer3_topology (self w)) x y); reflexivity.
Qed.

Lemma merge_topologies_union_witness :
  exists w',
    _merge_topologies merging_world = Ret tt w'
    /\ wf_graph (topology (self w'))
    /\ (forall x, x ∈ NX.nodes (topology (self w'))
                  <-> x ∈ NX.nodes (topology (self merging_world))
                      \/ x ∈ NX.nodes (layer2_topology (self merging_world))
                      \/ x ∈ NX.nodes (layer3_topology (self merging_world)))
    /\ (forall x y, NX.has_edge (topology (self w')) x y
                    = NX.has_edge (topology (self merging_world)) x y
                      || NX.has_edge (layer2_topology (self merging_world)) x y
                      || NX.has_edge (layer3_topology (self merging_world)) x y)
    /\ layer2_topology (self w') = layer2_topology (self merging_world)
    /\ layer3_topology (self w') = layer3_topology (self merging_world)
    /\ history (self w') = history (self merging_world).
Proof.
  apply (merge_topologies_union merging_world).
  - apply wf_graph_graph_of.
  - apply wf_graph_add_edge, wf_graph_empty.
  - apply wf_graph_add_edge, wf_graph_empty.
Defined.

(** ** [_merge_edge_data] on the dictionaries it is written for *)

Lemma hashable_well_formed v : hashable v = true -> well_formed v = true.
Proof.
  induction v; simpl; try reflexivity; try discriminate.
  intros H. apply andb_true_iff in H as [H1 H2].
  rewrite IHv1, IHv2 by assumption. reflexivity.
Qed.

Lemma set_mem_app x s t : set_mem x s = true -> set_mem x (s ++ t) = true.
Proof.
  unfold set_mem. rewrite existsb_app. intros ->. reflexivity.
Qed.

Lemma set_add_spec s x :
  hashable x = true ->
  exists s', set_add s x = Ok s'
             /\ set_mem x s' = true
             /\ (forall y, set_mem y s = true -> set_mem y s' = true)
             /\ (length s' <= S (length s))%nat
             /\ (forall y, y ∈ s' -> y ∈ s \/ y = x).
Proof.
  intros Hx. unfold set_add. rewrite Hx.
  destruct (existsb (py_eqb x) s) eqn:E.
  - exists s. split; [reflexivity|]. split; [exact E|].
    split; [auto|]. split; [lia|]. auto.
  - exists (s ++ [x]). split; [reflexivity|]. split.
    + unfold set_mem. rewrite existsb_app. cbn.
      rewrite (py_eqb_refl x (hashable_well_formed x Hx)).
      rewrite orb_true_r. reflexivity.
    + split; [intros y; apply set_mem_app|].
      split; [rewrite length_app; simpl; lia|].
      intros y Hy. apply elem_of_app in Hy as [Hy|Hy]; [auto|].
      apply list_elem_of_singleton in Hy. auto.
Qed.

Lemma merge_one_spec (m : Merged) (v : value) :
  is_edge_record v = true ->
  exists d lt ly si ti m',
    v = VDict d
    /\ dict_get d "link_type" = Some lt /\ dict_get d "layer" = Some ly
    /\ dict_get d "source_interface" = Some si
    /\ dict_get d "target_interface" = Some ti
    /\ merge_one m v = Ok m'
    /\ set_mem lt (m_link_types m') = true
    /\ set_mem ly (m_layers m') = true
    /\ set_mem (VTuple si ti) (m_interfaces m') = true
    /\ (forall y, set_mem y (m_link_types m) = true ->
                  set_mem y (m_link_types m') = true)
    /\ (forall y, set_mem y (m_layers m) = true -> set_mem y (m_layers m') = true)
    /\ (forall y, set_mem y (m_interfaces m) = true ->
                  set_mem y (m_interfaces m') = true)
    /\ (length (m_interfaces m') <= S (length (m_interfaces m)))%nat.
Proof.
  destruct v as [| | | | |?|d]; try discriminate. cbn [is_edge_record].
  destruct (dict_get d "link_type") as [lt|] eqn:E1; [|discriminate].
  destruct (dict_get d "layer") as [ly|] eqn:E2; [|discriminate].
  destruct (dict_get d "source_interface") as [si|] eqn:E3; [|discriminate].
  destruct (dict_get d "target_interface") as [ti|] eqn:E4; [|discriminate].
  rewrite !andb_true_iff. intros [[[[H1 H2] H3] H4] H5].
  destruct (set_add_spec (m_link_types m) lt H1) as (lts & A1 & M1 & K1 & _).
  destruct (set_add_spec (m_layers m) ly H2) as (lys & A2 & M2 & K2 & _).
  destruct (set_add_spec (m_interfaces m) (VTuple si ti)) as (ifs & A3 & M3 & K3 & L3 & _).
  { cbn. rewrite H3, H4. reflexivity. }
  unfold merge_one, getitem. rewrite E1, E2, E3, E4. cbn [rbind].
  rewrite A1. cbn [rbind]. rewrite A2. cbn [rbind]. rewrite A3. cbn [rbind].
  destruct (dict_get d "metrics") as [[| | | | | |em]|]; try discriminate;
    eexists d, lt, ly, si, ti, _;
    (split; [reflexivity|]); (split; [exact E1|]); (split; [exact E2|]);
    (split; [exact E3|]); (split; [exact E4|]); (split; [reflexivity|]);
    cbn [m_link_types m_layers m_interfaces]; auto 10.
Qed.

Lemma merge_all_spec (vs : list value) (m : Merged) :
  forallb is_edge_record vs = true ->
  exists m',
    merge_all m vs = Ok m'
    /\ (forall d lt ly si ti,
          VDict d ∈ vs ->
          dict_get d "link_type" = Some lt -> dict_get d "layer" = Some ly ->
          dict_get d "source_interface" = Some si ->
          dict_get d "target_interface" = Some ti ->
          set_mem lt (m_link_types m') = true
          /\ set_mem ly (m_layers m') = true
          /\ set_mem (VTuple si ti) (m_interfaces m') = true)
    /\ (forall y, set_mem y (m_link_types m) = true ->
                  set_mem y (m_link_types m') = true)
    /\ (forall y, set_mem y (m_layers m) = true -> set_mem y (m_layers m') = true)
    /\ (forall y, set_mem y (m_interfaces m) = true ->
                  set_mem y (m_interfaces m') = true)
    /\ (length (m_interfaces m') <= length (m_interfaces m) + length vs)%nat.
Proof.
  revert m. induction vs as [|v vs IH]; intros m Hall.
  - exists m. split; [reflexivity|]. split; [|split; [auto|split; [auto|split; [auto|lia]]]].
    intros d lt ly si ti Hin. inversion Hin.
  - cbn [forallb] in Hall. apply andb_true_iff in Hall as [Hv Hvs].
    destruct (merge_one_spec m v Hv)
      as (d0 & lt0 & ly0 & si0 & ti0 & m1 & -> & E1 & E2 & E3 & E4 & Hm1
          & M1 & M2 & M3 & K1 & K2 & K3 & L3).
    destruct (IH m1 Hvs) as (m' & Hm' & Hmem & J1 & J2 & J3 & L').
    exists m'. cbn [merge_all]. rewrite Hm1. cbn [rbind].
    split; [exact Hm'|]. split.
    + intros d lt ly si ti Hin F1 F2 F3 F4.
      apply elem_of_cons in Hin as [[= ->]|Hin]; [|eauto].
      rewrite E1 in F1. rewrite E2 in F2. rewrite E3 in F3. rewrite E4 in F4.
      injection F1 as <-. injection F2 as <-. injection F3 as <-.
      injection F4 as <-. auto.
    + split; [auto|]. split; [auto|]. split; [auto|]. simpl. lia.
Qed.

(** X12 — [_merge_edge_data] on the input it is written for. Given a
    dictionary whose values are link dictionaries (the four link
    attributes present and hashable, ['metrics'] a dictionary if
    present), it raises nothing and returns the four merged entries; the
    link type, the layer and the interface pair of every value are
    members of the merged sets, and the interface set has at most one
    member per value. *)
Theorem merge_edge_data_collects (edges : dict) :
  forallb is_edge_record (dict_values edges) = true ->
  exists m,
    _merge_edge_data edges
    = Ok [("link_types", VSet (m_link_types m)); ("layers", VSet (m_layers m));
          ("interfaces", VSet (m_interfaces m)); ("metrics", VDict (m_metrics m))]
    /\ (forall k d lt ly si ti,
          (k, VDict d) ∈ edges ->
          dict_get d "link_type" = Some lt -> dict_get d "layer" = Some ly ->
          dict_get d "source_interface" = Some si ->
          dict_get d "target_interface" = Some ti ->
          set_mem lt (m_link_types m) = true
          /\ set_mem ly (m_layers m) = true
          /\ set_mem (VTuple si ti) (m_interfaces m) = true)
    /\ (length (m_interfaces m) <= length edges)%nat.
Proof.
  intros Hall.
  destruct (merge_all_spec _ (mkMerged [] [] [] []) Hall)
    as (m & Hm & Hmem & _ & _ & _ & Hlen).
  exists m. unfold _merge_edge_data. rewrite Hm. split; [reflexivity|]. split.
  - intros k d lt ly si ti Hin. apply Hmem.
    unfold dict_values. apply list_elem_of_fmap. exists (k, VDict d). auto.
  - unfold dict_values in Hlen. rewrite length_map in Hlen. exact Hlen.
Qed.

Lemma merge_edge_data_collects_witness :
  exists m,
    _merge_edge_data parallel_links
    = Ok [("link_types", VSet (m_link_types m)); ("layers", VSet (m_layers m));
          ("interfaces", VSet (m_interfaces m)); ("metrics", VDict (m_metrics m))]
    /\ (forall k d lt ly si ti,
          (k, VDict d) ∈ parallel_links ->
          dict_get d "link_type" = Some lt -> dict_get d "layer" = Some ly ->
          dict_get d "source_interface" = Some si ->
          dict_get d "target_interface" = Some ti ->
          set_mem lt (m_link_types m) = true
          /\ set_mem ly (m_layers m) = true
          /\ set_mem (VTuple si ti) (m_interfaces m) = true)
    /\ (length (m_interfaces m) <= length parallel_links)%nat.
Proof.
  apply (merge_edge_data_collects parallel_links).
  reflexivity.
Defined.

(** The merged entry of the two parallel links, evaluated *)
Example merge_edge_data_evaluated :
  _merge_edge_data parallel_links
  = Ok [("link_types", VSet [VLinkType PHYSICAL]);
        ("layers", VSet [VLayerType L2]);
        ("interfaces", VSet [VTuple (VStr "eth0") (VStr "eth1");
                             VTuple (VStr "eth2") (VStr "eth3")]);
        ("metrics", VDict [])].
Proof. reflexivity. Qed.

(** ** Discovery, as a function of the probes' records *)

Lemma insert_links_app clk i a b ly G :
  insert_links clk i (a ++ b) ly G
  = insert_links clk (i + length a) b ly (insert_links clk i a ly G).
Proof.
  revert i G. induction a as [|r a IH]; intros i G; cbn [app insert_links length].
  - rewrite Nat.add_0_r. reflexivity.
  - rewrite IH, Nat.add_succ_r. reflexivity.
Qed.

Section Discovery.

Context (env : Environment).

Lemma after_links_nil w : after_links env [] [] w = w.
Proof.
  destruct w as [[] t lg]. unfold after_links. cbn.
  rewrite Nat.add_0_r, app_nil_r. reflexivity.
Qed.

Lemma after_links_app a b lg1 lg2 w :
  after_links env b lg2 (after_links env a lg1 w)
  = after_links env (a ++ b) (lg1 ++ lg2) w.
Proof.
  destruct w as [[] t lg]. unfold after_links. cbn.
  rewrite !insert_links_app, length_app, Nat.add_assoc, app_assoc.
  reflexivity.
Qed.

Lemma after_links_log ls lg x w :
  mkWorld (self (after_links env ls lg w)) (ticks (after_links env ls lg w))
          (log (after_links env ls lg w) ++ [x])
  = after_links env ls (lg ++ [x]) w.
Proof. unfold after_links. cbn. rewrite app_assoc. reflexivity. Qed.

Lemma add_link_record_after r w :
  add_link_record env r w = Ret tt (after_links env [r] [] w).
Proof.
  rewrite add_link_record_run. unfold after_links. cbn [length].
  rewrite Nat.add_1_r, app_nil_r. reflexivity.
Qed.

Section Loop.

Context (parse : TopologyNode -> pdict -> result (option NetworkLink))
        (body : TopologyNode -> pdict -> M World unit).

Hypothesis body_parse : forall d r w,
  body d r w = match parse d r with
               | Ok (Some l) => add_link_record env l w
               | Ok None => Ret tt w
               | Err e => Raise e w
               end.

Lemma records_run d rs w :
  for_each rs (body d) w
  = Ret tt (after_links env (links_until_error (parse d) rs) [] w)
  \/ exists e,
      for_each rs (body d) w
      = Raise e (after_links env (links_until_error (parse d) rs) [] w).
Proof.
  revert w. induction rs as [|r rs IH]; intros w;
    cbn [for_each links_until_error].
  - left. rewrite after_links_nil. reflexivity.
  - unfold bind. rewrite body_parse.
    destruct (parse d r) as [[l|]|e].
    + rewrite add_link_record_after.
      change (l :: links_until_error (parse d) rs)
        with ([l] ++ links_until_error (parse d) rs).
      rewrite <- (after_links_app [l] _ [] [] w). apply IH.
    + apply IH.
    + right. exists e. rewrite after_links_nil. reflexivity.
Qed.

Lemma device_run probe msg d w :
  exists lg,
    try_except
      (records <~ lift (probe d) ;; for_each records (body d))
      (fun e => logger_error (String.append msg (device_ip d)) (Some e)) w
    = Ret tt (after_links env (device_links probe parse d) lg w).
Proof.
  unfold try_except, bind, device_links.
  destruct (probe d) as [rs|e]; cbn [lift ret raise].
  - destruct (records_run d rs w) as [->|[e ->]].
    + exists []. reflexivity.
    + eexists. unfold logger_error, modify. rewrite after_links_log.
      reflexivity.
  - eexists. unfold logger_error, modify.
    rewrite <- (after_links_nil w) at 1 2 3. rewrite after_links_log.
    reflexivity.
Qed.

Lemma devices_run probe msg ds w :
  exists lg,
    for_each ds (fun device =>
      try_except
        (records <~ lift (probe device) ;; for_each records (body device))
        (fun e => logger_error (String.append msg (device_ip device)) (Some e)))
      w
    = Ret tt (after_links env (protocol_links probe parse ds) lg w).
Proof.
  revert w. induction ds as [|d ds IH]; intros w; cbn [for_each].
  - exists []. rewrite after_links_nil. reflexivity.
  - unfold bind at 1. destruct (device_run probe msg d w) as [lg1 ->].
    destruct (IH (after_links env (device_links probe parse d) lg1 w))
      as [lg2 ->].
    exists (lg1 ++ lg2). rewrite after_links_app. reflexivity.
Qed.

Lemma per_device_run probe msg w :
  exists lg,
    per_device probe body msg w
    = Ret tt (after_links env
                (protocol_links probe parse (map snd (nodes (self w)))) lg w).
Proof. unfold per_device, bind, get_self. apply devices_run. Qed.

End Loop.

Lemma add_neighbor_parse d r w :
  add_neighbor env d r w
  = match parse_neighbor d r with
    | Ok (Some l) => add_link_record env l w
    | Ok None => Ret tt w
    | Err e => Raise e w
    end.
Proof.
  unfold add_neighbor, parse_neighbor, bind.
  destruct (pget r "remote_ip"); cbn [lift ret raise rbind]; [|reflexivity].
  destruct (pget r "local_interface"); cbn [lift ret raise rbind]; [|reflexivity].
  destruct (pget r "remote_interface"); cbn [lift ret raise rbind]; reflexivity.
Qed.

Lemma discover_lldp_run w :
  exists lg,
    _discover_lldp_topology env w
    = Ret tt (after_links env
                (protocol_links (_get_lldp_neighbors env) parse_neighbor
                                (map snd (nodes (self w)))) lg w).
Proof. apply per_device_run, add_neighbor_parse. Qed.

Lemma discover_cdp_run w :
  exists lg,
    _discover_cdp_topology env w
    = Ret tt (after_links env
                (protocol_links (_get_cdp_neighbors env) parse_neighbor
                                (map snd (nodes (self w)))) lg w).
Proof. apply per_device_run, add_neighbor_parse. Qed.

Lemma discover_stp_run w :
  exists lg,
    _discover_stp_topology env w
    = Ret tt (after_links env
                (protocol_links (_get_stp_info env) parse_port
                                (map snd (nodes (self w)))) lg w).
Proof.
  apply per_device_run. intros d r w0. unfold parse_port, bind.
  destruct (pget r "state") as [state|]; cbn [lift ret raise rbind]; [|reflexivity].
  destruct (decide (state = "forwarding")); [|reflexivity].
  unfold bind.
  destruct (pget r "neighbor_bridge"); cbn [lift ret raise rbind]; [|reflexivity].
  destruct (pget r "local_port"); cbn [lift ret raise rbind]; [|reflexivity].
  destruct (pget r "remote_port"); cbn [lift ret raise rbind]; reflexivity.
Qed.

Lemma discover_routing_run w :
  exists lg,
    _discover_routing_topology env w
    = Ret tt (after_links env
                (protocol_links (_get_routing_table env) parse_route
                                (map snd (nodes (self w)))) lg w).
Proof.
  apply per_device_run. intros d r w0. unfold parse_route, bind.
  destruct (pget r "type") as [type|]; cbn [lift ret raise rbind]; [|reflexivity].
  destruct (decide (type = "connected")); [|reflexivity].
  unfold bind.
  destruct (pget r "network"); cbn [lift ret raise rbind]; [|reflexivity].
  destruct (pget r "interface"); cbn [lift ret raise rbind]; reflexivity.
Qed.

Lemma discover_layer2_run w :
  exists lg,
    _discover_layer2_topology env w
    = Ret tt (after_links env (layer2_links env (map snd (nodes (self w)))) lg w).
Proof.
  unfold _discover_layer2_topology, try_except, bind, layer2_links.
  destruct (discover_lldp_run w) as [lg1 ->].
  destruct (discover_cdp_run (after_links env
              (protocol_links (_get_lldp_neighbors env) parse_neighbor
                              (map snd (nodes (self w)))) lg1 w)) as [lg2 ->].
  cbn [after_links self nodes set_layer3_topology set_layer2_topology].
  rewrite after_links_app.
  destruct (discover_stp_run (after_links env
              (protocol_links (_get_lldp_neighbors env) parse_neighbor
                              (map snd (nodes (self w)))
               ++ protocol_links (_get_cdp_neighbors env) parse_neighbor
                              (map snd (nodes (self w)))) (lg1 ++ lg2) w))
    as [lg3 ->].
  cbn [after_links self nodes set_layer3_topology set_layer2_topology].
  fold (after_links env
          (protocol_links (_get_lldp_neighbors env) parse_neighbor
                          (map snd (nodes (self w)))
           ++ protocol_links (_get_cdp_neighbors env) parse_neighbor
                          (map snd (nodes (self w)))) (lg1 ++ lg2) w).
  rewrite after_links_app, <- app_assoc.
  unfold raise, logger_error, modify. rewrite after_links_log.
  eexists. reflexivity.
Qed.

Lemma discover_layer3_run w :
  exists lg,
    _discover_layer3_topology env w
    = Ret tt (after_links env (layer3_links env (map snd (nodes (self w)))) lg w).
Proof.
  unfold _discover_layer3_topology, try_except, bind, layer3_links.
  destruct (discover_routing_run w) as [lg1 ->].
  unfold raise, logger_error, modify. rewrite after_links_log.
  eexists. reflexivity.
Qed.

(** Discovery: the links of the cycle are inserted, in their order, and
    nothing else happens to the manager. *)
Lemma discovery_run w :
  exists lg,
    (run _discover_layer2_topology env ;; _discover_layer3_topology env) w
    = Ret tt (after_links env (discovered env (self w)) lg w).
Proof.
  unfold bind, discovered.
  destruct (discover_layer2_run w) as [lg1 ->].
  destruct (discover_layer3_run
              (after_links env (layer2_links env (map snd (nodes (self w)))) lg1 w))
    as [lg2 ->].
  cbn [after_links self nodes set_layer3_topology set_layer2_topology].
  fold (after_links env (layer2_links env (map snd (nodes (self w)))) lg1 w).
  rewrite after_links_app. eexists. reflexivity.
Qed.

(** The graph a rebuild leaves in [self.topology] *)
Lemma rebuild_topology w :
  topology (self (final_state (rebuild env (cleared (tick w)))))
  = unified env (discovered env (self w)) (tick w).
Proof.
  unfold rebuild.
  destruct (discovery_run (cleared (tick w))) as [lg Hd].
  unfold bind in *.
  destruct (_discover_layer2_topology env (cleared (tick w))) as [[] w1|e w1];
    [|discriminate].
  destruct (_discover_layer3_topology env w1) as [[] w2|e w2]; [|discriminate].
  injection Hd as ->.
  rewrite merge_topologies_links.
  - rewrite unified_union. reflexivity.
  - reflexivity.
  - apply wf_graph_insert_links, wf_graph_empty.
  - apply wf_graph_insert_links, wf_graph_empty.
  - apply link_graph_insert_links, link_graph_empty.
  - apply link_graph_insert_links, link_graph_empty.
Qed.

(** A cycle that is not gated returns that graph. *)
Lemma update_topology_discovers w :
  ~ gated env w ->
  exists w',
    update_topology env w
    = Ret (unified env (discovered env (self w)) (tick w)) w'
    /\ topology (self w') = unified env (discovered env (self w)) (tick w)
    /\ last_update (self w') = clock env (ticks w)
    /\ nodes (self w') = nodes (self w).
Proof.
  intros Hg.
  pose proof (update_topology_keeps nodes env
                (fun _ _ => eq_refl) (fun _ _ => eq_refl) (fun _ _ => eq_refl)
                (fun _ _ => eq_refl) (fun _ _ => eq_refl) w) as Hn.
  destruct (update_topology_ungated env w Hg) as (w3 & w4 & Hr & Hd & Ht & Hu).
  pose proof (rebuild_topology w) as Hb. rewrite Hr in Hb. cbn [final_state] in Hb.
  rewrite Hu in Hn |- *. rewrite Hb. eexists. split; [reflexivity|].
  cbn [final_state self topology set_last_update last_update] in *.
  rewrite Ht, Hb. auto.
Qed.

End Discovery.

Lemma elem_of_links_until_error parse rs r :
  r ∈ links_until_error parse rs ->
  exists rec, rec ∈ rs /\ parse rec = Ok (Some r).
Proof.
  induction rs as [|rec rs IH]; cbn [links_until_error]; [inversion 1|].
  destruct (parse rec) as [[l|]|e] eqn:E.
  - intros H. apply elem_of_cons in H as [->|H].
    + exists rec. split; [left | exact E].
    + destruct (IH H) as (rec' & Hin & Hp). exists rec'. split; [right|]; auto.
  - intros H. destruct (IH H) as (rec' & Hin & Hp).
    exists rec'. split; [right|]; auto.
  - inversion 1.
Qed.

Lemma elem_of_protocol_links probe parse ds r :
  r ∈ protocol_links probe parse ds ->
  exists d rec, d ∈ ds /\ parse d rec = Ok (Some r).
Proof.
  unfold protocol_links. rewrite list_elem_of_In, in_flat_map.
  intros (d & Hd & Hr). apply list_elem_of_In in Hd, Hr.
  unfold device_links in Hr. destruct (probe d) as [rs|e]; [|inversion Hr].
  apply elem_of_links_until_error in Hr as (rec & _ & Hp). eauto.
Qed.

Lemma parse_neighbor_Some d rec r :
  parse_neighbor d rec = Ok (Some r) ->
  source_device r = device_ip d /\ link_type r = PHYSICAL /\ layer r = L2.
Proof.
  unfold parse_neighbor.
  destruct (pget rec "remote_ip"); cbn [rbind]; [|discriminate].
  destruct (pget rec "local_interface"); cbn [rbind]; [|discriminate].
  destruct (pget rec "remote_interface"); cbn [rbind]; [|discriminate].
  intros [= <-]. auto.
Qed.

Lemma parse_port_Some d rec r :
  parse_port d rec = Ok (Some r) ->
  source_device r = device_ip d /\ link_type r = PHYSICAL /\ layer r = L2.
Proof.
  unfold parse_port.
  destruct (pget rec "state") as [state|]; cbn [rbind]; [|discriminate].
  destruct (decide (state = "forwarding")); [|discriminate].
  destruct (pget rec "neighbor_bridge"); cbn [rbind]; [|discriminate].
  destruct (pget rec "local_port"); cbn [rbind]; [|discriminate].
  destruct (pget rec "remote_port"); cbn [rbind]; [|discriminate].
  intros [= <-]. auto.
Qed.

Lemma parse_route_Some d rec r :
  parse_route d rec = Ok (Some r) ->
  source_device r = device_ip d /\ link_type r = LOGICAL /\ layer r = L3
  /\ target_interface r = "N/A".
Proof.
  unfold parse_route.
  destruct (pget rec "type") as [type|]; cbn [rbind]; [|discriminate].
  destruct (decide (type = "connected")); [|discriminate].
  destruct (pget rec "network"); cbn [rbind]; [|discriminate].
  destruct (pget rec "interface"); cbn [rbind]; [|discriminate].
  intros [= <-]. auto.
Qed.

(** Every link of a cycle starts at a registered device, and is a
    physical layer-2 link or a logical layer-3 link without remote
    interface. *)
Lemma discovered_shape env s r :
  r ∈ discovered env s ->
  (exists dev, dev ∈ map snd (nodes s) /\ source_device r = device_ip dev)
  /\ ((link_type r = PHYSICAL /\ layer r = L2)
      \/ (link_type r = LOGICAL /\ layer r = L3 /\ target_interface r = "N/A")).
Proof.
  unfold discovered, layer2_links, layer3_links. rewrite !elem_of_app.
  intros [[H|[H|H]]|H];
    apply elem_of_protocol_links in H as (d & rec & Hd & Hp).
  - apply parse_neighbor_Some in Hp as (? & ? & ?). split; eauto.
  - apply parse_neighbor_Some in Hp as (? & ? & ?). split; eauto.
  - apply parse_port_Some in Hp as (? & ? & ?). split; eauto.
  - apply parse_route_Some in Hp as (? & ? & ? & ?). split; eauto.
Qed.

Lemma lookup_link_Some_key clk i rs ly u v acc d :
  lookup_link clk i rs ly u v acc = Some d ->
  acc = Some d
  \/ exists r now, r ∈ rs /\ link_key r = (ly, ukey u v) /\ d = link_data r now.
Proof.
  revert i acc. induction rs as [|r rs IH]; intros i acc; cbn [lookup_link].
  - auto.
  - intros H. apply IH in H as [H|(r' & now & Hin & Hk & ->)].
    + destruct (decide (link_key r = (ly, ukey u v))) as [Hk|Hk]; [|auto].
      injection H as <-. right. exists r, (clk i). split; [left|]. auto.
    + right. exists r', now. split; [right|]; auto.
Qed.

(** X13 — what a cycle publishes. A call of [update_topology] that is
    not gated returns, and leaves in [self.topology], the graph obtained
    from emptied graphs by inserting the links read off the probes'
    records: per protocol (LLDP, CDP, forwarding spanning-tree ports,
    then connected routes) and per device in the order of the device
    table, the records before the first one that raises; a device whose
    probe raises yields none. The graph is well formed, its nodes are the
    end points of those links, and the attributes of a link are those of
    the last record for its node pair, a layer-3 record taking
    precedence. *)
Theorem update_publishes_discovered_links (env : Environment) (w : World) :
  ~ gated env w ->
  exists g w',
    update_topology env w = Ret g w'
    /\ topology (self w') = g
    /\ g = unified env (discovered env (self w)) (tick w)
    /\ wf_graph g
    /\ (forall x, x ∈ NX.nodes g
                  <-> exists r, r ∈ discovered env (self w)
                                /\ (x = source_device r \/ x = target_device r))
    /\ (forall u v,
          NX.get_edge_data g u v
          = match lookup_link (clock env) (S (ticks w))
                              (discovered env (self w)) L3 u v None with
            | Some d => Some d
            | None => lookup_link (clock env) (S (ticks w))
                                  (discovered env (self w)) L2 u v None
            end).
Proof.
  intros Hg.
  destruct (update_topology_discovers env w Hg) as (w' & Hu & Ht & _).
  eexists _, w'. split; [exact Hu|]. split; [exact Ht|].
  split; [reflexivity|]. split; [apply wf_graph_unified|]. split.
  - intros x. rewrite elem_of_nodes_unified. split.
    + intros (r & Hr & _ & Hx). eauto.
    + intros (r & Hr & Hx). exists r. split; [exact Hr|]. split; [|exact Hx].
      destruct (discovered_shape env _ r Hr) as [_ [[_ H]|[_ [H _]]]]; auto.
  - intros u v. apply get_edge_data_unified.
Qed.

Lemma update_publishes_discovered_links_witness :
  exists g w',
    update_topology partial_environment two_device_world = Ret g w'
    /\ topology (self w') = g
    /\ g = unified partial_environment
                   (discovered partial_environment (self two_device_world))
                   (tick two_device_world)
    /\ wf_graph g
    /\ (forall x, x ∈ NX.nodes g
                  <-> exists r, r ∈ discovered partial_environment
                                      (self two_device_world)
                                /\ (x = source_device r \/ x = target_device r))
    /\ (forall u v,
          NX.get_edge_data g u v
          = match lookup_link (clock partial_environment)
                              (S (ticks two_device_world))
                              (discovered partial_environment
                                          (self two_device_world))
                              L3 u v None with
            | Some d => Some d
            | None => lookup_link (clock partial_environment)
                                  (S (ticks two_device_world))
                                  (discovered partial_environment
                                              (self two_device_world))
                                  L2 u v None
            end).
Proof.
  apply (update_publishes_discovered_links partial_environment two_device_world).
  unfold gated. vm_compute. discriminate.
Defined.

(** The records of that cycle, and the graph, evaluated *)
Example discovered_evaluated :
  discovered partial_environment (self two_device_world)
  = [observed_link "A" "C" PHYSICAL L2 "eth0" "eth1";
     observed_link "A" "10.0.0.0/24" LOGICAL L3 "vlan10" "N/A"]
  /\ NX.edges (topology (self (final_state
        (update_topology partial_environment two_device_world))))
     = [("A", "C"); ("A", "10.0.0.0/24")].
Proof. split; vm_compute; reflexivity. Qed.

Lemma protocol_links_stub parse ds :
  protocol_links (fun _ => Ok []) parse ds = [].
Proof. induction ds as [|d ds IH]; [reflexivity | exact IH]. Qed.

(** X14 — the class as it stands never finds a link. With the four
    probes as the class defines them (each returns the empty list), every
    call that is not gated returns the empty graph, whatever the device
    table holds and whatever graph was published before. *)
Theorem stub_probes_publish_empty_graph (clk : nat -> Z) (w : World) :
  ~ gated (stub_environment clk) w ->
  exists w',
    update_topology (stub_environment clk) w = Ret NX.empty w'
    /\ topology (self w') = NX.empty
    /\ last_update (self w') = clk (ticks w)
    /\ nodes (self w') = nodes (self w).
Proof.
  intros Hg.
  destruct (update_topology_discovers _ w Hg) as (w' & Hu & Ht & Hl & Hn).
  assert (E : unified (stub_environment clk)
                (discovered (stub_environment clk) (self w)) (tick w)
              = NX.empty).
  { unfold discovered, layer2_links, layer3_links. cbn [stub_environment
      _get_lldp_neighbors _get_cdp_neighbors _get_stp_info _get_routing_table].
    rewrite !protocol_links_stub. rewrite unified_union. reflexivity. }
  rewrite E in Hu, Ht. exists w'. auto.
Qed.

Lemma stub_probes_publish_empty_graph_witness :
  exists w',
    update_topology (stub_environment (fun n => 4000 + Z.of_nat n))
                    two_device_world = Ret NX.empty w'
    /\ topology (self w') = NX.empty
    /\ last_update (self w') = (fun n => 4000 + Z.of_nat n) (ticks two_device_world)
    /\ nodes (self w') = nodes (self two_device_world).
Proof.
  apply (stub_probes_publish_empty_graph (fun n => 4000 + Z.of_nat n)
           two_device_world).
  unfold gated. vm_compute. discriminate.
Defined.

Lemma protocol_links_app probe parse ds1 ds2 :
  protocol_links probe parse (ds1 ++ ds2)
  = protocol_links probe parse ds1 ++ protocol_links probe parse ds2.
Proof. apply flat_map_app. Qed.

Lemma protocol_links_failing probe parse ds1 d ds2 e :
  probe d = Err e ->
  protocol_links probe parse (ds1 ++ d :: ds2)
  = protocol_links probe parse (ds1 ++ ds2).
Proof.
  intros Hp. rewrite !protocol_links_app. f_equal.
  unfold protocol_links. cbn [flat_map]. unfold device_links at 1.
  rewrite Hp. reflexivity.
Qed.

(** X15 — a device that cannot be probed is as good as absent. When all
    four probes raise for a device, a cycle publishes the graph it would
    publish without that device in the table: the failures neither stop
    the cycle nor disturb the links of the other devices. *)
Theorem failing_device_is_isolated (env : Environment) (w1 w2 : World)
    (l1 l2 : list (string * TopologyNode)) (k : string) (d : TopologyNode)
    (e1 e2 e3 e4 : exn) :
  nodes (self w1) = l1 ++ (k, d) :: l2 ->
  nodes (self w2) = l1 ++ l2 ->
  ticks w1 = ticks w2 ->
  _get_lldp_neighbors env d = Err e1 -> _get_cdp_neighbors env d = Err e2 ->
  _get_stp_info env d = Err e3 -> _get_routing_table env d = Err e4 ->
  ~ gated env w1 -> ~ gated env w2 ->
  exists g w1' w2',
    update_topology env w1 = Ret g w1'
    /\ update_topology env w2 = Ret g w2'
    /\ topology (self w1') = g /\ topology (self w2') = g.
Proof.
  intros Hn1 Hn2 Ht H1 H2 H3 H4 Hg1 Hg2.
  destruct (update_topology_discovers env w1 Hg1) as (w1' & Hu1 & Ht1 & _).
  destruct (update_topology_discovers env w2 Hg2) as (w2' & Hu2 & Ht2 & _).
  assert (E : unified env (discovered env (self w1)) (tick w1)
              = unified env (discovered env (self w2)) (tick w2)).
  { rewrite !unified_union. unfold discovered, layer2_links, layer3_links.
    rewrite Hn1, Hn2, !map_app. cbn [map snd tick ticks].
    rewrite (protocol_links_failing _ _ _ _ _ _ H1),
      (protocol_links_failing _ _ _ _ _ _ H2),
      (protocol_links_failing _ _ _ _ _ _ H3),
      (protocol_links_failing _ _ _ _ _ _ H4), Ht. reflexivity. }
  rewrite <- E in Hu2, Ht2. eexists _, w1', w2'.
  split; [exact Hu1|]. split; [exact Hu2|]. split; [exact Ht1 | exact Ht2].
Qed.

Lemma failing_device_is_isolated_witness :
  exists g w1' w2',
    update_topology partial_environment two_device_world = Ret g w1'
    /\ update_topology partial_environment
         (mkWorld (mkTopologyManager [] NX.empty NX.empty NX.empty
                     [("A", device_A)] [] 0 3600) 0 [])
       = Ret g w2'
    /\ topology (self w1') = g /\ topology (self w2') = g.
Proof.
  apply (failing_device_is_isolated partial_environment two_device_world
           (mkWorld (mkTopologyManager [] NX.empty NX.empty NX.empty
                       [("A", device_A)] [] 0 3600) 0 [])
           [("A", device_A)] [] "B" device_B
           (ProbeError "timeout") (ProbeError "timeout")
           (ProbeError "timeout") (ProbeError "timeout")).
  - reflexivity.
  - reflexivity.
  - reflexivity.
  - reflexivity.
  - reflexivity.
  - reflexivity.
  - reflexivity.
  - unfold gated. vm_compute. discriminate.
  - unfold gated. vm_compute. discriminate.
Defined.

(** X16 — where a published link comes from. Every link of the graph a
    cycle publishes has a registered device at one end, and its
    attributes are those of one [_add_link] call of the discovery loops:
    physical on layer 2, or logical on layer 3 with ['N/A'] as target
    interface; no link carries the merged entries of
    [_merge_edge_data]. *)
Theorem published_links_origin (env : Environment) (w : World) :
  ~ gated env w ->
  exists g w',
    update_topology env w = Ret g w'
    /\ forall u v d,
        NX.get_edge_data g u v = Some d ->
        (exists dev, dev ∈ map snd (nodes (self w))
                     /\ (device_ip dev = u \/ device_ip dev = v))
        /\ ((dict_get d "link_type" = Some (VLinkType PHYSICAL)
             /\ dict_get d "layer" = Some (VLayerType L2))
            \/ (dict_get d "link_type" = Some (VLinkType LOGICAL)
                /\ dict_get d "layer" = Some (VLayerType L3)
                /\ dict_get d "target_interface" = Some (VStr "N/A")))
        /\ dict_get d "link_types" = None
        /\ dict_get d "interfaces" = None.
Proof.
  intros Hg.
  destruct (update_topology_discovers env w Hg) as (w' & Hu & _).
  eexists _, w'. split; [exact Hu|]. intros u v d.
  rewrite get_edge_data_unified. intros Hd.
  assert (Hr : exists r now, r ∈ discovered env (self w)
                 /\ ukey (source_device r) (target_device r) = ukey u v
                 /\ d = link_data r now).
  { destruct (lookup_link _ _ _ L3 u v None) as [d3|] eqn:E3.
    - injection Hd as <-.
      apply lookup_link_Some_key in E3 as [E3|(r & now & Hin & Hk & ->)];
        [discriminate|].
      exists r, now. unfold link_key in Hk. injection Hk as _ Hk. auto.
    - apply lookup_link_Some_key in Hd as [Hd|(r & now & Hin & Hk & ->)];
        [discriminate|].
      exists r, now. unfold link_key in Hk. injection Hk as _ Hk. auto. }
  destruct Hr as (r & now & Hin & Hk & ->).
  destruct (discovered_shape env _ r Hin) as [(dev & Hdev & Hsrc) Hty].
  split.
  - exists dev. split; [exact Hdev|]. rewrite <- Hsrc.
    apply ukey_eq in Hk as [[-> _]|[-> _]]; auto.
  - split; [|split; reflexivity].
    destruct Hty as [[Hlt Hly]|(Hlt & Hly & Hti)].
    + left. unfold link_data, make_link_data. cbn. rewrite Hlt, Hly. auto.
    + right. unfold link_data, make_link_data. cbn. rewrite Hlt, Hly, Hti. auto.
Qed.

Lemma published_links_origin_witness :
  exists g w',
    update_topology partial_environment two_device_world = Ret g w'
    /\ forall u v d,
        NX.get_edge_data g u v = Some d ->
        (exists dev, dev ∈ map snd (nodes (self two_device_world))
                     /\ (device_ip dev = u \/ device_ip dev = v))
        /\ ((dict_get d "link_type" = Some (VLinkType PHYSICAL)
             /\ dict_get d "layer" = Some (VLayerType L2))
            \/ (dict_get d "link_type" = Some (VLinkType LOGICAL)
                /\ dict_get d "layer" = Some (VLayerType L3)
                /\ dict_get d "target_interface" = Some (VStr "N/A")))
        /\ dict_get d "link_types" = None
        /\ dict_get d "interfaces" = None.
Proof.
  apply (published_links_origin partial_environment two_device_world).
  unfold gated. vm_compute. discriminate.
Defined.

(** ** Two cycles in a row *)

Lemma lookup_link_last_match clk i rs ly u v p acc :
  lookup_link clk (i + p)%nat rs ly u v
    ((fun rp : NetworkLink * nat => link_data rp.1 (clk (i + rp.2)%nat)) <$> acc)
  = (fun rp : NetworkLink * nat => link_data rp.1 (clk (i + rp.2)%nat))
      <$> last_match rs ly u v p acc.
Proof.
  revert p acc. induction rs as [|r rs IH]; intros p acc;
    cbn [lookup_link last_match]; [reflexivity|].
  rewrite <- IH, Nat.add_succ_r. f_equal.
  destruct (decide (link_key r = (ly, ukey u v))); reflexivity.
Qed.

Lemma lookup_link_position clk i rs ly u v :
  lookup_link clk i rs ly u v None
  = (fun rp : NetworkLink * nat => link_data rp.1 (clk (i + rp.2)%nat))
      <$> last_match rs ly u v 0 None.
Proof.
  rewrite <- (lookup_link_last_match clk i rs ly u v 0 None), Nat.add_0_r.
  reflexivity.
Qed.

Lemma nodes_add_nodes_from_names (l : list (Node * dict)) G :
  NX.nodes (NX.add_nodes_from G l) = add_node_names (NX.nodes G) (map fst l).
Proof.
  unfold NX.add_nodes_from, add_node_names. revert G.
  induction l as [|nd l IH]; intros G; cbn [fold_left map]; [reflexivity|].
  rewrite IH, nodes_add_node. reflexivity.
Qed.

Lemma add_node_names_fresh (acc l : list Node) :
  NoDup (acc ++ l) -> add_node_names acc l = acc ++ l.
Proof.
  unfold add_node_names. revert acc.
  induction l as [|n l IH]; intros acc Hnd; cbn [fold_left].
  - rewrite app_nil_r. reflexivity.
  - rewrite decide_False.
    + rewrite IH; rewrite <- app_assoc; [reflexivity | exact Hnd].
    + apply NoDup_app in Hnd as (_ & Hd & _). intros Hin.
      apply (Hd n Hin). left.
Qed.

Lemma nodes_add_edge_names G u v (a : dict) :
  NX.nodes (NX.add_edge G u v a) = add_node_names (NX.nodes G) [u; v].
Proof.
  change (NX.nodes (NX.add_edge G u v a))
    with (NX.nodes (NX.add_node (NX.add_node G u []) v [])).
  rewrite !nodes_add_node. reflexivity.
Qed.

(** The order of the nodes does not depend on the clock. *)
Lemma nodes_insert_links_clock clk1 clk2 i1 i2 rs ly G1 G2 :
  NX.nodes G1 = NX.nodes G2 ->
  NX.nodes (insert_links clk1 i1 rs ly G1)
  = NX.nodes (insert_links clk2 i2 rs ly G2).
Proof.
  revert i1 i2 G1 G2. induction rs as [|r rs IH]; intros i1 i2 G1 G2 HG;
    cbn [insert_links]; [exact HG|].
  apply IH. destruct (decide (layer r = ly)); [|exact HG].
  rewrite !nodes_add_edge_names, HG. reflexivity.
Qed.

Lemma nodes_add_edges_data T A :
  wf_graph A -> (forall x, x ∈ NX.nodes A -> x ∈ NX.nodes T) ->
  NX.nodes (NX.add_edges_from T (NX.edges_data A)) = NX.nodes T.
Proof.
  intros HA Hsub. apply nodes_add_edges_from_old. apply Forall_forall.
  intros e He. destruct (edges_data_nodes A e HA He). auto.
Qed.

Lemma nodes_union_graph A B :
  wf_graph A -> wf_graph B ->
  NX.nodes (union_graph NX.empty A B)
  = add_node_names (add_node_names [] (NX.nodes A)) (NX.nodes B).
Proof.
  intros HA HB. unfold union_graph.
  rewrite nodes_add_edges_data; [|exact HB|].
  - rewrite nodes_add_nodes_from_names, nodes_add_edges_data; [|exact HA|].
    + rewrite nodes_add_nodes_from_names. reflexivity.
    + intros x Hx. apply elem_of_nodes_add_nodes_from. right. exact Hx.
  - intros x Hx. apply elem_of_nodes_add_nodes_from. right. exact Hx.
Qed.

Lemma nodes_unified_clock env1 env2 rs w1 w2 :
  NX.nodes (unified env1 rs w1) = NX.nodes (unified env2 rs w2).
Proof.
  rewrite !unified_union.
  rewrite !nodes_union_graph
    by (apply wf_graph_insert_links, wf_graph_empty).
  rewrite (nodes_insert_links_clock (clock env1) (clock env2)
             (ticks w1) (ticks w2) rs L2 NX.empty NX.empty eq_refl).
  rewrite (nodes_insert_links_clock (clock env1) (clock env2)
             (ticks w1) (ticks w2) rs L3 NX.empty NX.empty eq_refl).
  reflexivity.
Qed.

Lemma neighbors_get_edge_data G u v :
  v ∈ NX.neighbors G u <-> is_Some (NX.get_edge_data G u v).
Proof.
  rewrite elem_of_neighbors. unfold NX.get_edge_data. split.
  - intros (e & He & Hk).
    destruct (find (NX.joins u v) (NX.g_edge G)) as [e'|] eqn:Hf; [eauto|].
    apply list_elem_of_In in He.
    pose proof (find_none _ _ Hf e He) as Hj.
    apply joins_false in Hj. contradiction.
  - intros [d Hd].
    destruct (find (NX.joins u v) (NX.g_edge G)) as [e|] eqn:Hf; [|discriminate].
    apply find_some in Hf as [Hin Hj]. exists e.
    split; [apply list_elem_of_In, Hin | apply joins_true, Hj].
Qed.

(** [edges()] is determined by the order of the nodes and by which
    pairs are linked. *)
Lemma edges_same G H :
  NX.nodes G = NX.nodes H ->
  (forall u v, is_Some (NX.get_edge_data G u v)
               <-> is_Some (NX.get_edge_data H u v)) ->
  forall e, e ∈ NX.edges G <-> e ∈ NX.edges H.
Proof.
  intros Hn He [u v]. rewrite !elem_of_edges, Hn.
  setoid_rewrite neighbors_get_edge_data. setoid_rewrite He. reflexivity.
Qed.

(** *** The copy taken at the start of a cycle *)

Lemma elem_of_adjacency_triples G t :
  t ∈ NX.adjacency_triples G
  <-> t.1.1 ∈ NX.nodes G /\ (t.1.2, t.2) ∈ NX.adj G t.1.1.
Proof.
  unfold NX.adjacency_triples. rewrite list_elem_of_In, in_flat_map. split.
  - intros (n & Hn & Ht). apply list_elem_of_In in Hn.
    apply list_elem_of_In, list_elem_of_fmap in Ht as ([m d] & -> & Hin).
    auto.
  - intros [Hn Ha]. exists t.1.1. split; [apply list_elem_of_In, Hn|].
    apply list_elem_of_In, list_elem_of_fmap. exists (t.1.2, t.2).
    split; [destruct t as [[? ?] ?]; reflexivity | exact Ha].
Qed.

Lemma adjacency_triple_edge G t :
  t ∈ NX.adjacency_triples G ->
  exists e, e ∈ NX.g_edge G /\ e.2 = t.2 /\ ekey e = ekey t.
Proof.
  intros Ht. apply elem_of_adjacency_triples in Ht as [_ Ha].
  apply elem_of_adj in Ha as (e & He & Hd & Hends). exists e.
  split; [exact He|]. split; [exact Hd|]. unfold ekey.
  destruct Hends as [[-> ->]|[Hb Ha]]; [reflexivity|].
  rewrite <- Ha, <- Hb. apply ukey_comm.
Qed.

Lemma get_edge_data_elem G e :
  wf_graph G -> e ∈ NX.g_edge G ->
  NX.get_edge_data G e.1.1 e.1.2 = Some e.2.
Proof.
  intros (_ & Hnd & _) He. unfold NX.get_edge_data.
  rewrite (find_joins_Some _ e.1.1 e.1.2 e Hnd He eq_refl). reflexivity.
Qed.

(** Adding edges that agree with each other and with the graph *)
Lemma get_edge_data_add_consistent (es : list (Node * Node * dict)) H u v :
  link_graph H ->
  (forall e, e ∈ es -> is_link_data e.2) ->
  (forall e1 e2, e1 ∈ es -> e2 ∈ es -> ekey e1 = ekey e2 -> e1.2 = e2.2) ->
  (forall e d, e ∈ es -> NX.get_edge_data H e.1.1 e.1.2 = Some d -> d = e.2) ->
  NX.get_edge_data (NX.add_edges_from H es) u v
  = match find (NX.joins u v) es with
    | Some e => Some e.2
    | None => NX.get_edge_data H u v
    end.
Proof.
  unfold NX.add_edges_from. revert H.
  induction es as [|e es IH]; intros H HL Hld Hcons HH; cbn [fold_left find];
    [reflexivity|].
  rewrite IH.
  - destruct (NX.joins u v e) eqn:Hj.
    + apply joins_true in Hj.
      destruct (find (NX.joins u v) es) as [e'|] eqn:Hf.
      * apply find_some in Hf as [Hin Hj']. apply joins_true in Hj'.
        f_equal. apply Hcons; [right; apply list_elem_of_In, Hin | left |].
        congruence.
      * rewrite get_edge_data_add_link; [|exact HL | apply Hld; left].
        rewrite decide_True; [reflexivity | symmetry; exact Hj].
    + apply joins_false in Hj.
      destruct (find (NX.joins u v) es) as [e'|]; [reflexivity|].
      rewrite get_edge_data_add_link; [|exact HL | apply Hld; left].
      rewrite decide_False; [reflexivity | unfold ekey in Hj; congruence].
  - apply link_graph_add_edge; [exact HL | apply Hld; left].
  - intros e' He'. apply Hld. right. exact He'.
  - intros e1 e2 H1 H2. apply Hcons; right; assumption.
  - intros e' d He' Hd.
    rewrite get_edge_data_add_link in Hd; [|exact HL | apply Hld; left].
    destruct (decide (ukey e'.1.1 e'.1.2 = ukey e.1.1 e.1.2)) as [Hk|Hk].
    + injection Hd as <-. apply Hcons; [left | right; exact He' |].
      symmetry. exact Hk.
    + apply (HH e' d); [right; exact He' | exact Hd].
Qed.

(** The copy of a graph of link records has the nodes, in their order,
    and the links of the original, with the same attributes. *)
Lemma copy_link_graph G :
  wf_graph G -> link_graph G ->
  NX.nodes (NX.copy G) = NX.nodes G
  /\ forall u v, NX.get_edge_data (NX.copy G) u v = NX.get_edge_data G u v.
Proof.
  intros Hwf HL. unfold NX.copy. split.
  - rewrite nodes_add_edges_from_old.
    + rewrite nodes_add_nodes_from_names. apply (add_node_names_fresh []).
      apply Hwf.
    + apply Forall_forall. intros t Ht.
      rewrite !elem_of_nodes_add_nodes_from.
      apply elem_of_adjacency_triples in Ht as [Hn Ha].
      split; [right; exact Hn|]. right.
      apply elem_of_adj in Ha as (e & He & _ & Hends).
      destruct Hwf as (_ & _ & Hall). rewrite Forall_forall in Hall.
      destruct (Hall e He) as [H1 H2].
      destruct Hends as [[_ <-]|[_ <-]]; assumption.
  - intros u v. rewrite get_edge_data_add_consistent.
    + rewrite get_edge_data_add_nodes_from.
      change (NX.get_edge_data NX.empty u v) with (@None dict).
      destruct (find (NX.joins u v) (NX.adjacency_triples G)) as [t|] eqn:Hf.
      * apply find_some in Hf as [Hin Hj]. apply list_elem_of_In in Hin.
        apply joins_true in Hj.
        destruct (adjacency_triple_edge G t Hin) as (e & He & Hd & Hk).
        rewrite <- Hd, <- (get_edge_data_elem G e Hwf He).
        apply get_edge_data_key. unfold ekey in *. congruence.
      * destruct (NX.get_edge_data G u v) as [d|] eqn:Hd; [|reflexivity].
        exfalso. unfold NX.get_edge_data in Hd.
        destruct (find (NX.joins u v) (NX.g_edge G)) as [e|] eqn:He;
          [|discriminate].
        apply find_some in He as [Hin Hj]. apply list_elem_of_In in Hin.
        destruct Hwf as (_ & _ & Hall). rewrite Forall_forall in Hall.
        destruct (Hall e Hin) as [H1 H2].
        assert (Ht : (e.1.1, e.1.2, e.2) ∈ NX.adjacency_triples G).
        { apply elem_of_adjacency_triples. split; [exact H1|].
          apply elem_of_adj. exists e. auto. }
        apply list_elem_of_In in Ht.
        pose proof (find_none _ _ Hf _ Ht) as Hn.
        unfold NX.joins in Hj, Hn. cbn [fst snd] in Hn. congruence.
    + intros x y d. rewrite get_edge_data_add_nodes_from. discriminate.
    + intros t Ht.
      destruct (adjacency_triple_edge G t Ht) as (e & He & <- & _).
      apply (HL e.1.1 e.1.2), get_edge_data_elem; assumption.
    + intros t1 t2 Ht1 Ht2 Hk.
      destruct (adjacency_triple_edge G t1 Ht1) as (e1 & He1 & <- & Hk1).
      destruct (adjacency_triple_edge G t2 Ht2) as (e2 & He2 & <- & Hk2).
      f_equal. destruct Hwf as (_ & Hnd & _).
      apply (NoDup_fmap_eq ekey (NX.g_edge G)); [exact Hnd|exact He1|exact He2|].
      congruence.
    + intros t d _. rewrite get_edge_data_add_nodes_from. discriminate.
Qed.

(** *** The clock readings of a cycle *)

Lemma merge_duplicates_ticks (dups : list (Node * Node)) (w : World) :
  ticks (final_state (for_each dups merge_duplicate w)) = ticks w.
Proof.
  revert w. induction dups as [|st dups IH]; intros w; [reflexivity|].
  cbn [for_each]. unfold bind.
  assert (Hst : ticks (final_state (merge_duplicate st w)) = ticks w).
  { unfold merge_duplicate, bind, get_self.
    destruct (NX.get_edge_data _ _ _); [|reflexivity].
    destruct (_merge_edge_data _); [|reflexivity].
    destruct (NX.remove_edge _ _ _); reflexivity. }
  destruct (merge_duplicate st w) as [[] w1|e w1]; cbn [final_state] in *.
  - rewrite IH. exact Hst.
  - exact Hst.
Qed.

Lemma merge_topologies_ticks (w : World) :
  ticks (final_state (_merge_topologies w)) = ticks w.
Proof.
  unfold _merge_topologies, try_except, bind, on_self, modify.
  cbn [self topology layer2_topology layer3_topology set_topology ticks log].
  match goal with
  | |- context [_merge_duplicate_links ?W] =>
      assert (Hd : ticks (final_state (_merge_duplicate_links W)) = ticks w);
      [|destruct (_merge_duplicate_links W) as [[] w1|e w1]; exact Hd]
  end.
  unfold _merge_duplicate_links, bind, get_self.
  destruct (duplicate_edges _ _) as [dups|e]; [|reflexivity].
  cbn [lift ret]. rewrite merge_duplicates_ticks. reflexivity.
Qed.

Lemma detect_topology_changes_ticks env previous w :
  ticks (final_state (_detect_topology_changes env previous w)) = S (ticks w).
Proof.
  unfold _detect_topology_changes, try_except, bind, time_time, get_self.
  cbn [self]. destruct (any_changes _); reflexivity.
Qed.

Lemma rebuild_ticks env w :
  (ticks w <= ticks (final_state (rebuild env w)))%nat.
Proof.
  unfold rebuild. destruct (discovery_run env w) as [lg Hd]. unfold bind in *.
  destruct (_discover_layer2_topology env w) as [[] w1|e w1]; [|discriminate].
  destruct (_discover_layer3_topology env w1) as [[] w2|e w2]; [|discriminate].
  injection Hd as ->. rewrite merge_topologies_ticks. cbn. lia.
Qed.

(** A cycle that is not gated reads the clock, at least twice. *)
Lemma update_topology_ticks env w :
  ~ gated env w ->
  (ticks w < ticks (final_state (update_topology env w)))%nat.
Proof.
  intros Hg.
  destruct (update_topology_ungated env w Hg) as (w3 & w4 & Hr & Hd & _ & ->).
  pose proof (rebuild_ticks env (cleared (tick w))) as H3.
  pose proof (detect_topology_changes_ticks env
                (NX.copy (topology (self w))) w3) as H4.
  rewrite Hr in H3. rewrite Hd in H4. cbn in *. lia.
Qed.

Lemma link_graph_unified env rs w : link_graph (unified env rs w).
Proof.
  intros x y d Hd.
  destruct (unified_edge_origin env rs w x y d Hd) as (r & now & _ & _ & ->).
  exists r, now. reflexivity.
Qed.

(** The attributes of a link in two builds from the same records: the
    same record, stamped with the reading at the same position. *)
Lemma get_edge_data_unified_position env rs w u v :
  NX.get_edge_data (unified env rs w) u v
  = (fun rp : NetworkLink * nat =>
       link_data rp.1 (clock env (ticks w + rp.2)%nat))
      <$> match last_match rs L3 u v 0 None with
          | Some rp => Some rp
          | None => last_match rs L2 u v 0 None
          end.
Proof.
  rewrite get_edge_data_unified, !lookup_link_position.
  destruct (last_match rs L3 u v 0 None); reflexivity.
Qed.

(** X17 — two cycles over an unchanged network. When the clock advances
    strictly and two calls in a row are not gated, the second cycle
    (the probes answer as before, the device table is the same) builds a
    graph with the same nodes in the same order and the same links with
    the same attributes but for the time stamps; its change record has
    no added or removed node or link, and it lists every link of the
    graph as modified, because the time stamps differ. *)
Theorem steady_network_every_link_modified
    (env : Environment) (w : World) (g1 : Graph) (w1 : World) :
  (forall i j, (i < j)%nat -> clock env i < clock env j) ->
  ~ gated env w ->
  update_topology env w = Ret g1 w1 ->
  ~ gated env w1 ->
  exists g2 w2 c,
    update_topology env w1 = Ret g2 w2
    /\ history (self w2)
       = history (self w1) ++ (if any_changes c then [c] else [])
    /\ added_nodes c = [] /\ removed_nodes c = []
    /\ added_links c = [] /\ removed_links c = []
    /\ NX.nodes g2 = NX.nodes g1
    /\ (forall e, e ∈ NX.edges g2 <-> e ∈ NX.edges g1)
    /\ (forall e, e ∈ NX.edges g2 ->
                  exists m, m ∈ modified_links c /\ ml_edge m = e)
    /\ (forall u v,
           without_timestamp <$> NX.get_edge_data g2 u v
           = without_timestamp <$> NX.get_edge_data g1 u v).
Proof.
  intros Hclk Hg Hu Hg1.
  pose proof (update_topology_ticks env w Hg) as Hticks.
  destruct (update_topology_discovers env w Hg) as (w1' & Hu1 & Ht1 & _ & Hn1).
  rewrite Hu in Hu1, Hticks. injection Hu1 as -> <-. cbn [final_state] in Hticks.
  set (ls := discovered env (self w)) in *.
  assert (Hls : discovered env (self w1) = ls).
  { unfold ls, discovered. rewrite Hn1. reflexivity. }
  destruct (update_topology_ungated env w1 Hg1)
    as (w3 & w4 & Hr & Hd & Ht & Hu2).
  pose proof (rebuild_topology env w1) as Hb.
  rewrite Hr, Hls in Hb. cbn [final_state] in Hb.
  pose proof (detect_topology_changes_history env
                (NX.copy (topology (self w1))) w3) as Hh.
  rewrite Hd in Hh. cbn [final_state] in Hh.
  pose proof (rebuild_keeps env history (fun _ _ => eq_refl)
                (fun _ _ => eq_refl) (fun _ _ => eq_refl)
                (cleared (tick w1))) as Hk.
  rewrite Hr in Hk. cbn [final_state] in Hk.
  change (history (self (cleared (tick w1)))) with (history (self w1)) in Hk.
  rewrite Hk, Hb, Ht1 in Hh.
  set (G1 := unified env ls (tick w)) in *.
  set (G2 := unified env ls (tick w1)) in *.
  set (c := compute_changes (clock env (ticks w3)) G2 (NX.copy G1)) in *.
  destruct (copy_link_graph G1 (wf_graph_unified env ls (tick w))
              (link_graph_unified env ls (tick w))) as [Hcn Hcd].
  assert (Hnodes : NX.nodes G2 = NX.nodes G1) by apply nodes_unified_clock.
  assert (Hsome : forall u v, is_Some (NX.get_edge_data G2 u v)
                              <-> is_Some (NX.get_edge_data G1 u v)).
  { intros u v. unfold G1, G2. rewrite !get_edge_data_unified_position.
    rewrite !fmap_is_Some. reflexivity. }
  assert (Hedges : forall e, e ∈ NX.edges G2 <-> e ∈ NX.edges G1).
  { apply edges_same; assumption. }
  assert (Hcedges : forall e, e ∈ NX.edges G2 <-> e ∈ NX.edges (NX.copy G1)).
  { apply edges_same; [congruence|]. intros u v. rewrite Hcd. apply Hsome. }
  exists G2, (mkWorld (set_last_update (clock env (ticks w1)) (self w4))
                      (ticks w4) (log w4)), c.
  split; [rewrite Hu2, Hb; reflexivity|].
  split; [exact Hh|].
  assert (Hsn : (list_to_set (NX.nodes G2) : gset Node)
                = list_to_set (NX.nodes (NX.copy G1))) by congruence.
  assert (Hse : (list_to_set (NX.edges G2) : gset (Node * Node))
                = list_to_set (NX.edges (NX.copy G1))).
  { apply set_eq. intros e. rewrite !elem_of_list_to_set. apply Hcedges. }
  split; [unfold c; cbn; rewrite Hsn, difference_diag_L; apply elements_empty|].
  split; [unfold c; cbn; rewrite Hsn, difference_diag_L; apply elements_empty|].
  split; [unfold c; cbn; rewrite Hse, difference_diag_L; apply elements_empty|].
  split; [unfold c; cbn; rewrite Hse, difference_diag_L; apply elements_empty|].
  split; [exact Hnodes|]. split; [exact Hedges|]. split.
  - intros [u v] He.
    assert (Hs : is_Some (NX.get_edge_data G2 u v)).
    { apply neighbors_get_edge_data. apply elem_of_edges in He.
      destruct He as (l1 & l2 & _ & Hv & _). exact Hv. }
    exists (mkModifiedLink (u, v) (NX.get_edge_data (NX.copy G1) u v)
                           (NX.get_edge_data G2 u v)).
    split; [|reflexivity]. apply elem_of_modified_links.
    cbn [ml_edge ml_current ml_previous fst snd].
    split; [exact He|]. split; [apply Hcedges, He|].
    split; [reflexivity|]. split; [reflexivity|].
    rewrite Hcd. unfold G1, G2 in *.
    rewrite get_edge_data_unified_position in Hs |- *.
    rewrite get_edge_data_unified_position.
    destruct (match last_match ls L3 u v 0 None with
              | Some rp => Some rp
              | None => last_match ls L2 u v 0 None
              end) as [[r p]|]; [|destruct Hs; discriminate].
    cbn [fmap option_fmap option_map fst snd].
    apply not_false_is_true. rewrite link_data_neqb.
    intros (_ & _ & _ & _ & Heq).
    assert (Hlt : clock env (ticks (tick w) + p)%nat
                  < clock env (ticks (tick w1) + p)%nat).
    { apply Hclk. cbn. lia. }
    lia.
  - intros u v. unfold G1, G2. rewrite !get_edge_data_unified_position.
    destruct (match last_match ls L3 u v 0 None with
              | Some rp => Some rp
              | None => last_match ls L2 u v 0 None
              end) as [[r p]|]; [|reflexivity].
    cbn [fmap option_fmap option_map fst snd].
    rewrite (without_timestamp_link_data r (clock env _)).
    rewrite (without_timestamp_link_data r (clock env (ticks (tick w) + p)%nat)).
    reflexivity.
Qed.

Lemma steady_network_every_link_modified_witness :
  exists g2 w2 c,
    update_topology striding_environment second_cycle_world = Ret g2 w2
    /\ history (self w2)
       = history (self second_cycle_world)
         ++ (if any_changes c then [c] else [])
    /\ added_nodes c = [] /\ removed_nodes c = []
    /\ added_links c = [] /\ removed_links c = []
    /\ NX.nodes g2 = NX.nodes (topology (self second_cycle_world))
    /\ (forall e, e ∈ NX.edges g2
                  <-> e ∈ NX.edges (topology (self second_cycle_world)))
    /\ (forall e, e ∈ NX.edges g2 ->
                  exists m, m ∈ modified_links c /\ ml_edge m = e)
    /\ (forall u v,
           without_timestamp <$> NX.get_edge_data g2 u v
           = without_timestamp
               <$> NX.get_edge_data (topology (self second_cycle_world)) u v).
Proof.
  apply (steady_network_every_link_modified striding_environment
           two_device_world (topology (self second_cycle_world))
           second_cycle_world).
  - intros i j Hij. cbn. lia.
  - unfold gated. vm_compute. discriminate.
  - vm_compute. reflexivity.
  - unfold gated. vm_compute. discriminate.
Defined.

(** The second record of that run, evaluated: two links are listed as
    modified and nothing else is reported. *)
Example second_cycle_evaluated :
  (fun c => (added_nodes c, removed_nodes c, added_links c, removed_links c,
             length (modified_links c)))
    <$> last (history (self (final_state
          (update_topology striding_environment second_cycle_world))))
  = Some ([], [], [], [], 2%nat).
Proof. vm_compute. reflexivity. Qed.

(** ** The log *)

Lemma extends_log_ret {A} (a : A) : extends_log (ret a).
Proof. intros w. exists []. cbn. rewrite app_nil_r. reflexivity. Qed.

Lemma extends_log_raise {A} (e : exn) : extends_log (@raise World A e).
Proof. intros w. exists []. cbn. rewrite app_nil_r. reflexivity. Qed.

Lemma extends_log_lift {A} (r : result A) : extends_log (lift r).
Proof. destruct r; [apply extends_log_ret | apply extends_log_raise]. Qed.

Lemma extends_log_get_self : extends_log get_self.
Proof. intros w. exists []. cbn. rewrite app_nil_r. reflexivity. Qed.

Lemma extends_log_on_self f : extends_log (on_self f).
Proof. intros w. exists []. cbn. rewrite app_nil_r. reflexivity. Qed.

Lemma extends_log_time_time env : extends_log (time_time env).
Proof. intros w. exists []. cbn. rewrite app_nil_r. reflexivity. Qed.

Lemma extends_log_logger_error msg e : extends_log (logger_error msg e).
Proof. intros w. eexists. reflexivity. Qed.

Lemma extends_log_logger_info msg c : extends_log (logger_info msg c).
Proof. intros w. eexists. reflexivity. Qed.

Lemma extends_log_bind {A B} (m : M World A) (k : A -> M World B) :
  extends_log m -> (forall a, extends_log (k a)) -> extends_log (bind m k).
Proof.
  intros Hm Hk w. unfold bind. destruct (Hm w) as [l1 H1].
  destruct (m w) as [a w1|e w1]; cbn [final_state] in *; [|eauto].
  destruct (Hk a w1) as [l2 H2]. exists (l1 ++ l2).
  rewrite H2, H1, app_assoc. reflexivity.
Qed.

Lemma extends_log_try_except {A} (m : M World A) (h : exn -> M World A) :
  extends_log m -> (forall e, extends_log (h e)) -> extends_log (try_except m h).
Proof.
  intros Hm Hh w. unfold try_except. destruct (Hm w) as [l1 H1].
  destruct (m w) as [a w1|e w1]; cbn [final_state] in *; [eauto|].
  destruct (Hh e w1) as [l2 H2]. exists (l1 ++ l2).
  rewrite H2, H1, app_assoc. reflexivity.
Qed.

Lemma extends_log_for_each {A} (l : list A) (body : A -> M World unit) :
  (forall a, extends_log (body a)) -> extends_log (for_each l body).
Proof.
  intros Hb. induction l as [|a l IH]; cbn [for_each].
  - apply extends_log_ret.
  - apply extends_log_bind; [apply Hb | intros _; exact IH].
Qed.

Ltac log_grows :=
  repeat first
    [ apply extends_log_ret | apply extends_log_raise | apply extends_log_lift
    | apply extends_log_get_self | apply extends_log_on_self
    | apply extends_log_time_time | apply extends_log_logger_error
    | apply extends_log_logger_info
    | match goal with
      | |- extends_log (bind _ _) => apply extends_log_bind; [|intros ?]
      | |- extends_log (try_except _ _) =>
          apply extends_log_try_except; [|intros ?]
      | |- extends_log (for_each _ _) => apply extends_log_for_each; intros ?
      | |- extends_log (if ?c then _ else _) => destruct c
      | |- extends_log (match ?x with _ => _ end) => destruct x
      | |- extends_log (let _ := _ in _) => cbv zeta
      end ].

Lemma merge_topologies_extends_log : extends_log _merge_topologies.
Proof.
  unfold _merge_topologies, _merge_duplicate_links, merge_duplicate. log_grows.
Qed.

Lemma detect_topology_changes_extends_log env previous :
  extends_log (_detect_topology_changes env previous).
Proof. unfold _detect_topology_changes. log_grows. Qed.

Section DiscoveryLog.

Context (env : Environment).

Lemma discover_layer2_run_log w :
  exists lg,
    _discover_layer2_topology env w
    = Ret tt (after_links env (layer2_links env (map snd (nodes (self w))))
                (lg ++ [LogError "Error discovering Layer 2 topology"
                          (Some (AttributeError "_discover_mac_topology"))]) w).
Proof.
  unfold _discover_layer2_topology, try_except, bind, layer2_links.
  destruct (discover_lldp_run env w) as [lg1 ->].
  destruct (discover_cdp_run env (after_links env
              (protocol_links (_get_lldp_neighbors env) parse_neighbor
                              (map snd (nodes (self w)))) lg1 w)) as [lg2 ->].
  cbn [after_links self nodes set_layer3_topology set_layer2_topology].
  rewrite after_links_app.
  destruct (discover_stp_run env (after_links env
              (protocol_links (_get_lldp_neighbors env) parse_neighbor
                              (map snd (nodes (self w)))
               ++ protocol_links (_get_cdp_neighbors env) parse_neighbor
                              (map snd (nodes (self w)))) (lg1 ++ lg2) w))
    as [lg3 ->].
  cbn [after_links self nodes set_layer3_topology set_layer2_topology].
  fold (after_links env
          (protocol_links (_get_lldp_neighbors env) parse_neighbor
                          (map snd (nodes (self w)))
           ++ protocol_links (_get_cdp_neighbors env) parse_neighbor
                          (map snd (nodes (self w)))) (lg1 ++ lg2) w).
  rewrite after_links_app, <- app_assoc.
  unfold raise, logger_error, modify. rewrite after_links_log.
  eexists. reflexivity.
Qed.

Lemma discover_layer3_run_log w :
  exists lg,
    _discover_layer3_topology env w
    = Ret tt (after_links env (layer3_links env (map snd (nodes (self w))))
                (lg ++ [LogError "Error discovering Layer 3 topology"
                          (Some (AttributeError "_discover_arp_topology"))]) w).
Proof.
  unfold _discover_layer3_topology, try_except, bind, layer3_links.
  destruct (discover_routing_run env w) as [lg1 ->].
  unfold raise, logger_error, modify. rewrite after_links_log.
  eexists. reflexivity.
Qed.

End DiscoveryLog.

(** X19 — every cycle runs into the two methods the class does not
    have. A call of [update_topology] that is not gated logs, in this
    order, the [AttributeError] for [_discover_mac_topology] (caught in
    [_discover_layer2_topology], after the LLDP, CDP and spanning-tree
    loops have run) and the one for [_discover_arp_topology] (caught in
    [_discover_layer3_topology], after the routing loop; the OSPF and BGP
    steps behind it are never reached); the log only grows, and the call
    still returns a graph. *)
Theorem every_cycle_logs_missing_methods (env : Environment) (w : World) :
  ~ gated env w ->
  exists g w' l1 l2 l3,
    update_topology env w = Ret g w'
    /\ log w'
       = log w ++ l1
         ++ [LogError "Error discovering Layer 2 topology"
               (Some (AttributeError "_discover_mac_topology"))]
         ++ l2
         ++ [LogError "Error discovering Layer 3 topology"
               (Some (AttributeError "_discover_arp_topology"))]
         ++ l3.
Proof.
  intros Hg.
  destruct (update_topology_ungated env w Hg) as (w3 & w4 & Hr & Hd & _ & Hu).
  rewrite Hu. unfold rebuild, bind in Hr.
  destruct (discover_layer2_run_log env (cleared (tick w))) as [lgA HA].
  rewrite HA in Hr.
  match type of Hr with
  | context [_discover_layer3_topology env ?W] =>
      destruct (discover_layer3_run_log env W) as [lgB HB]
  end.
  rewrite HB in Hr.
  match type of Hr with
  | _merge_topologies ?W = _ =>
      destruct (merge_topologies_extends_log W) as [lm Hm]
  end.
  rewrite Hr in Hm. cbn [final_state] in Hm.
  destruct (detect_topology_changes_extends_log env
              (NX.copy (topology (self w))) w3) as [ld Hld].
  rewrite Hd in Hld. cbn [final_state] in Hld.
  eexists _, _, lgA, lgB, (lm ++ ld). split; [reflexivity|].
  cbn [log]. rewrite Hld, Hm. cbn [after_links log cleared tick].
  rewrite <- !app_assoc. reflexivity.
Qed.

Lemma every_cycle_logs_missing_methods_witness :
  exists g w' l1 l2 l3,
    update_topology partial_environment two_device_world = Ret g w'
    /\ log w'
       = log two_device_world ++ l1
         ++ [LogError "Error discovering Layer 2 topology"
               (Some (AttributeError "_discover_mac_topology"))]
         ++ l2
         ++ [LogError "Error discovering Layer 3 topology"
               (Some (AttributeError "_discover_arp_topology"))]
         ++ l3.
Proof.
  apply (every_cycle_logs_missing_methods partial_environment two_device_world).
  unfold gated. vm_compute. discriminate.
Defined.

(** X20 — [get_redundant_paths] never raises. It returns a list and
    leaves the manager as it is for any two names; when the source is not
    a node of the graph the list is empty and the [NodeNotFound] error
    of the library is logged (whereas [get_path] lets that error escape);
    when the source is a node nothing is logged. *)
Theorem get_redundant_paths_never_raises (source target : Node) (w : World) :
  exists paths w',
    get_redundant_paths source target w = Ret paths w'
    /\ self w' = self w
    /\ (NX.has_node (topology (self w)) source = false ->
        paths = []
        /\ log w' = log w
                    ++ [LogError "Error finding redundant paths"
                          (Some (NodeNotFound "source node not in graph"))]
        /\ get_path source target w
           = Raise (NodeNotFound "Either source or target is not in G") w)
    /\ (NX.has_node (topology (self w)) source = true -> w' = w).
Proof.
  unfold get_redundant_paths, get_path, try_except, try_except_class, bind,
    get_self, NX.all_simple_paths, NX.shortest_path.
  destruct (NX.has_node (topology (self w)) source) eqn:E; cbn.
  - eexists _, _. split; [reflexivity|]. split; [reflexivity|].
    split; [discriminate | reflexivity].
  - eexists _, _. split; [reflexivity|]. split; [reflexivity|].
    split; [auto | discriminate].
Qed.

(** ** The report schedule *)

Lemma report_schedules_disjoint (t : datetime) :
  (_should_generate_daily_report t && _should_generate_weekly_report t = false)
  /\ (_should_generate_daily_report t && _should_generate_monthly_report t
      = false)
  /\ (_should_generate_weekly_report t && _should_generate_monthly_report t
      = false).
Proof.
  unfold _should_generate_daily_report, _should_generate_weekly_report,
    _should_generate_monthly_report.
  destruct (hour t =? 0) eqn:H0, (hour t =? 1) eqn:H1, (hour t =? 2) eqn:H2;
    try apply Z.eqb_eq in H0; try apply Z.eqb_eq in H1;
    try apply Z.eqb_eq in H2; try lia;
    rewrite ?andb_false_r, ?andb_false_l; cbn;
    rewrite ?andb_false_r; auto.
Qed.

(** X21 — at most one report per pass. The three schedules are mutually
    exclusive at every time (they ask for hour 0, 1 and 2), so a call of
    [_generate_reports] runs the one generator that is due, or none; and
    as long as logging does not raise, [_generate_reports] does not raise
    either, whatever the generator does. *)
Theorem one_report_per_pass {St : Type} (datetime_now : St -> datetime)
    (daily weekly monthly : M St unit)
    (monitor_error : string -> exn -> M St unit) (s : St) :
  (forall msg e s0, exists s1, monitor_error msg e s0 = Ret tt s1) ->
  let t := datetime_now s in
  (_should_generate_daily_report t && _should_generate_weekly_report t = false)
  /\ (_should_generate_daily_report t && _should_generate_monthly_report t
      = false)
  /\ (_should_generate_weekly_report t && _should_generate_monthly_report t
      = false)
  /\ _generate_reports datetime_now daily weekly monthly monitor_error s
     = try_except
         (if _should_generate_daily_report t then daily
          else if _should_generate_weekly_report t then weekly
          else if _should_generate_monthly_report t then monthly
          else ret tt)
         (fun e => monitor_error "Error generating reports" e) s
  /\ exists s',
      _generate_reports datetime_now daily weekly monthly monitor_error s
      = Ret tt s'.
Proof.
  intros Hlog. cbv zeta.
  destruct (report_schedules_disjoint (datetime_now s)) as (Hdw & Hdm & Hwm).
  split; [exact Hdw|]. split; [exact Hdm|]. split; [exact Hwm|].
  assert (Heq : _generate_reports datetime_now daily weekly monthly
                  monitor_error s
                = try_except
                    (if _should_generate_daily_report (datetime_now s) then daily
                     else if _should_generate_weekly_report (datetime_now s)
                          then weekly
                     else if _should_generate_monthly_report (datetime_now s)
                          then monthly
                     else ret tt)
                    (fun e => monitor_error "Error generating reports" e) s).
  { unfold _generate_reports, try_except, bind.
    destruct (_should_generate_daily_report (datetime_now s)),
      (_should_generate_weekly_report (datetime_now s)),
      (_should_generate_monthly_report (datetime_now s));
      try discriminate; cbn [ret].
    - destruct (daily s) as [[] s1|e s1]; reflexivity.
    - destruct (weekly s) as [[] s1|e s1]; reflexivity.
    - reflexivity.
    - reflexivity. }
  split; [exact Heq|]. rewrite Heq. unfold try_except.
  match goal with
  | |- context [match ?m s with _ => _ end] =>
      destruct (m s) as [[] s1|e s1]; [eauto | apply Hlog]
  end.
Qed.

Lemma one_report_per_pass_witness :
  let t := monday_morning in
  (_should_generate_daily_report t && _should_generate_weekly_report t = false)
  /\ (_should_generate_daily_report t && _should_generate_monthly_report t
      = false)
  /\ (_should_generate_weekly_report t && _should_generate_monthly_report t
      = false)
  /\ _generate_reports (fun _ : World => monday_morning)
        (logger_error "daily report" None) (logger_error "weekly report" None)
        (raise (ValueError "monthly report"))
        (fun msg e => logger_error msg (Some e)) fresh_world
     = try_except
         (if _should_generate_daily_report t then logger_error "daily report" None
          else if _should_generate_weekly_report t
               then logger_error "weekly report" None
          else if _should_generate_monthly_report t
               then raise (ValueError "monthly report")
          else ret tt)
         (fun e => logger_error "Error generating reports" (Some e)) fresh_world
  /\ exists s',
      _generate_reports (fun _ : World => monday_morning)
        (logger_error "daily report" None) (logger_error "weekly report" None)
        (raise (ValueError "monthly report"))
        (fun msg e => logger_error msg (Some e)) fresh_world
      = Ret tt s'.
Proof.
  apply (one_report_per_pass (fun _ : World => monday_morning)
           (logger_error "daily report" None)
           (logger_error "weekly report" None)
           (raise (ValueError "monthly report"))
           (fun msg e => logger_error msg (Some e)) fresh_world).
  intros msg e s0. eexists. reflexivity.
Defined.

(* ===================================================================== *)
(** * The update cycle as a whole                                         *)
(* ===================================================================== *)

Section WholeCycle.

Context (env : Environment).

Lemma add_link_extends_log s t lt ly si ti kw :
  extends_log (_add_link env s t lt ly si ti kw).
Proof.
  unfold _add_link. apply extends_log_bind; [apply extends_log_time_time|].
  intros now. destruct ly;
    [apply extends_log_on_self | apply extends_log_on_self | apply extends_log_ret].
Qed.

Ltac log_grows_with leaf :=
  repeat first
    [ leaf
    | apply extends_log_ret | apply extends_log_raise | apply extends_log_lift
    | apply extends_log_get_self | apply extends_log_on_self
    | apply extends_log_time_time | apply extends_log_logger_error
    | apply extends_log_logger_info
    | match goal with
      | |- extends_log (bind _ _) => apply extends_log_bind; [|intros ?]
      | |- extends_log (try_except _ _) =>
          apply extends_log_try_except; [|intros ?]
      | |- extends_log (for_each _ _) => apply extends_log_for_each; intros ?
      | |- extends_log (if ?c then _ else _) => destruct c
      | |- extends_log (let _ := _ in _) => cbv zeta
      end ].

Lemma discover_layer2_extends_log : extends_log (_discover_layer2_topology env).
Proof.
  unfold _discover_layer2_topology, _discover_lldp_topology,
    _discover_cdp_topology, _discover_stp_topology, per_device, add_neighbor.
  log_grows_with ltac:(apply add_link_extends_log).
Qed.

Lemma discover_layer3_extends_log : extends_log (_discover_layer3_topology env).
Proof.
  unfold _discover_layer3_topology, _discover_routing_topology, per_device.
  log_grows_with ltac:(apply add_link_extends_log).
Qed.

Lemma update_topology_extends_log : extends_log (update_topology env).
Proof.
  unfold update_topology, update_topology_with.
  log_grows_with ltac:(first
    [ apply discover_layer2_extends_log | apply discover_layer3_extends_log
    | apply merge_topologies_extends_log
    | apply detect_topology_changes_extends_log ]).
Qed.

(** A call that passes the gate, for arbitrary build steps: the graphs
    are emptied and the steps run; if they all return, the time stamp is
    set, and if one of them raises, the error is logged; in both cases the
    graph returned is the one the steps left in [self.topology]. *)
Lemma update_topology_with_ungated d2 d3 mg df w :
  ~ clock env (ticks w) - last_update (self w) < update_interval (self w) ->
  update_topology_with env d2 d3 mg df w
  = match build_with d2 d3 mg df (NX.copy (topology (self w)))
                     (cleared (tick w)) with
    | Ret _ w4 =>
        Ret (topology (self w4))
            (mkWorld (set_last_update (clock env (ticks w)) (self w4))
                     (ticks w4) (log w4))
    | Raise e w4 =>
        Ret (topology (self w4))
            (mkWorld (self w4) (ticks w4)
                     (log w4 ++ [LogError "Error updating topology" (Some e)]))
    end.
Proof.
  intros Hg. unfold update_topology_with, bind, get_self.
  rewrite time_time_run. simpl.
  destruct (decide _) as [Hc|_]; [contradiction|].
  unfold try_except, bind, on_self, modify, build_with, bind. simpl.
  change (mkWorld _ (S (ticks w)) (log w)) with (cleared (tick w)).
  destruct (d2 (cleared (tick w))) as [[] w1|e w1]; [|reflexivity].
  destruct (d3 w1) as [[] w2|e w2]; [|reflexivity].
  destruct (mg w2) as [[] w3|e w3]; [|reflexivity].
  destruct (df _ w3) as [[] w4|e w4]; reflexivity.
Qed.

(** With a number as interval, [update_topology_raw] is
    [update_topology]. *)
Lemma update_topology_raw_number w :
  update_topology_raw env (CNumber (update_interval (self w))) w
  = update_topology env w.
Proof.
  unfold update_topology_raw, update_topology, update_topology_with, bind,
    get_self, time_time. cbn [lift py_lt ret self].
  destruct (decide (clock env (ticks w) - last_update (self w)
                    < update_interval (self w))) as [H|H].
  - rewrite (bool_decide_eq_true_2 _ H). reflexivity.
  - rewrite (bool_decide_eq_false_2 _ H). reflexivity.
Qed.

(** With anything else the comparison raises, once the clock has been
    read. *)
Lemma update_topology_raw_not_number interval w :
  (forall z, interval <> CNumber z) ->
  exists msg,
    update_topology_raw env interval w = Raise (TypeError msg) (tick w).
Proof.
  intros Hn. unfold update_topology_raw, bind, get_self, time_time.
  destruct interval as [z| |]; [destruct (Hn z eq_refl)| |];
    eexists; reflexivity.
Qed.

End WholeCycle.

(** C1 (amended) — a call that passes the gate rebuilds the graph in
    place. It returns normally; the graph it returns and publishes is the
    one that discovery and merge build from the emptied graphs; the time
    stamp is set to the clock reading taken at the start of the call; and
    the result is the same whatever graph was published before: the
    previous graph is neither kept nor restored. Errors raised inside
    discovery, merge or diff do not stop the cycle: each of the four
    steps returns normally from every state; and the call only appends
    to the log. *)
Theorem update_rebuilds_in_place (env : Environment) (w : World) :
  ~ clock env (ticks w) - last_update (self w) < update_interval (self w) ->
  exists g w',
    update_topology env w = Ret g w'
    /\ g = topology (self w')
    /\ last_update (self w') = clock env (ticks w)
    /\ (exists w3, rebuild env (cleared (tick w)) = Ret tt w3
                   /\ g = topology (self w3))
    /\ (forall g0, exists w'',
          update_topology env (with_topology g0 w) = Ret g w'')
    /\ (forall w0,
          (exists w1, _discover_layer2_topology env w0 = Ret tt w1)
          /\ (exists w1, _discover_layer3_topology env w0 = Ret tt w1)
          /\ (exists w1, _merge_topologies w0 = Ret tt w1)
          /\ (forall previous,
                exists w1, _detect_topology_changes env previous w0 = Ret tt w1))
    /\ exists l, log w' = log w ++ l.
Proof.
  intros Hgate.
  destruct (update_topology_ungated env w Hgate) as (w3 & w4 & H3 & H4 & Ht & Hu).
  destruct (update_topology_extends_log env w) as [l Hl].
  rewrite Hu in Hl. cbn [final_state] in Hl.
  eexists _, _. split; [exact Hu|]. cbn [self topology set_last_update last_update].
  split; [symmetry; exact Ht|]. split; [reflexivity|].
  split; [exists w3; split; [exact H3 | reflexivity]|].
  split.
  - intros g0.
    destruct (update_topology_ungated env (with_topology g0 w) Hgate)
      as (v3 & v4 & G3 & G4 & Gt & Gu).
    rewrite cleared_with_topology in G3. rewrite H3 in G3.
    injection G3 as <-. eexists. exact Gu.
  - split; [|exists l; exact Hl].
    intros w0. split; [apply discover_layer2_returns|].
    split; [apply discover_layer3_returns|].
    split; [apply merge_topologies_returns|].
    intros previous.
    destruct (detect_topology_changes_returns env previous w0) as (w1 & H1 & _).
    exists w1. exact H1.
Qed.

Lemma update_rebuilds_in_place_witness :
  exists g w',
    update_topology failing_environment published_world = Ret g w'
    /\ g = topology (self w')
    /\ last_update (self w') = clock failing_environment (ticks published_world)
    /\ (exists w3, rebuild failing_environment (cleared (tick published_world))
                   = Ret tt w3
                   /\ g = topology (self w3))
    /\ (forall g0, exists w'',
          update_topology failing_environment (with_topology g0 published_world)
          = Ret g w'')
    /\ (forall w0,
          (exists w1, _discover_layer2_topology failing_environment w0 = Ret tt w1)
          /\ (exists w1, _discover_layer3_topology failing_environment w0
                         = Ret tt w1)
          /\ (exists w1, _merge_topologies w0 = Ret tt w1)
          /\ (forall previous,
                exists w1, _detect_topology_changes failing_environment
                             previous w0 = Ret tt w1))
    /\ exists l, log w' = log published_world ++ l.
Proof.
  apply (update_rebuilds_in_place failing_environment published_world).
  vm_compute. discriminate.
Defined.

(** C9 (counterexample) — the graph returned after a failure is not the
    one held before, and a call can raise. After a cycle has published
    the graph A–B, a call in which the merge step raises returns the
    emptied graph, not the graph A–B, and leaves the time stamp as it
    was; and on a manager whose [update_interval] is the string ['3600']
    the call raises [TypeError] at the gate. *)
Lemma update_never_raises_counterexample :
  NX.has_edge (topology (self published_world)) "A" "B" = true
  /\ (exists w',
        update_topology_with failing_environment (ret tt) (ret tt)
          (raise (TypeError "merge")) (fun _ => ret tt) published_world
        = Ret NX.empty w'
        /\ topology (self w') = NX.empty
        /\ last_update (self w') = last_update (self published_world))
  /\ NX.empty <> topology (self published_world)
  /\ update_topology_raw failing_environment (CString "3600") published_world
     = Raise (TypeError
                "'<' not supported between instances of 'float' and 'str'")
             (tick published_world).
Proof.
  split; [vm_compute; reflexivity|].
  split; [eexists; vm_compute; repeat split; reflexivity|].
  split; [vm_compute; discriminate|].
  reflexivity.
Qed.

(** C9 (amended) — with a number as update interval, [update_topology]
    never raises and returns the graph the manager holds when the call
    ends. For every state, every clock and every behaviour of the four
    build steps (raising included): below the interval the call returns
    the held graph and only reads the clock; otherwise the graphs are
    emptied and the steps run, and if they all return the call returns
    the graph they built and sets the time stamp, while if one of them
    raises the call logs the error and returns the graph as the failed
    build left it, not the graph held before, the time stamp staying as
    it was. With the steps of the class the call returns the unchanged
    graph below the interval and the freshly built one, with the time
    stamp set, otherwise. When the update interval is not a number the
    call raises [TypeError] at the gate. *)
Theorem update_topology_never_raises (env : Environment) (w : World) :
  (forall (d2 d3 mg : M World unit) (df : Graph -> M World unit),
      (exists w', update_topology_with env d2 d3 mg df w
                  = Ret (topology (self w')) w')
      /\ (clock env (ticks w) - last_update (self w) < update_interval (self w) ->
          update_topology_with env d2 d3 mg df w
          = Ret (topology (self w)) (tick w))
      /\ (~ clock env (ticks w) - last_update (self w) < update_interval (self w) ->
          (forall w4,
              build_with d2 d3 mg df (NX.copy (topology (self w)))
                         (cleared (tick w)) = Ret tt w4 ->
              update_topology_with env d2 d3 mg df w
              = Ret (topology (self w4))
                    (mkWorld (set_last_update (clock env (ticks w)) (self w4))
                             (ticks w4) (log w4)))
          /\ (forall e w4,
                build_with d2 d3 mg df (NX.copy (topology (self w)))
                           (cleared (tick w)) = Raise e w4 ->
                update_topology_with env d2 d3 mg df w
                = Ret (topology (self w4))
                      (mkWorld (self w4) (ticks w4)
                         (log w4
                          ++ [LogError "Error updating topology" (Some e)])))))
  /\ (exists w',
        update_topology env w = Ret (topology (self w')) w'
        /\ (clock env (ticks w) - last_update (self w) < update_interval (self w)
            -> self w' = self w)
        /\ (~ clock env (ticks w) - last_update (self w) < update_interval (self w)
            -> last_update (self w') = clock env (ticks w)))
  /\ update_topology_raw env (CNumber (update_interval (self w))) w
     = update_topology env w
  /\ (forall interval, (forall z, interval <> CNumber z) ->
        exists msg,
          update_topology_raw env interval w = Raise (TypeError msg) (tick w)).
Proof.
  split; [|split; [|split]].
  - intros d2 d3 mg df. split; [apply update_topology_with_returns|].
    split; [apply update_topology_with_gated|].
    intros Hg. rewrite (update_topology_with_ungated env d2 d3 mg df w Hg).
    split.
    + intros w4 ->. reflexivity.
    + intros e w4 ->. reflexivity.
  - destruct (decide (clock env (ticks w) - last_update (self w)
                      < update_interval (self w))) as [Hg|Hg].
    + exists (tick w). unfold update_topology.
      rewrite update_topology_with_gated by exact Hg.
      split; [reflexivity|]. split; [reflexivity | contradiction].
    + destruct (update_topology_ungated env w Hg)
        as (w3 & w4 & _ & _ & Ht & Hu).
      exists (mkWorld (set_last_update (clock env (ticks w)) (self w4))
                      (ticks w4) (log w4)).
      split; [rewrite Hu, <- Ht; reflexivity|].
      split; [contradiction | reflexivity].
  - apply update_topology_raw_number.
  - intros interval Hn. apply update_topology_raw_not_number, Hn.
Qed.

Lemma update_topology_never_raises_witness :
  (forall (d2 d3 mg : M World unit) (df : Graph -> M World unit),
      (exists w', update_topology_with failing_environment d2 d3 mg df
                    published_world
                  = Ret (topology (self w')) w')
      /\ (clock failing_environment (ticks published_world)
            - last_update (self published_world)
          < update_interval (self published_world) ->
          update_topology_with failing_environment d2 d3 mg df published_world
          = Ret (topology (self published_world)) (tick published_world))
      /\ (~ clock failing_environment (ticks published_world)
              - last_update (self published_world)
            < update_interval (self published_world) ->
          (forall w4,
              build_with d2 d3 mg df (NX.copy (topology (self published_world)))
                         (cleared (tick published_world)) = Ret tt w4 ->
              update_topology_with failing_environment d2 d3 mg df
                                   published_world
              = Ret (topology (self w4))
                    (mkWorld (set_last_update
                                (clock failing_environment
                                       (ticks published_world)) (self w4))
                             (ticks w4) (log w4)))
          /\ (forall e w4,
                build_with d2 d3 mg df
                           (NX.copy (topology (self published_world)))
                           (cleared (tick published_world)) = Raise e w4 ->
                update_topology_with failing_environment d2 d3 mg df
                                     published_world
                = Ret (topology (self w4))
                      (mkWorld (self w4) (ticks w4)
                         (log w4
                          ++ [LogError "Error updating topology" (Some e)])))))
  /\ (exists w',
        update_topology failing_environment published_world
        = Ret (topology (self w')) w'
        /\ (clock failing_environment (ticks published_world)
              - last_update (self published_world)
            < update_interval (self published_world)
            -> self w' = self published_world)
        /\ (~ clock failing_environment (ticks published_world)
                - last_update (self published_world)
              < update_interval (self published_world)
            -> last_update (self w')
               = clock failing_environment (ticks published_world)))
  /\ update_topology_raw failing_environment
       (CNumber (update_interval (self published_world))) published_world
     = update_topology failing_environment published_world
  /\ (forall interval, (forall z, interval <> CNumber z) ->
        exists msg,
          update_topology_raw failing_environment interval published_world
          = Raise (TypeError msg) (tick published_world)).
Proof.
  exact (update_topology_never_raises failing_environment published_world).
Defined.

(** ** A manager as [__init__] leaves it *)

(** X18 — the first call on a new manager. A manager as [__init__]
    builds it from a configuration whose values are numbers (empty
    graphs, no device, [last_update] zero, the interval from the
    configuration or 3600), with the probes of the class, returns the
    empty graph from its first [update_topology] and does not raise:
    when the first clock reading is below the interval the call is gated
    and the manager is as [__init__] left it; otherwise the reading
    becomes [last_update] and the history receives one record without
    any change in it, unless the second reading is zero. When the
    configuration gives something else than a number as
    ['update_interval'], the first call raises [TypeError] at the gate,
    once it has read the clock. *)
Theorem first_update_of_new_manager (cfg : list (string * Z)) (clk : nat -> Z) :
  let w := mkWorld (__init__ cfg) 0 [] in
  exists w',
    update_topology (stub_environment clk) w = Ret NX.empty w'
    /\ update_interval (self w') = config_get cfg "update_interval" 3600
    /\ (clk 0%nat < config_get cfg "update_interval" 3600 ->
        self w' = __init__ cfg /\ log w' = [])
    /\ (~ clk 0%nat < config_get cfg "update_interval" 3600 ->
        last_update (self w') = clk 0%nat
        /\ topology (self w') = NX.empty
        /\ history (self w')
           = if clk 1%nat =? 0 then []
             else [mkChanges (clk 1%nat) [] [] [] [] []])
    /\ (forall rcfg : list (string * config_value),
          (forall z, raw_config_get rcfg "update_interval" (CNumber 3600)
                     <> CNumber z) ->
          exists msg,
            update_topology_raw (stub_environment clk)
              (raw_config_get rcfg "update_interval" (CNumber 3600)) w
            = Raise (TypeError msg) (tick w)).
Proof.
  cbv zeta.
  assert (Hraw : forall rcfg : list (string * config_value),
            (forall z, raw_config_get rcfg "update_interval" (CNumber 3600)
                       <> CNumber z) ->
            exists msg,
              update_topology_raw (stub_environment clk)
                (raw_config_get rcfg "update_interval" (CNumber 3600))
                (mkWorld (__init__ cfg) 0 [])
              = Raise (TypeError msg) (tick (mkWorld (__init__ cfg) 0 []))).
  { intros rcfg Hn. apply update_topology_raw_not_number, Hn. }
  destruct (decide (clk 0%nat < config_get cfg "update_interval" 3600))
    as [Hg|Hg].
  - eexists. unfold update_topology.
    rewrite update_topology_with_gated
      by (cbn; rewrite Z.sub_0_r; exact Hg).
    split; [reflexivity|]. split; [reflexivity|].
    split; [auto|]. split; [contradiction | exact Hraw].
  - assert (Hg' : ~ gated (stub_environment clk) (mkWorld (__init__ cfg) 0 [])).
    { unfold gated. cbn. rewrite Z.sub_0_r. exact Hg. }
    destruct (update_topology_ungated _ _ Hg') as (w3 & w4 & Hr & Hd & Ht & Hu).
    assert (Hr' : rebuild (stub_environment clk)
                    (cleared (tick (mkWorld (__init__ cfg) 0 [])))
                  = Ret tt
                      (mkWorld (__init__ cfg) 1
                         [LogError "Error discovering Layer 2 topology"
                            (Some (AttributeError "_discover_mac_topology"));
                          LogError "Error discovering Layer 3 topology"
                            (Some (AttributeError "_discover_arp_topology"))]))
      by reflexivity.
    rewrite Hr' in Hr. injection Hr as <-.
    pose proof (detect_topology_changes_history (stub_environment clk)
                  (NX.copy (topology (self (mkWorld (__init__ cfg) 0 []))))
                  (mkWorld (__init__ cfg) 1
                     [LogError "Error discovering Layer 2 topology"
                        (Some (AttributeError "_discover_mac_topology"));
                      LogError "Error discovering Layer 3 topology"
                        (Some (AttributeError "_discover_arp_topology"))]))
      as Hh.
    rewrite Hd in Hh. cbn [final_state self ticks __init__ topology history
      stub_environment clock app] in Hh.
    assert (Hc : compute_changes (clk 1%nat) NX.empty (NX.copy NX.empty)
                 = mkChanges (clk 1%nat) [] [] [] [] [])
      by (vm_compute; reflexivity).
    rewrite Hc in Hh. unfold any_changes, truthy_float in Hh.
    cbn [timestamp added_nodes removed_nodes added_links removed_links
         modified_links truthy_list orb] in Hh.
    pose proof (detect_topology_changes_keeps (stub_environment clk)
                  update_interval (NX.copy NX.empty) (fun _ _ => eq_refl)
                  (mkWorld (__init__ cfg) 1
                     [LogError "Error discovering Layer 2 topology"
                        (Some (AttributeError "_discover_mac_topology"));
                      LogError "Error discovering Layer 3 topology"
                        (Some (AttributeError "_discover_arp_topology"))]))
      as Hi.
    change (topology (self (mkWorld (__init__ cfg) 0 []))) with NX.empty in Hd.
    rewrite Hd in Hi. cbn [final_state self __init__ update_interval] in Hi.
    eexists. split; [rewrite Hu; reflexivity|].
    cbn [self update_interval last_update history topology set_last_update].
    split; [exact Hi|]. split; [contradiction|]. split; [|exact Hraw].
    intros _.
    split; [reflexivity|]. split; [rewrite Ht; reflexivity|].
    rewrite Hh, !orb_false_r. destruct (clk 1%nat =? 0); reflexivity.
Qed.
